(** * Co-/tri-clustering (cgc, geoclustering): a shallow embedding

    The development follows the Python sources:
    - [cgc/triclustering_numpy.py]       (module [TriclusteringNumpy]),
    - [geoclustering/coclustering_dask.py] (module [CoclusteringDask]),
    - [cgc/coclustering.py]              (module [CgcCoclustering]),
    - [geoclustering/coclustering.py]    (module [GeoCoclustering]),
    - [cgc/kmeans.py]                    (module [Kmeans]).

    Numbers.  A numpy / Python float is modelled by the type [float] below:
    a real number, or one of the three special values of IEEE-754.  The
    arithmetic on finite values is exact (no rounding, no overflow, one
    zero); the special values propagate as they do in numpy.  Where a
    property depends on the range of the numbers, the code is given again
    on an arithmetic that rounds and overflows (module [Fl]).  Python
    integers used as counts and labels are [nat], integers that may be
    negative are [Z].

    Arrays.  A dense [ndarray] of rank 2 or 3 is its shape together with its
    indexing function; the code never reads outside the shape.  Label
    vectors (rank 1, integer) are lists. *)

From Stdlib Require Import Reals Lra Lia List Bool Arith ZArith.
From Stdlib Require Import Permutation Sorting.Sorted.
Import ListNotations.

Set Implicit Arguments.

(* ================================================================== *)
(** * Floating-point values *)
(* ================================================================== *)

Inductive float : Type :=
| Fin (r : R)   (* a finite value *)
| PInf          (* +inf *)
| NInf          (* -inf *)
| NaN.

Definition is_finite (x : float) : Prop :=
  match x with Fin _ => True | _ => False end.

Definition is_finiteb (x : float) : bool :=
  match x with Fin _ => true | _ => false end.

Definition isnan (x : float) : bool :=
  match x with NaN => true | _ => false end.

Definition fopp (x : float) : float :=
  match x with
  | Fin r => Fin (- r)
  | PInf => NInf
  | NInf => PInf
  | NaN => NaN
  end.

Definition fadd (x y : float) : float :=
  match x, y with
  | NaN, _ | _, NaN => NaN
  | Fin a, Fin b => Fin (a + b)
  | PInf, NInf | NInf, PInf => NaN
  | PInf, _ | _, PInf => PInf
  | NInf, _ | _, NInf => NInf
  end.

Definition fsub (x y : float) : float := fadd x (fopp y).

(** Sign of a finite value times an infinity ([0 * inf] is NaN). *)
Definition scale_inf (a : R) (pos : bool) : float :=
  if Rlt_dec 0 a then (if pos then PInf else NInf)
  else if Rlt_dec a 0 then (if pos then NInf else PInf)
  else NaN.

Definition fmul (x y : float) : float :=
  match x, y with
  | NaN, _ | _, NaN => NaN
  | Fin a, Fin b => Fin (a * b)
  | Fin a, PInf | PInf, Fin a => scale_inf a true
  | Fin a, NInf | NInf, Fin a => scale_inf a false
  | PInf, PInf | NInf, NInf => PInf
  | PInf, NInf | NInf, PInf => NInf
  end.

(** numpy division: a finite value over zero is an infinity (or NaN for
    [0/0]), it does not raise. *)
Definition fdiv (x y : float) : float :=
  match x, y with
  | NaN, _ | _, NaN => NaN
  | Fin a, Fin b =>
      if Req_dec_T b 0 then scale_inf a true else Fin (a / b)
  | Fin _, _ => Fin 0
  | PInf, Fin b => if Rlt_dec b 0 then NInf else PInf
  | NInf, Fin b => if Rlt_dec b 0 then PInf else NInf
  | _, _ => NaN
  end.

(** [np.log]: NaN below zero, [-inf] at zero. *)
Definition flog (x : float) : float :=
  match x with
  | Fin r =>
      if Rlt_dec 0 r then Fin (ln r)
      else if Rlt_dec r 0 then NaN else NInf
  | PInf => PInf
  | NInf | NaN => NaN
  end.

Definition fabs (x : float) : float :=
  match x with
  | Fin r => Fin (Rabs r)
  | PInf | NInf => PInf
  | NaN => NaN
  end.

(** [x < y]; every comparison with NaN is false. *)
Definition flt (x y : float) : bool :=
  match x, y with
  | NaN, _ | _, NaN => false
  | Fin a, Fin b => if Rlt_dec a b then true else false
  | NInf, NInf => false
  | NInf, _ => true
  | _, PInf => match x with PInf => false | _ => true end
  | _, _ => false
  end.

(** [x == y] on floats (false on NaN). *)
Definition feqb (x y : float) : bool :=
  match x, y with
  | Fin a, Fin b => if Req_dec_T a b then true else false
  | PInf, PInf | NInf, NInf => true
  | _, _ => false
  end.

Definition of_nat (n : nat) : float := Fin (INR n).

(** [sum_{i < n} f i], accumulated from index 0. *)
Fixpoint fsum_n (n : nat) (f : nat -> float) : float :=
  match n with
  | O => Fin 0
  | S k => fadd (fsum_n k f) (f k)
  end.

Definition fsum (l : list float) : float :=
  fold_left fadd l (Fin 0).

(** The same sum on reals, for the statements. *)
Fixpoint Rsum_n (n : nat) (f : nat -> R) : R :=
  match n with
  | O => 0%R
  | S k => (Rsum_n k f + f k)%R
  end.

(** One left-to-right scan over the non-empty vector [x :: l], shared by
    [np.argmin]/[np.min] and [np.argmax]/[np.max]: the first NaN wins,
    otherwise the first value no other value is better than.  [best] is
    the pair (index, value) found so far. *)
Fixpoint scan (better : float -> float -> bool) (l : list float) (i : nat)
    (best : nat * float) : nat * float :=
  match l with
  | [] => best
  | y :: l' =>
      let best' :=
        if isnan (snd best) then best
        else if isnan y || better y (snd best) then (i, y) else best in
      scan better l' (S i) best'
  end.

Definition min_scan := scan flt.
Definition max_scan := scan (fun y b => flt b y).

(** [np.argmax]: first index of the largest value (first NaN if any). *)
Definition argmax (l : list float) : option nat :=
  match l with
  | [] => None
  | x :: l' => Some (fst (max_scan l' 1 (0, x)))
  end.

(* ================================================================== *)
(** * Dense arrays *)
(* ================================================================== *)

Record array2 : Type := mk2 {
  rows : nat;
  cols : nat;
  at2 : nat -> nat -> float
}.

Record array3 : Type := mk3 {
  dim0 : nat;
  dim1 : nat;
  dim2 : nat;
  at3 : nat -> nat -> nat -> float
}.

(** Row [i] of a matrix with at least one column, scanned for its
    minimum. *)
Definition scan_row (a : array2) (i : nat) : nat * float :=
  min_scan (map (at2 a i) (seq 1 (cols a - 1))) 1 (0, at2 a i 0).

(** [np.argmin(a, axis=1)] and [np.min(a, axis=1)]; [None] stands for the
    ValueError numpy raises when the reduced axis has length zero. *)
Definition argmin_axis1 (a : array2) : option (list nat) :=
  if cols a =? 0 then None
  else Some (map (fun i => fst (scan_row a i)) (seq 0 (rows a))).

Definition min_axis1 (a : array2) : option (list float) :=
  if cols a =? 0 then None
  else Some (map (fun i => snd (scan_row a i)) (seq 0 (rows a))).

(** [np.dot] of two matrices. *)
Definition dot (a b : array2) : array2 :=
  mk2 (rows a) (cols b)
      (fun i j => fsum_n (cols a) (fun t => fmul (at2 a i t) (at2 b t j))).

Definition ones (m n : nat) : array2 := mk2 m n (fun _ _ => Fin 1).

(** [a + x] and [a / b] elementwise ([x] a scalar). *)
Definition add_scalar2 (a : array2) (x : float) : array2 :=
  mk2 (rows a) (cols a) (fun i j => fadd (at2 a i j) x).

Definition div2 (a b : array2) : array2 :=
  mk2 (rows a) (cols a) (fun i j => fdiv (at2 a i j) (at2 b i j)).

(** [a.mean()] *)
Definition mean2 (a : array2) : float :=
  fdiv (fsum_n (rows a) (fun i => fsum_n (cols a) (fun j => at2 a i j)))
       (of_nat (rows a * cols a)).

Definition mean3 (a : array3) : float :=
  fdiv (fsum_n (dim0 a) (fun i =>
          fsum_n (dim1 a) (fun j => fsum_n (dim2 a) (fun k => at3 a i j k))))
       (of_nat (dim0 a * dim1 a * dim2 a)).

(** [np.eye(n_clusters)[cluster_idx]]: one row per element, a one in the
    column of its label.  numpy raises IndexError on a label that is not
    below [n_clusters]. *)
Definition onehot (n_clusters : nat) (cluster_idx : list nat) : array2 :=
  mk2 (length cluster_idx) n_clusters
      (fun i j => if nth i cluster_idx 0 =? j then Fin 1 else Fin 0).

Definition eye_rows (n_clusters : nat) (cluster_idx : list nat)
  : option array2 :=
  if forallb (fun c => c <? n_clusters) cluster_idx
  then Some (onehot n_clusters cluster_idx)
  else None.

(** [np.mod(i, n)] on non-negative integers; numpy returns 0 (and warns)
    when [n] is 0. *)
Definition np_mod (i n : nat) : nat :=
  if n =? 0 then 0 else i mod n.

(** [np.bincount(labels, minlength=minlength)] *)
Definition bincount (labels : list nat) (minlength : nat) : list nat :=
  let len := match labels with
             | [] => minlength
             | _ => Nat.max minlength (S (list_max labels))
             end in
  map (fun c => count_occ Nat.eq_dec labels c) (seq 0 len).

(** [a.transpose(idx)] for the two index orders the code uses. *)
Definition transpose_102 (a : array3) : array3 :=
  mk3 (dim1 a) (dim0 a) (dim2 a) (fun i j k => at3 a j i k).

Definition transpose_201 (a : array3) : array3 :=
  mk3 (dim2 a) (dim0 a) (dim1 a) (fun i j k => at3 a j k i).

Definition transpose2 (a : array2) : array2 :=
  mk2 (cols a) (rows a) (fun i j => at2 a j i).

(** Embedding of real-valued data. *)
Definition lift3 (d m n : nat) (z : nat -> nat -> nat -> R) : array3 :=
  mk3 d m n (fun i j k => Fin (z i j k)).

Definition lift2 (m n : nat) (z : nat -> nat -> R) : array2 :=
  mk2 m n (fun i j => Fin (z i j)).

(* ================================================================== *)
(** * cgc/triclustering_numpy.py *)
(* ================================================================== *)

Module TriclusteringNumpy.

(** [_distance(Z, Y, epsilon)]; [Z] has shape (i, j, k) and [Y] has shape
    (l, j, k), the result has shape (i, l). *)
Definition _distance (Z Y : array3) (epsilon : float) : array2 :=
  (* Y = Y + epsilon *)
  let Y := mk3 (dim0 Y) (dim1 Y) (dim2 Y)
               (fun l j k => fadd (at3 Y l j k) epsilon) in
  (* Y.sum(axis=(1, 2)) *)
  let Ysum := fun l =>
    fsum_n (dim1 Y) (fun j => fsum_n (dim2 Y) (fun k => at3 Y l j k)) in
  (* np.einsum('ijk,ljk->il', Z, np.log(Y)) *)
  let ZlogY := fun i l =>
    fsum_n (dim1 Z) (fun j =>
      fsum_n (dim2 Z) (fun k => fmul (at3 Z i j k) (flog (at3 Y l j k)))) in
  mk2 (dim0 Z) (dim0 Y) (fun i l => fsub (Ysum l) (ZlogY i l)).

(** [_initialize_clusters(n_el, n_clusters)]; [perm] is the permutation
    drawn by [np.random.permutation]. *)
Definition _initialize_clusters (perm : list nat -> list nat)
    (n_el n_clusters : nat) : list nat :=
  let cluster_idx := map (fun i => np_mod i n_clusters) (seq 0 n_el) in
  perm cluster_idx.

(** [_setup_cluster_matrix(n_clusters, cluster_idx)] *)
Definition _setup_cluster_matrix (n_clusters : nat) (cluster_idx : list nat)
  : option array2 :=
  eye_rows n_clusters cluster_idx.

(** The einsum contractions of the loop body, named by their subscripts. *)
Definition einsum_ij_ilm_jlm (B : array2) (Z : array3) : array3 :=
  mk3 (cols B) (dim1 Z) (dim2 Z)
      (fun j l m => fsum_n (rows B) (fun i => fmul (at2 B i j) (at3 Z i l m))).

Definition einsum_ij_kim_kjm (R : array2) (T : array3) : array3 :=
  mk3 (dim0 T) (cols R) (dim2 T)
      (fun k j m => fsum_n (rows R) (fun i => fmul (at2 R i j) (at3 T k i m))).

Definition einsum_ij_kli_klj (C : array2) (T : array3) : array3 :=
  mk3 (dim0 T) (dim1 T) (cols C)
      (fun k l j => fsum_n (rows C) (fun i => fmul (at2 C i j) (at3 T k l i))).

Definition einsum_ij_jkl_ikl (B : array2) (T : array3) : array3 :=
  mk3 (rows B) (dim1 T) (dim2 T)
      (fun i k l => fsum_n (cols B) (fun j => fmul (at2 B i j) (at3 T j k l))).

Definition einsum_ij_klj_kli (C : array2) (T : array3) : array3 :=
  mk3 (dim0 T) (dim1 T) (rows C)
      (fun k l i => fsum_n (cols C) (fun j => fmul (at2 C i j) (at3 T k l j))).

Definition einsum_ij_kjl_kil (R : array2) (T : array3) : array3 :=
  mk3 (dim0 T) (rows R) (dim2 T)
      (fun k i l => fsum_n (cols R) (fun j => fmul (at2 R i j) (at3 T k j l))).

(** [nel_clusters]: the products of the three bin counts,
    einsum('i,j->ij') followed by einsum('i,jk->ijk'). *)
Definition nel_clusters (nel_bnd nel_row nel_col : list nat)
  : nat -> nat -> nat -> nat :=
  fun i j k => nth i nel_bnd 0 * (nth j nel_row 0 * nth k nel_col 0).

(** Lines 63-87 of the loop body: the tri-cluster averages. *)
Definition block_averages (Z : array3) (B R C : array2)
    (nel : nat -> nat -> nat -> nat) (Gavg epsilon : float) : array3 :=
  let TriCavg := einsum_ij_ilm_jlm B Z in
  let TriCavg := einsum_ij_kim_kjm R TriCavg in
  let TriCavg := einsum_ij_kli_klj C TriCavg in
  mk3 (dim0 TriCavg) (dim1 TriCavg) (dim2 TriCavg)
      (fun i j k =>
         fdiv (fadd (at3 TriCavg i j k) (fmul Gavg epsilon))
              (fadd (of_nat (nel i j k)) epsilon)).

(** What one pass of the loop body produces. *)
Record pass : Type := mk_pass {
  p_row : list nat;
  p_col : list nat;
  p_bnd : list nat;
  p_d_row : array2;
  p_d_col : array2;
  p_d_bnd : array2;
  p_e : float
}.

(** The body of the while loop, up to the new error value.  [None] is a
    numpy exception: a label outside its range (IndexError in
    [_setup_cluster_matrix]), a label vector whose length differs from the
    axis of [Z] (ValueError in einsum), or no cluster at all on an axis
    (ValueError in argmin). *)
Definition loop_body (Z : array3)
    (nclusters_row nclusters_col nclusters_bnd : nat)
    (epsilon Gavg : float)
    (row_clusters col_clusters bnd_clusters : list nat) : option pass :=
  let nel_row_clusters := bincount row_clusters nclusters_row in
  let nel_col_clusters := bincount col_clusters nclusters_col in
  let nel_bnd_clusters := bincount bnd_clusters nclusters_bnd in
  let nel := nel_clusters nel_bnd_clusters nel_row_clusters
                          nel_col_clusters in
  match _setup_cluster_matrix nclusters_row row_clusters,
        _setup_cluster_matrix nclusters_col col_clusters,
        _setup_cluster_matrix nclusters_bnd bnd_clusters with
  | Some R, Some C, Some B =>
      if (rows B =? dim0 Z) && (rows R =? dim1 Z) && (rows C =? dim2 Z)
      then
        let TriCavg := block_averages Z B R C nel Gavg epsilon in
        (* row assignment *)
        let avg_unpck := einsum_ij_jkl_ikl B TriCavg in
        let avg_unpck := einsum_ij_klj_kli C avg_unpck in
        let d_row := _distance (transpose_102 Z) (transpose_102 avg_unpck)
                               epsilon in
        (* column assignment *)
        let avg_unpck := einsum_ij_jkl_ikl B TriCavg in
        let avg_unpck := einsum_ij_kjl_kil R avg_unpck in
        let d_col := _distance (transpose_201 Z) (transpose_201 avg_unpck)
                               epsilon in
        (* band assignment *)
        let avg_unpck := einsum_ij_kjl_kil R TriCavg in
        let avg_unpck := einsum_ij_klj_kli C avg_unpck in
        let d_bnd := _distance Z avg_unpck epsilon in
        match argmin_axis1 d_row, argmin_axis1 d_col, argmin_axis1 d_bnd,
              min_axis1 d_bnd with
        | Some row, Some col, Some bnd, Some minvals =>
            (* e = np.sum(np.power(minvals, 1)) *)
            Some (mk_pass row col bnd d_row d_col d_bnd (fsum minvals))
        | _, _, _, _ => None
        end
      else None
  | _, _, _ => None
  end.

(** The variables of the while loop. *)
Record state : Type := mk_state {
  converged : bool;
  s : nat;
  row_clusters : list nat;
  col_clusters : list nat;
  bnd_clusters : list nat;
  e : float;
  old_e : float
}.

Definition iteration (Z : array3) (nr nc nb : nat) (errobj epsilon Gavg : float)
    (st : state) : option state :=
  match loop_body Z nr nc nb epsilon Gavg
                  (row_clusters st) (col_clusters st) (bnd_clusters st) with
  | None => None
  | Some p =>
      let old_e := e st in
      let e := p_e p in
      Some (mk_state (flt (fabs (fsub e old_e)) errobj)   (* converged *)
                     (S (s st))
                     (p_row p) (p_col p) (p_bnd p) e old_e)
  end.

(** [while (not converged) & (s < niters)]: [fuel] is [niters - s]. *)
Fixpoint while_loop (Z : array3) (nr nc nb : nat)
    (errobj epsilon Gavg : float) (fuel : nat) (st : state) : option state :=
  match fuel with
  | O => Some st
  | S fuel' =>
      if converged st then Some st
      else match iteration Z nr nc nb errobj epsilon Gavg st with
           | None => None
           | Some st' => while_loop Z nr nc nb errobj epsilon Gavg fuel' st'
           end
  end.

(** The three draws of [np.random.permutation]. *)
Record rng : Type := mk_rng {
  perm_row : list nat -> list nat;
  perm_col : list nat -> list nat;
  perm_bnd : list nat -> list nat
}.

Definition initial_state (Z : array3) (nr nc nb : nat) (errobj : float)
    (row_clusters_init col_clusters_init bnd_clusters_init
       : option (list nat)) (g : rng) : state :=
  let row_clusters := match row_clusters_init with
                      | Some r => r
                      | None => _initialize_clusters (perm_row g) (dim1 Z) nr
                      end in
  let col_clusters := match col_clusters_init with
                      | Some c => c
                      | None => _initialize_clusters (perm_col g) (dim2 Z) nc
                      end in
  let bnd_clusters := match bnd_clusters_init with
                      | Some b => b
                      | None => _initialize_clusters (perm_bnd g) (dim0 Z) nb
                      end in
  (* e, old_e = 2 * errobj, 0 ; s = 0 ; converged = False *)
  mk_state false 0 row_clusters col_clusters bnd_clusters
           (fmul (Fin 2) errobj) (Fin 0).

(** [triclustering]: returns
    (converged, s, row_clusters, col_clusters, bnd_clusters, e). *)
Definition triclustering (Z : array3)
    (nclusters_row nclusters_col nclusters_bnd : nat)
    (errobj : float) (niters : nat) (epsilon : float)
    (row_clusters_init col_clusters_init bnd_clusters_init
       : option (list nat)) (g : rng)
  : option (bool * nat * list nat * list nat * list nat * float) :=
  let Gavg := mean3 Z in
  let st0 := initial_state Z nclusters_row nclusters_col nclusters_bnd errobj
               row_clusters_init col_clusters_init bnd_clusters_init g in
  match while_loop Z nclusters_row nclusters_col nclusters_bnd
                   errobj epsilon Gavg niters st0 with
  | None => None
  | Some st =>
      Some (converged st, s st, row_clusters st, col_clusters st,
            bnd_clusters st, e st)
  end.

End TriclusteringNumpy.

(* ================================================================== *)
(** * geoclustering/coclustering_dask.py *)
(* ================================================================== *)

Module CoclusteringDask.

(** [_distance(Z, X, Y, epsilon)] *)
Definition _distance (Z X Y : array2) (epsilon : float) : array2 :=
  let Y := add_scalar2 Y epsilon in
  let logY := mk2 (rows Y) (cols Y) (fun i j => flog (at2 Y i j)) in
  let XY := dot X Y in
  let ZlogY := dot Z logY in
  mk2 (rows XY) (cols XY) (fun i j => fsub (at2 XY i j) (at2 ZlogY i j)).

(** [_initialize_clusters(n_el, n_clusters)]: here the occupancy matrix
    itself is returned; [perm] is the draw of [da.random.permutation]. *)
Definition _initialize_clusters (perm : list nat -> list nat)
    (n_el n_clusters : nat) : option array2 :=
  let cluster_idx := map (fun i => np_mod i n_clusters) (seq 0 n_el) in
  let cluster_idx := perm cluster_idx in
  eye_rows n_clusters cluster_idx.

(** The variables of the while loop; [row_clusters] and [col_clusters]
    are unbound until the body has run once. *)
Record state : Type := mk_state {
  converged : bool;
  s : nat;
  R : array2;
  C : array2;
  row_clusters : option (list nat);
  col_clusters : option (list nat);
  e : float;
  old_e : float
}.

(** Line 51-52: the co-cluster averages. *)
Definition block_averages (Z R C : array2) (Gavg epsilon : float) : array2 :=
  let m := rows Z in
  let n := cols Z in
  div2 (add_scalar2 (dot (dot (transpose2 R) Z) C) (fmul Gavg epsilon))
       (add_scalar2 (dot (dot (transpose2 R) (ones m n)) C) epsilon).

Definition iteration (Z : array2) (k l : nat) (errobj epsilon Gavg : float)
    (st : state) : option state :=
  let m := rows Z in
  let n := cols Z in
  if (rows (R st) =? m) && (rows (C st) =? n) then
    let CoCavg := block_averages Z (R st) (C st) Gavg epsilon in
    let d_row := _distance Z (ones m n) (dot (C st) (transpose2 CoCavg))
                           epsilon in
    match argmin_axis1 d_row with
    | None => None
    | Some row_clusters =>
        match eye_rows k row_clusters with
        | None => None
        | Some R =>
            let d_col := _distance (transpose2 Z) (ones n m) (dot R CoCavg)
                                   epsilon in
            match argmin_axis1 d_col, min_axis1 d_col with
            | Some col_clusters, Some minvals =>
                match eye_rows l col_clusters with
                | None => None
                | Some C =>
                    let old_e := e st in
                    let e := fsum minvals in
                    Some (mk_state (flt (fabs (fsub e old_e)) errobj)
                                   (S (s st)) R C
                                   (Some row_clusters) (Some col_clusters)
                                   e old_e)
                end
            | _, _ => None
            end
        end
    end
  else None.

Fixpoint while_loop (Z : array2) (k l : nat)
    (errobj epsilon Gavg : float) (fuel : nat) (st : state) : option state :=
  match fuel with
  | O => Some st
  | S fuel' =>
      if converged st then Some st
      else match iteration Z k l errobj epsilon Gavg st with
           | None => None
           | Some st' => while_loop Z k l errobj epsilon Gavg fuel' st'
           end
  end.

(** [coclustering(Z, k, l, errobj, niters, epsilon)]: returns
    (converged, s, row_clusters, col_clusters, e).  When the loop body
    never runs the names [row_clusters] and [col_clusters] are unbound at
    the return statement, which raises: [None]. *)
Definition coclustering (Z : array2) (k l : nat) (errobj : float)
    (niters : nat) (epsilon : float)
    (perm_row perm_col : list nat -> list nat)
  : option (bool * nat * list nat * list nat * float) :=
  let m := rows Z in
  let n := cols Z in
  match _initialize_clusters perm_row m k,
        _initialize_clusters perm_col n l with
  | Some R0, Some C0 =>
      let st0 := mk_state false 0 R0 C0 None None
                          (fmul (Fin 2) errobj) (Fin 0) in
      let Gavg := mean2 Z in
      match while_loop Z k l errobj epsilon Gavg niters st0 with
      | Some st =>
          match row_clusters st, col_clusters st with
          | Some row, Some col => Some (converged st, s st, row, col, e st)
          | _, _ => None
          end
      | None => None
      end
  | _, _ => None
  end.

End CoclusteringDask.

(* ================================================================== *)
(** * cgc/coclustering.py *)
(* ================================================================== *)

(** Python objects live in a store and are referred to by address, so that
    two names for one array are one entry of the store. *)
Module CgcCoclustering.

Definition addr := nat.

(** [CoclusteringResults]: the attributes set by its [__init__] (the input
    parameters copied by [Results.__init__] play no role below). *)
Record CoclusteringResults : Type := mk_results {
  row_clusters : option addr;     (* None, or a reference to an array *)
  col_clusters : option addr;
  error : option float;
  nruns_completed : nat;
  nruns_converged : nat
}.

Inductive pyobj : Type :=
| NdArray (data : list nat)
| ResultsObj (r : CoclusteringResults).

Definition store := list pyobj.

Definition alloc (st : store) (o : pyobj) : store * addr :=
  (st ++ [o], length st).

Definition load (st : store) (a : addr) : option pyobj := nth_error st a.

Fixpoint put (st : store) (a : addr) (o : pyobj) : store :=
  match st, a with
  | [], _ => []
  | _ :: st', O => o :: st'
  | x :: st', S a' => x :: put st' a' o
  end.

Definition load_results (st : store) (a : addr)
  : option CoclusteringResults :=
  match load st a with
  | Some (ResultsObj r) => Some r
  | _ => None
  end.

Definition load_array (st : store) (a : addr) : option (list nat) :=
  match load st a with
  | Some (NdArray d) => Some d
  | _ => None
  end.

(** The object built by the constructor of [CoclusteringResults]. *)
Definition new_results : CoclusteringResults :=
  mk_results None None None 0 0.

(** The attributes of a [Coclustering] object that the runners read. *)
Record Coclustering : Type := mk_self {
  nruns : nat;
  results : addr        (* self.results *)
}.

(** [Coclustering.__init__]: [ndim] and [shape] describe [Z]; the two
    asserts raise AssertionError ([None]). *)
Definition __init__ (st : store) (Z_ndim : nat) (Z_shape : nat * nat)
    (nruns : nat) (row_clusters_init col_clusters_init : option (list nat))
  : option (store * Coclustering) :=
  let (st, res) := alloc st (ResultsObj new_results) in
  if negb (Z_ndim =? 2) then None
  else
    match row_clusters_init, col_clusters_init with
    | Some r, Some c =>
        if negb (nruns =? 1) then None
        else if negb ((fst Z_shape =? length r) && (snd Z_shape =? length c))
        then None
        else Some (st, mk_self nruns res)
    | _, _ => Some (st, mk_self nruns res)
    end.

(** What a finished future yields: (converged, niters, row, col, e); the
    two label arrays are objects of the store. *)
Record RunResult : Type := mk_run {
  r_converged : bool;
  r_niters : nat;
  r_row : addr;
  r_col : addr;
  r_e : float
}.

(** The body of the [as_completed] loop (lines 151-164).  The calls to the
    logger and to [results.write] do not touch the objects modelled here. *)
Definition absorb (self : Coclustering) (st : store) (run : RunResult)
  : option store :=
  match load_results st (results self) with
  | None => None
  | Some r =>
      let r := mk_results (row_clusters r) (col_clusters r) (error r)
                          (S (nruns_completed r)) (nruns_converged r) in
      let r := if r_converged run
               then mk_results (row_clusters r) (col_clusters r) (error r)
                               (nruns_completed r) (S (nruns_converged r))
               else r in
      let better := match error r with
                    | None => true
                    | Some err => flt (r_e run) err
                    end in
      let r := if better
               then mk_results (Some (r_row run)) (Some (r_col run))
                               (Some (r_e run))
                               (nruns_completed r) (nruns_converged r)
               else r in
      Some (put st (results self) (ResultsObj r))
  end.

Fixpoint absorb_all (self : Coclustering) (st : store)
    (completed : list RunResult) : option store :=
  match completed with
  | [] => Some st
  | run :: rest =>
      match absorb self st run with
      | None => None
      | Some st' => absorb_all self st' rest
      end
  end.

(** [copy.copy(obj)]: a new object with the same attribute values. *)
Definition copy_copy (st : store) (a : addr) : option (store * addr) :=
  match load st a with
  | Some o => Some (alloc st o)
  | None => None
  end.

(** [run_with_threads]: [completed] lists the results of the [nruns]
    futures in the order [as_completed] yields them.  Returns the store
    and the address of the returned object. *)
Definition run_with_threads (self : Coclustering) (st : store)
    (completed : list RunResult) : option (store * addr) :=
  match absorb_all self st completed with
  | None => None
  | Some st' => copy_copy st' (results self)
  end.

(** A run on dask returns lazy label arrays; [row.compute()] builds a new
    numpy array. *)
Record DaskRunResult : Type := mk_drun {
  d_converged : bool;
  d_niters : nat;
  d_row : list nat;
  d_col : list nat;
  d_e : float
}.

Definition absorb_dask (self : Coclustering) (st : store)
    (run : DaskRunResult) : option store :=
  match load_results st (results self) with
  | None => None
  | Some r =>
      let r := mk_results (row_clusters r) (col_clusters r) (error r)
                          (S (nruns_completed r)) (nruns_converged r) in
      let r := if d_converged run
               then mk_results (row_clusters r) (col_clusters r) (error r)
                               (nruns_completed r) (S (nruns_converged r))
               else r in
      let better := match error r with
                    | None => true
                    | Some err => flt (d_e run) err
                    end in
      if better then
        let (st, row) := alloc st (NdArray (d_row run)) in
        let (st, col) := alloc st (NdArray (d_col run)) in
        let r := mk_results (Some row) (Some col) (Some (d_e run))
                            (nruns_completed r) (nruns_converged r) in
        Some (put st (results self) (ResultsObj r))
      else Some (put st (results self) (ResultsObj r))
  end.

Fixpoint absorb_all_dask (self : Coclustering) (st : store)
    (runs : list DaskRunResult) : option store :=
  match runs with
  | [] => Some st
  | run :: rest =>
      match absorb_dask self st run with
      | None => None
      | Some st' => absorb_all_dask self st' rest
      end
  end.

(** [_dask_runs_memory] (the runs one after the other) and
    [_dask_runs_performance] (the runs in completion order) process a
    result in the same way. *)
Definition _dask_runs_memory := absorb_all_dask.
Definition _dask_runs_performance := absorb_all_dask.

Definition run_with_dask (self : Coclustering) (st : store)
    (low_memory : bool) (runs : list DaskRunResult)
  : option (store * addr) :=
  let done := if low_memory then _dask_runs_memory self st runs
              else _dask_runs_performance self st runs in
  match done with
  | None => None
  | Some st' => copy_copy st' (results self)
  end.

(** What the caller can do with the returned object [ret]. *)
Inductive mutation : Type :=
| SetRowClusters (v : option addr)   (* ret.row_clusters = v *)
| SetColClusters (v : option addr)   (* ret.col_clusters = v *)
| SetError (v : option float)        (* ret.error = v *)
| SetCompleted (v : nat)             (* ret.nruns_completed = v *)
| SetConverged (v : nat)             (* ret.nruns_converged = v *)
| StoreRow (i : nat) (v : nat)       (* ret.row_clusters[i] = v *)
| StoreCol (i : nat) (v : nat).      (* ret.col_clusters[i] = v *)

Fixpoint list_set (l : list nat) (i : nat) (v : nat) : list nat :=
  match l, i with
  | [], _ => []
  | _ :: l', O => v :: l'
  | x :: l', S i' => x :: list_set l' i' v
  end.

(** An item assignment writes into the array object the attribute refers
    to (IndexError out of range, TypeError on None: [None]). *)
Definition store_item (st : store) (a : option addr) (i v : nat)
  : option store :=
  match a with
  | None => None
  | Some a =>
      match load_array st a with
      | Some d =>
          if i <? length d then Some (put st a (NdArray (list_set d i v)))
          else None
      | None => None
      end
  end.

Definition mutate (st : store) (ret : addr) (mu : mutation) : option store :=
  match load_results st ret with
  | None => None
  | Some r =>
      let set r' := Some (put st ret (ResultsObj r')) in
      match mu with
      | SetRowClusters v =>
          set (mk_results v (col_clusters r) (error r)
                          (nruns_completed r) (nruns_converged r))
      | SetColClusters v =>
          set (mk_results (row_clusters r) v (error r)
                          (nruns_completed r) (nruns_converged r))
      | SetError v =>
          set (mk_results (row_clusters r) (col_clusters r) v
                          (nruns_completed r) (nruns_converged r))
      | SetCompleted v =>
          set (mk_results (row_clusters r) (col_clusters r) (error r)
                          v (nruns_converged r))
      | SetConverged v =>
          set (mk_results (row_clusters r) (col_clusters r) (error r)
                          (nruns_completed r) v)
      | StoreRow i v => store_item st (row_clusters r) i v
      | StoreCol i v => store_item st (col_clusters r) i v
      end
  end.

(** The results state as a reader of [self.results] sees it: the
    attributes, with the label arrays by content. *)
Definition observe (st : store) (a : addr)
  : option (option (list nat) * option (list nat) * option float
            * nat * nat) :=
  match load_results st a with
  | None => None
  | Some r =>
      let deref o := match o with
                     | None => None
                     | Some p => load_array st p
                     end in
      Some (deref (row_clusters r), deref (col_clusters r), error r,
            nruns_completed r, nruns_converged r)
  end.

End CgcCoclustering.

(* ================================================================== *)
(** * geoclustering/coclustering.py *)
(* ================================================================== *)

Module GeoCoclustering.

(** The attributes of [self] written by the runners. *)
Record Coclustering : Type := mk_self {
  row_clusters : option (list nat);
  col_clusters : option (list nat);
  error : option float
}.

(** (converged, niters, row, col, e) *)
Record RunResult : Type := mk_run {
  r_converged : bool;
  r_niters : nat;
  r_row : list nat;
  r_col : list nat;
  r_e : float
}.

(** The locals [row_min, col_min, e_min]. *)
Definition best : Type := option (list nat) * option (list nat) * float.

(** row_min, col_min, e_min = None, None, 0. *)
Definition best_init : best := (None, None, Fin 0).

(** if e < e_min: row_min, col_min, e_min = row, col, e *)
Definition keep_best (b : best) (run : RunResult) : best :=
  let '(row_min, col_min, e_min) := b in
  if flt (r_e run) e_min
  then (Some (r_row run), Some (r_col run), r_e run)
  else b.

(** [run_with_threads]: [completed] are the futures' results in
    completion order. *)
Definition run_with_threads (completed : list RunResult) : Coclustering :=
  let '(row_min, col_min, e_min) :=
    fold_left keep_best completed best_init in
  mk_self row_min col_min (Some e_min).

(** [_dask_runs_memory]: [row_min.compute()] raises AttributeError when
    [row_min] is still None. *)
Definition _dask_runs_memory (runs : list RunResult) : option Coclustering :=
  let '(row_min, col_min, e_min) := fold_left keep_best runs best_init in
  match row_min, col_min with
  | Some row, Some col => Some (mk_self (Some row) (Some col) (Some e_min))
  | _, _ => None
  end.

(** The keyword arguments a runner adds to the positional ones. *)
Inductive keyword : Type :=
| run_on_worker.

(** What a future holds once it is done: the tuple the function returned,
    or, for a call that failed, the exception; for the latter
    [as_completed(..., with_results=True, raise_errors=False)] yields the
    triple (type, exception, traceback). *)
Inductive task_result : Type :=
| Returned (run : RunResult)
| Failed.

(** A call of [coclustering_dask.coclustering], whose parameters are
    (Z, k, l, errobj, niters, epsilon), all given by position: any further
    keyword argument is a TypeError.  [run] is what the function returns
    when the call is accepted. *)
Definition call_coclustering (kwargs : list keyword) (run : RunResult)
  : task_result :=
  match kwargs with
  | [] => Returned run
  | _ :: _ => Failed
  end.

(** converged, niters, row, col, e = result: ValueError when [result] is
    not a tuple of five. *)
Definition unpack5 (result : task_result) : option RunResult :=
  match result with
  | Returned run => Some run
  | Failed => None
  end.

(** The loop over the completed futures of [_dask_runs_performance]. *)
Fixpoint performance_loop (results : list task_result) (b : best)
  : option best :=
  match results with
  | [] => Some b
  | result :: rest =>
      match unpack5 result with
      | None => None
      | Some run => performance_loop rest (keep_best b run)
      end
  end.

(** [_dask_runs_performance]: every run is submitted with
    [run_on_worker=True] ([pure] is a keyword of [submit] itself). *)
Definition _dask_runs_performance (runs : list RunResult)
  : option Coclustering :=
  let futures := map (call_coclustering [run_on_worker]) runs in
  match performance_loop futures best_init with
  | None => None
  | Some (row_min, col_min, e_min) =>
      match row_min, col_min with
      | Some row, Some col =>
          Some (mk_self (Some row) (Some col) (Some e_min))
      | _, _ => None
      end
  end.

(** [run_with_dask]: the runs go to one of the two dask runners. *)
Definition run_with_dask (low_memory : bool) (runs : list RunResult)
  : option Coclustering :=
  if low_memory then _dask_runs_memory runs
  else _dask_runs_performance runs.

(** [run_serial]: raises NotImplementedError. *)
Definition run_serial : option Coclustering := None.

End GeoCoclustering.

(* ================================================================== *)
(** * cgc/kmeans.py *)
(* ================================================================== *)

Module Kmeans.

(** An N-dimensional array: its shape and its indexing function on
    multi-indices. *)
Record ndarray : Type := mk_nd {
  shape : list nat;
  get : list nat -> float
}.

(** All tuples with one component from each list, in row-major order
    ([np.meshgrid(..., indexing='ij')] flattened). *)
Fixpoint cartesian (axes : list (list nat)) : list (list nat) :=
  match axes with
  | [] => [[]]
  | ax :: rest => flat_map (fun i => map (cons i) (cartesian rest)) ax
  end.

(** The cells of a grid of the given shape, in row-major order. *)
Definition indices (shp : list nat) : list (list nat) :=
  cartesian (map (seq 0) shp).

Definition prod_nat (l : list nat) : nat := fold_right Nat.mul 1 l.

Fixpoint list_eqb (a b : list nat) : bool :=
  match a, b with
  | [], [] => true
  | x :: a', y :: b' => (x =? y) && list_eqb a' b'
  | _, _ => false
  end.

(** [list.sort()] on integers. *)
Fixpoint insert (x : Z) (l : list Z) : list Z :=
  match l with
  | [] => [x]
  | y :: l' => if (x <=? y)%Z then x :: l else y :: insert x l'
  end.

Fixpoint sort (l : list Z) : list Z :=
  match l with
  | [] => []
  | x :: l' => insert x (sort l')
  end.

(** [min(l)], [max(l)]: ValueError ([None]) on an empty sequence. *)
Definition zmin (l : list Z) : option Z :=
  match l with
  | [] => None
  | x :: l' => Some (fold_left Z.min l' x)
  end.

Definition zmax (l : list Z) : option Z :=
  match l with
  | [] => None
  | x :: l' => Some (fold_left Z.max l' x)
  end.

Definition nat_max (l : list nat) : option nat :=
  match l with
  | [] => None
  | x :: l' => Some (fold_left Nat.max l' x)
  end.

(** [list(range(a, b))] *)
Definition range (a b : Z) : list Z :=
  map (fun i => (a + Z.of_nat i)%Z) (seq 0 (Z.to_nat (b - a))).

(** What a call gives: one of the exceptions raised in [kmeans.py], or
    the value returned. *)
Inductive result (A : Type) : Type :=
| ValueError
| IndexError
| ZeroDivisionError
| Ok (a : A).
Arguments ValueError {A}.
Arguments IndexError {A}.
Arguments ZeroDivisionError {A}.
Arguments Ok {A} a.

(** The attributes of a [Kmeans] object; [warned] records that the
    constructor logged its warning. *)
Record Kmeans : Type := mk_kmeans {
  clusters : list (list nat);
  nclusters : list nat;
  kmean_max_iter : nat;
  k_range : list Z;
  Zdata : ndarray;
  warned : bool
}.

(** for cl, ncl, id in zip(clusters, nclusters, range(Z.ndim)):
      if not max(cl) < ncl: raise ValueError *)
Fixpoint labels_in_range (cls : list (list nat)) (ncls : list nat)
    (ndim : nat) : bool :=
  match cls, ncls, ndim with
  | cl :: cls', ncl :: ncls', S ndim' =>
      match nat_max cl with
      | None => false                      (* max() of an empty sequence *)
      | Some mx => (mx <? ncl) && labels_in_range cls' ncls' ndim'
      end
  | _, _, _ => true
  end.

(** [Kmeans.__init__].  [max_k_ratio] is given as the fraction
    [ratio_num / ratio_den]; the literal [0.8] of the warning test is the
    fraction 4/5. *)
Definition __init__ (Zarr : ndarray) (clusters : list (list nat))
    (nclusters : list nat) (k_range : option (list Z))
    (ratio_num : Z) (ratio_den : positive) (kmean_max_iter : nat)
  : result Kmeans :=
  let max_k := Z.of_nat (prod_nat nclusters) in
  let k_range := match k_range with
                 | None =>
                     range 2 (Z.quot (max_k * ratio_num) (Z.pos ratio_den))
                 | Some ks => ks
                 end in
  let k_range := sort k_range in
  if negb (length (shape Zarr) =? length clusters) then ValueError
  else if negb (list_eqb (shape Zarr) (map (@length nat) clusters))
  then ValueError
  else if negb (labels_in_range clusters nclusters (length (shape Zarr)))
  then ValueError
  else
    match zmin k_range, zmax k_range with
    | Some min_k, Some max_k_input =>
        if negb (2 <=? min_k)%Z then ValueError
        else if (max_k_input >? max_k)%Z then ValueError
        else
          let warn := (5 * max_k_input >? 4 * max_k)%Z in
          Ok (mk_kmeans clusters nclusters kmean_max_iter k_range Zarr warn)
    | _, _ => ValueError
    end.

(** The number of populated blocks: the combinations of labels that occur
    on each axis ([np.unique] per axis, as [compute] builds its mask). *)
Definition unique (l : list nat) : list nat := nodup Nat.eq_dec l.

Definition n_populated (clusters : list (list nat)) : nat :=
  prod_nat (map (fun cl => length (unique cl)) clusters).

(** ** _compute_statistic_measures *)

(** [a.reshape((-1, 6))] of a flat vector: ValueError when the length is
    not a multiple of six. *)
Fixpoint reshape6 (fuel : nat) (l : list float)
  : option (list (list float)) :=
  match l with
  | [] => Some []
  | _ =>
      match fuel with
      | O => None
      | S fuel' =>
          if length l <? 6 then None
          else match reshape6 fuel' (skipn 6 l) with
               | Some rest => Some (firstn 6 l :: rest)
               | None => None
               end
      end
  end.

Definition column (rws : list (list float)) (j : nat) : list float :=
  map (fun r => nth j r NaN) rws.

(** [a.min(axis=0)[j]] and [a.max(axis=0)[j]] for a matrix with at least
    one row. *)
Definition col_min (rws : list (list float)) (j : nat) : float :=
  match column rws j with
  | [] => NaN
  | x :: l => snd (min_scan l 1 (0, x))
  end.

Definition col_max (rws : list (list float)) (j : nat) : float :=
  match column rws j with
  | [] => NaN
  | x :: l => snd (max_scan l 1 (0, x))
  end.

(** [np.divide(a, b, out=np.zeros_like(a), where=(b != 0))] on one
    entry. *)
Definition divide_where (a b : float) : float :=
  if negb (feqb b (Fin 0)) then fdiv a b else Fin 0.

(** [features] is the array of shape (nclusters..., 6) filled by the six
    calls of [calculate_cluster_feature], one row of six statistics per
    block.  [stat_measures] keeps the entries that are not NaN, six to a
    row; [None] is the ValueError of [reshape]. *)
Definition stat_measures (features : list (list float))
  : option (list (list float)) :=
  let flat := filter (fun x => negb (isnan x)) (concat features) in
  reshape6 (length flat) flat.

(** Lines 241-246: the normalisation to [0, 1], column by column. *)
Definition normalize (stat : list (list float)) : list (list float) :=
  let minimum := col_min stat in
  let maximum := col_max stat in
  map (fun r =>
         map (fun j => divide_where (fsub (nth j r NaN) (minimum j))
                                    (fsub (maximum j) (minimum j)))
             (seq 0 6))
      stat.

(** The result is [stat_measures_norm]; [min] and [max] along axis 0
    raise ValueError on an array without rows. *)
Definition _compute_statistic_measures (features : list (list float))
  : option (list (list float)) :=
  match stat_measures features with
  | None => None
  | Some [] => None
  | Some stat => Some (normalize stat)
  end.

(** ** compute *)

Record KmeansResults : Type := mk_kresults {
  k_value : Z;
  labels : list nat -> option nat;        (* NaN is [None] *)
  measure_list : list float;
  cluster_averages : list nat -> float;
  tie_warning : bool
}.

Fixpoint lookup (c : list nat) (al : list (list nat * nat)) : option nat :=
  match al with
  | [] => None
  | (c', v) :: al' => if list_eqb c c' then Some v else lookup c al'
  end.

(** The mask of populated blocks: the cell is reached by the meshgrid of
    the labels present on each axis. *)
Fixpoint in_mask (clusters : list (list nat)) (c : list nat) : bool :=
  match clusters, c with
  | [], _ => true                (* trailing axes are taken whole *)
  | cl :: cls, ci :: c' => existsb (Nat.eqb ci) (unique cl) && in_mask cls c'
  | _ :: _, [] => false
  end.

(** [np.where(cl == v)[0]] *)
Definition where_eq (cl : list nat) (v : nat) : list nat :=
  filter (fun i => nth i cl 0 =? v) (seq 0 (length cl)).

(** The positions of the elements of one block ([cluster]) of [Z]. *)
Definition block_positions (clusters : list (list nat)) (cluster : list nat)
  : list (list nat) :=
  cartesian (map (fun p => where_eq (fst p) (snd p))
                 (combine clusters cluster)).

(** The inner loop over the blocks of one refined cluster:
    (label_sum, label_n_elements). *)
Definition accumulate (Zarr : ndarray) (clusters : list (list nat))
    (cells : list (list nat)) : float * nat :=
  fold_left
    (fun acc cluster =>
       let idx := map (fun p => where_eq (fst p) (snd p))
                      (combine clusters cluster) in
       let n := prod_nat (map (@length nat) idx) in
       let sm := fsum (map (get Zarr) (cartesian idx)) in
       (fadd (fst acc) sm, snd acc + n))
    cells (Fin 0, 0).

(** The loop [for label in range(k_value)]; a refined cluster without
    any block leaves the float [0.] and the int [0], whose quotient
    raises ZeroDivisionError ([None]). *)
Fixpoint averages_loop (Zarr : ndarray) (clusters : list (list nat))
    (nclusters : list nat) (km_labels : list nat -> option nat)
    (todo : list nat) (cluster_averages : list nat -> float)
  : option (list nat -> float) :=
  match todo with
  | [] => Some cluster_averages
  | label :: todo' =>
      let cells := filter (fun c => match km_labels c with
                                    | Some v => v =? label
                                    | None => false
                                    end)
                          (indices nclusters) in
      let '(label_sum, label_n_elements) :=
        accumulate Zarr clusters cells in
      match cells with
      | [] => None
      | _ =>
          let avg := fdiv label_sum (of_nat label_n_elements) in
          averages_loop Zarr clusters nclusters km_labels todo'
            (fun c => if existsb (list_eqb c) cells then avg
                      else cluster_averages c)
      end
  end.

Section Compute.

(** The external k-means capability.  [KMeans(n_clusters=k, max_iter=...)]
    is created without [random_state], so [fit] draws from numpy's global
    random generator: [G] is the state of that generator, a fit reads it
    and leaves it advanced.  A fit gives the labels
    ([kmean_cluster.labels_]) or raises ValueError ([None]), as it does
    when [X] has fewer rows than [n_clusters]. *)
Variable G : Type.
Variable KMeans_fit :
  G -> Z -> nat -> list (list float) -> option (list nat) * G.

(** [silhouette_score(X, labels)] draws nothing ([sample_size] is None);
    it raises ValueError ([None]) when the number of distinct labels is
    not between 2 and the number of rows minus one. *)
Variable silhouette_score : list (list float) -> list nat -> option float.

(** The statistics returned by [calculate_cluster_feature]. *)
Variable features : list (list float).

Definition count_eq (x : float) (l : list float) : nat :=
  length (filter (feqb x) l).

(** Lines 150-159: one k-means and one score per value of [k_range], in
    the order of the list; the pairs (labels, score) appended so far, or
    [None] when a fit or a score has raised. *)
Fixpoint kmeans_loop (g : G) (k_range : list Z) (max_iter : nat)
    (stat_measures_norm : list (list float))
  : option (list (list nat * float)) * G :=
  match k_range with
  | [] => (Some [], g)
  | k :: rest =>
      match KMeans_fit g k max_iter stat_measures_norm with
      | (None, g1) => (None, g1)
      | (Some labels_, g1) =>
          match silhouette_score stat_measures_norm labels_ with
          | None => (None, g1)
          | Some silhouette_avg =>
              match kmeans_loop g1 rest max_iter stat_measures_norm with
              | (None, g2) => (None, g2)
              | (Some fits, g2) =>
                  (Some ((labels_, silhouette_avg) :: fits), g2)
              end
          end
      end
  end.

(** Lines 160-172: the first index of the largest score; the result is
    (measure_list, k_value, labels, tie warning), or [None] for the
    ValueError of [np.argmax] on an empty array. *)
Definition pick_k (k_range : list Z) (fits : list (list nat * float))
  : option (list float * Z * list nat * bool) :=
  let silhouette_avg_list := map snd fits in
  let kmean_label_list := map fst fits in
  match argmax silhouette_avg_list with
  | None => None
  | Some idx_k =>
      let best := nth idx_k silhouette_avg_list NaN in
      let tie := 1 <? count_eq best silhouette_avg_list in
      Some (silhouette_avg_list, nth idx_k k_range 0%Z,
            nth idx_k kmean_label_list [], tie)
  end.

(** Lines 148-172: the search for the value k. *)
Definition select_k (g : G) (k_range : list Z) (max_iter : nat)
    (stat_measures_norm : list (list float))
  : option (list float * Z * list nat * bool) * G :=
  match kmeans_loop g k_range max_iter stat_measures_norm with
  | (None, g') => (None, g')
  | (Some fits, g') => (pick_k k_range fits, g')
  end.

(** [km_labels[mask] = labels] with [n_true] cells in the mask: one
    label for each cell, or a single label, which numpy broadcasts to all
    of them; any other number of labels is a ValueError. *)
Definition assign_masked (n_true : nat) (labels : list nat)
  : option (list nat) :=
  if length labels =? n_true then Some labels
  else if length labels =? 1 then Some (repeat (hd 0 labels) n_true)
  else None.

(** Lines 174-198: the lookup grid and the refined averages. *)
Definition refine (self : Kmeans) (k_value : Z) (labels : list nat)
  : result ((list nat -> option nat) * (list nat -> float)) :=
  let populated := filter (in_mask (clusters self))
                          (indices (nclusters self)) in
  (* mask[tuple(indices)]: IndexError on too many indices *)
  if length (nclusters self) <? length (clusters self) then IndexError
  else
    match assign_masked (length populated) labels with
    | None => ValueError
    | Some assigned =>
        let table := combine populated assigned in
        let km_labels := fun c => lookup c table in
        match averages_loop (Zdata self) (clusters self) (nclusters self)
                km_labels (seq 0 (Z.to_nat k_value)) (fun _ => NaN) with
        | None => ZeroDivisionError
        | Some avg => Ok (km_labels, avg)
        end
    end.

(** [compute], from the state [g] of the random generator: what it
    raises or returns, and the state it leaves. *)
Definition compute (self : Kmeans) (g : G) : result KmeansResults * G :=
  match _compute_statistic_measures features with
  | None => (ValueError, g)
  | Some stat_measures_norm =>
      match select_k g (k_range self) (kmean_max_iter self)
                     stat_measures_norm with
      | (None, g') => (ValueError, g')
      | (Some (measure_list, k_value, labels, tie), g') =>
          match refine self k_value labels with
          | Ok (km_labels, avg) =>
              (Ok (mk_kresults k_value km_labels measure_list avg tie), g')
          | ValueError => (ValueError, g')
          | IndexError => (IndexError, g')
          | ZeroDivisionError => (ZeroDivisionError, g')
          end
      end
  end.

End Compute.

End Kmeans.

(* ================================================================== *)
(** * Rounding and overflow *)
(* ================================================================== *)

(** The arithmetic of [fadd], [fmul], [fdiv] and [flog] is exact on
    finite values.  The operations of this module follow IEEE-754 on
    them: the exact result is rounded to a representable number by [rnd]
    (rounding with an unbounded exponent), and the operation overflows to
    an infinity when the rounded result lies beyond the largest finite
    number [fmax].  For the binary64 numbers of numpy, [rnd] rounds to
    the nearest number with a significand of 53 bits and [fmax] is
    [2^1024 - 2^971].  On the special values the operations are those
    above.  The kernels and the normalisation are given again on this
    arithmetic, for the properties that depend on the range of the
    numbers. *)
Module Fl.

Record format : Type := mk_format {
  rnd : R -> R;
  fmax : R
}.

(** The float an exact result becomes. *)
Definition fl (F : format) (r : R) : float :=
  if Rlt_dec (fmax F) (rnd F r) then PInf
  else if Rlt_dec (rnd F r) (- fmax F) then NInf
  else Fin (rnd F r).

Definition add (F : format) (x y : float) : float :=
  match x, y with
  | Fin a, Fin b => fl F (a + b)
  | _, _ => fadd x y
  end.

Definition sub (F : format) (x y : float) : float := add F x (fopp y).

Definition mul (F : format) (x y : float) : float :=
  match x, y with
  | Fin a, Fin b => fl F (a * b)
  | _, _ => fmul x y
  end.

Definition div (F : format) (x y : float) : float :=
  match x, y with
  | Fin a, Fin b =>
      if Req_dec_T b 0 then scale_inf a true else fl F (a / b)
  | _, _ => fdiv x y
  end.

Definition log (F : format) (x : float) : float :=
  match x with
  | Fin r => if Rlt_dec 0 r then fl F (ln r) else flog x
  | _ => flog x
  end.

(** The order in which a reduction adds its terms is the library's:
    numpy sums pairwise and in blocks, the routines behind [einsum] and
    [dot] in an order of their own.  A reduction is evaluated along a
    tree of additions, whose leaves are the indices of the terms. *)
Inductive order : Type :=
| Nothing                     (* no term: the sum is 0 *)
| Term (k : nat)
| Plus (a b : order).

Fixpoint leaves (o : order) : list nat :=
  match o with
  | Nothing => []
  | Term k => [k]
  | Plus a b => leaves a ++ leaves b
  end.

Fixpoint reduce (F : format) (f : nat -> float) (o : order) : float :=
  match o with
  | Nothing => Fin 0
  | Term k => f k
  | Plus a b => add F (reduce F f a) (reduce F f b)
  end.

(** [np.dot] of two matrices; [o i j] is the order of the additions for
    the entry (i, j). *)
Definition dot (F : format) (o : nat -> nat -> order) (a b : array2)
  : array2 :=
  mk2 (rows a) (cols b)
      (fun i j => reduce F (fun t => mul F (at2 a i t) (at2 b t j)) (o i j)).

Module TriclusteringNumpy.

(** [_distance(Z, Y, epsilon)] of [cgc/triclustering_numpy.py].  The two
    reductions run over the pairs (j, k), numbered [j * dim2 + k]; [oY l]
    and [oZ i l] are the orders of their additions. *)
Definition _distance (F : format) (oY : nat -> order)
    (oZ : nat -> nat -> order) (Z Y : array3) (epsilon : float) : array2 :=
  (* Y = Y + epsilon *)
  let Y := mk3 (dim0 Y) (dim1 Y) (dim2 Y)
               (fun l j k => add F (at3 Y l j k) epsilon) in
  (* Y.sum(axis=(1, 2)) *)
  let Ysum := fun l =>
    reduce F (fun t => at3 Y l (t / dim2 Y) (t mod dim2 Y)) (oY l) in
  (* np.einsum('ijk,ljk->il', Z, np.log(Y)) *)
  let ZlogY := fun i l =>
    reduce F (fun t => mul F (at3 Z i (t / dim2 Z) (t mod dim2 Z))
                             (log F (at3 Y l (t / dim2 Z) (t mod dim2 Z))))
           (oZ i l) in
  mk2 (dim0 Z) (dim0 Y) (fun i l => sub F (Ysum l) (ZlogY i l)).

End TriclusteringNumpy.

Module CoclusteringDask.

(** [_distance(Z, X, Y, epsilon)] of [geoclustering/coclustering_dask.py];
    [oX] and [oZ] are the orders of the additions of the two products. *)
Definition _distance (F : format) (oX oZ : nat -> nat -> order)
    (Z X Y : array2) (epsilon : float) : array2 :=
  let Y := mk2 (rows Y) (cols Y) (fun i j => add F (at2 Y i j) epsilon) in
  let logY := mk2 (rows Y) (cols Y) (fun i j => log F (at2 Y i j)) in
  let XY := dot F oX X Y in
  let ZlogY := dot F oZ Z logY in
  mk2 (rows XY) (cols XY) (fun i j => sub F (at2 XY i j) (at2 ZlogY i j)).

End CoclusteringDask.

Module Kmeans.

(** [np.divide(a, b, out=np.zeros_like(a), where=(b != 0))] on one
    entry. *)
Definition divide_where (F : format) (a b : float) : float :=
  if negb (feqb b (Fin 0)) then div F a b else Fin 0.

(** Lines 241-246 of [cgc/kmeans.py]: the normalisation to [0, 1], column
    by column. *)
Definition normalize (F : format) (stat : list (list float))
  : list (list float) :=
  let minimum := Kmeans.col_min stat in
  let maximum := Kmeans.col_max stat in
  map (fun r =>
         map (fun j => divide_where F (sub F (nth j r NaN) (minimum j))
                                      (sub F (maximum j) (minimum j)))
             (seq 0 6))
      stat.

(** [_compute_statistic_measures]: the result is [stat_measures_norm]. *)
Definition _compute_statistic_measures (F : format)
    (features : list (list float)) : option (list (list float)) :=
  match Kmeans.stat_measures features with
  | None => None
  | Some [] => None
  | Some stat => Some (normalize F stat)
  end.

End Kmeans.

End Fl.

(* ================================================================== *)
(** * Specification

    The notions the statements below are written with: sums and least
    values on reals, the blocks of a partition, the objective of the
    optimizers, the refined groups of the k-means stage. *)
(* ================================================================== *)

(** ** Orchestrator *)

Section OrchestratorSpec.
Import CgcCoclustering.

(** The results object holds the best of the runs seen so far. *)
Definition holds_best (r : CoclusteringResults) (seen : list RunResult)
  : Prop :=
  exists best_run,
    In best_run seen /\
    error r = Some (r_e best_run) /\
    row_clusters r = Some (r_row best_run) /\
    col_clusters r = Some (r_col best_run) /\
    forall run, In run seen -> flt (r_e run) (r_e best_run) = false.

(** The mutations that rebind an attribute of the returned object. *)
Definition is_rebinding (mu : mutation) : bool :=
  match mu with
  | StoreRow _ _ | StoreCol _ _ => false
  | _ => true
  end.

End OrchestratorSpec.

(** ** Scans, populated blocks and labellings *)

(** [(i, v)] is the first entry of [full] that no entry is better than. *)
Definition scanned (better : float -> float -> bool)
    (full : list float) (i : nat) (v : float) : Prop :=
  nth_error full i = Some v /\
  (forall y, In y full -> better y v = false) /\
  (forall j y, j < i -> nth_error full j = Some y -> better v y = true).

(** The blocks of the grid that hold data: every label of the cell is
    in use on its axis. *)
Definition populated (cls : list (list nat)) (ncls : list nat)
  : list (list nat) :=
  filter (Kmeans.in_mask cls) (Kmeans.indices ncls).

(** A labelling the k-means returns for [k] groups of [n] samples: one
    label per sample, the labels in use being exactly those below [k]. *)
Definition labelling (n : nat) (k : Z) (labels : list nat) : Prop :=
  length labels = n /\
  forall L, In L labels <-> L < Z.to_nat k.

(** ** Sums, counts and least values *)

(** A sum of natural numbers over [0 .. n - 1]. *)
Fixpoint Nsum_n (n : nat) (f : nat -> nat) : nat :=
  match n with
  | O => 0
  | S k => Nsum_n k f + f k
  end.

(** The indicator of a test, as the entry of an occupancy matrix. *)
Definition ind (c : bool) : R := if c then 1%R else 0%R.

(** The label of position [p] is [v]. *)
Definition lab_is (l : list nat) (v p : nat) : bool := nth p l 0 =? v.

(** The least of [f 0, ..., f (n - 1)], for [n >= 1]. *)
Definition Rmin_n (n : nat) (f : nat -> R) : R :=
  fold_left Rmin (map f (seq 1 (n - 1))) (f 0).

(** The sum of a list of reals. *)
Fixpoint Rsum_list (l : list R) : R :=
  match l with
  | [] => 0%R
  | x :: l' => (x + Rsum_list l')%R
  end.

(** ** Blocks and their averages *)

(** The element at position (b, r, c) belongs to the block (i, j, k). *)
Definition in_block3 (bnd row col : list nat) (i j k b r c : nat) : bool :=
  (nth b bnd 0 =? i) && (nth r row 0 =? j) && (nth c col 0 =? k).

(** The sum of the data elements whose axis labels match (i, j, k), and
    the count of such elements. *)
Definition block_sum3 (z : nat -> nat -> nat -> R) (bnd row col : list nat)
    (i j k : nat) : R :=
  Rsum_n (length bnd) (fun b => Rsum_n (length row) (fun r =>
    Rsum_n (length col) (fun c =>
      if in_block3 bnd row col i j k b r c then z b r c else 0%R))).

Definition block_count3 (bnd row col : list nat) (i j k : nat) : nat :=
  Nsum_n (length bnd) (fun b => Nsum_n (length row) (fun r =>
    Nsum_n (length col) (fun c =>
      if in_block3 bnd row col i j k b r c then 1 else 0))).

Definition in_block2 (row col : list nat) (i j r c : nat) : bool :=
  (nth r row 0 =? i) && (nth c col 0 =? j).

Definition block_sum2 (z : nat -> nat -> R) (row col : list nat)
    (i j : nat) : R :=
  Rsum_n (length row) (fun r => Rsum_n (length col) (fun c =>
    if in_block2 row col i j r c then z r c else 0%R)).

Definition block_count2 (row col : list nat) (i j : nat) : nat :=
  Nsum_n (length row) (fun r => Nsum_n (length col) (fun c =>
    if in_block2 row col i j r c then 1 else 0)).

(** The global mean of the data, on reals. *)
Definition Gavg3 (d m n : nat) (z : nat -> nat -> nat -> R) : R :=
  (Rsum_n d (fun i => Rsum_n m (fun j => Rsum_n n (fun k => z i j k)))
   / INR (d * m * n))%R.

Definition Gavg2 (m n : nat) (z : nat -> nat -> R) : R :=
  (Rsum_n m (fun i => Rsum_n n (fun j => z i j)) / INR (m * n))%R.

(** ** The objective of the optimizers *)

(** The block average in closed form, the divergence of the slice of
    band [b] from the profile of band cluster [l] (profiles looked up
    through the row and column labels), and the objective: the sum over
    the bands of the least divergence. *)
Definition avg3 (z : nat -> nat -> nat -> R) (bnd row col : list nat)
    (g e : R) (i j k : nat) : R :=
  ((block_sum3 z bnd row col i j k + g * e)
   / (INR (block_count3 bnd row col i j k) + e))%R.

Definition divergence_bnd (z : nat -> nat -> nat -> R)
    (bnd row col : list nat) (g e : R) (b l : nat) : R :=
  (Rsum_n (length row) (fun r => Rsum_n (length col) (fun c =>
     avg3 z bnd row col g e l (nth r row O) (nth c col O) + e))
   - Rsum_n (length row) (fun r => Rsum_n (length col) (fun c =>
       z b r c * ln (avg3 z bnd row col g e l (nth r row O) (nth c col O) + e))))%R.

Definition band_objective (z : nat -> nat -> nat -> R)
    (bnd row col : list nat) (nb : nat) (g e : R) : R :=
  Rsum_n (length bnd) (fun b => Rmin_n nb (divergence_bnd z bnd row col g e b)).

(** The co-cluster average in closed form, the divergence of column [c]
    from the profile of column cluster [j] (looked up through the row
    labels [row'] just reassigned), and the objective. *)
Definition avg2 (z : nat -> nat -> R) (row col : list nat) (g e : R)
    (i j : nat) : R :=
  ((block_sum2 z row col i j + g * e)
   / (INR (block_count2 row col i j) + e))%R.

Definition divergence_col (z : nat -> nat -> R) (row col row' : list nat)
    (g e : R) (c j : nat) : R :=
  (Rsum_n (length row) (fun r => avg2 z row col g e (nth r row' O) j + e)
   - Rsum_n (length row) (fun r =>
       z r c * ln (avg2 z row col g e (nth r row' O) j + e)))%R.

Definition col_objective (z : nat -> nat -> R) (row col row' : list nat)
    (l : nat) (g e : R) : R :=
  Rsum_n (length col) (fun c => Rmin_n l (divergence_col z row col row' g e c)).

(** ** Refined groups *)

(** The block of the element at position [p], the positions of all
    elements, the elements whose block is assigned to the refined group
    [L], and the arithmetic mean of these elements. *)
Definition block_of (cls : list (list nat)) (p : list nat) : list nat :=
  map (fun cp => nth (snd cp) (fst cp) 0) (combine cls p).

Definition positions (cls : list (list nat)) : list (list nat) :=
  Kmeans.indices (map (@length nat) cls).

Definition in_group (cls : list (list nat)) (km : list nat -> option nat)
    (L : nat) (p : list nat) : bool :=
  match km (block_of cls p) with
  | Some v => v =? L
  | None => false
  end.

Definition group_positions (cls : list (list nat))
    (km : list nat -> option nat) (L : nat) : list (list nat) :=
  filter (in_group cls km L) (positions cls).

Definition group_mean (z : list nat -> R) (cls : list (list nat))
    (km : list nat -> option nat) (L : nat) : R :=
  (Rsum_list (map z (group_positions cls km L))
   / INR (length (group_positions cls km L)))%R.

(** The blocks of the grid assigned to the refined group [label]. *)
Definition cells_of (ncls : list nat) (km : list nat -> option nat)
    (label : nat) : list (list nat) :=
  filter (fun c => match km c with
                   | Some v => v =? label
                   | None => false
                   end)
         (Kmeans.indices ncls).

(** The setup of the repository's tests of the refinement: the 5 x 4
    matrix of two row and two column clusters, on a grid of 3 x 2 blocks
    whose third row is empty; the k-means puts the two blocks of zeros in
    group 0 and the two blocks of ones in group 1. *)
Definition test_Z (p : list nat) : R :=
  match p with
  | [i; j] =>
      nth j (nth i [[0; 0; 1; 1]; [0; 0; 1; 1]; [1; 1; 0; 0];
                    [1; 1; 0; 0]; [1; 1; 0; 0]]%R []) 0%R
  | _ => 0%R
  end.

Definition test_km : Kmeans.Kmeans :=
  Kmeans.mk_kmeans [[0; 0; 1; 1; 1]; [0; 0; 1; 1]] [3; 2] 2 [2%Z]
                   (Kmeans.mk_nd [5; 4] (fun p => Fin (test_Z p))) false.

Definition test_features : list (list float) :=
  [[Fin 0; Fin 0; Fin 0; Fin 0; Fin 0; Fin 0];
   [Fin 1; Fin 0; Fin 1; Fin 1; Fin 1; Fin 1];
   [Fin 1; Fin 0; Fin 1; Fin 1; Fin 1; Fin 1];
   [Fin 0; Fin 0; Fin 0; Fin 0; Fin 0; Fin 0];
   [NaN; NaN; NaN; NaN; NaN; NaN];
   [NaN; NaN; NaN; NaN; NaN; NaN]].

Definition test_fit (g : unit) (_ : Z) (_ : nat) (_ : list (list float))
  : option (list nat) * unit :=
  (Some [0; 1; 1; 0], g).

Definition test_score (_ : list (list float)) (_ : list nat) : option float :=
  Some (Fin 1).

(** ** Rounding *)

(** What the statements use of a rounding: it is monotone and odd, it
    keeps the number 1 and the largest finite number, which is at least
    1.  Every IEEE-754 format with rounding to nearest has these
    properties. *)
Definition ieee_like (F : Fl.format) : Prop :=
  (forall a b, (a <= b)%R -> (Fl.rnd F a <= Fl.rnd F b)%R) /\
  (forall a, Fl.rnd F (- a) = (- Fl.rnd F a)%R) /\
  Fl.rnd F 1 = 1%R /\
  Fl.rnd F (Fl.fmax F) = Fl.fmax F /\
  (1 <= Fl.fmax F)%R.

(** [x] is a number of the format. *)
Definition representable (F : Fl.format) (x : R) : Prop := Fl.rnd F x = x.

(** Bounds under which a kernel that sums over [N] positions stays within
    the range of the format: the profile is at most [My] and
    [My + e <= Bs]; the logarithm is at most [Lg] in absolute value
    between [e] and [Bs]; the data is at most [Mz] and [Mz * Lg <= Bp];
    the [N] terms of both sums together stay below the largest finite
    number.  The bounds [Bs], [Lg], [Bp] and the multiples of [Bs] and
    [Bp] up to [N] are numbers of the format, as they are in binary64
    when they are powers of two and [N] is below [2^53]. *)
Definition kernel_bounds (F : Fl.format) (N : nat) (e My Mz Bs Lg Bp : R)
  : Prop :=
  (0 < e)%R /\ representable F e /\
  (My + e <= Bs)%R /\
  (- Lg <= ln e)%R /\ (ln Bs <= Lg)%R /\ (Lg <= Fl.fmax F)%R /\
  representable F Lg /\
  (Mz * Lg <= Bp)%R /\
  (forall i, i <= Nat.max 1 N -> representable F (INR i * Bs)) /\
  (forall i, i <= Nat.max 1 N -> representable F (INR i * Bp)) /\
  (INR (Nat.max 1 N) * (Bs + Bp) <= Fl.fmax F)%R.

(** [o] adds [n] terms, each once. *)
Definition adds (o : Fl.order) (n : nat) : Prop :=
  Permutation (Fl.leaves o) (seq 0 n).

(** The arithmetic that is exact within the range of binary64 and
    overflows beyond it. *)
Definition binary64_range : Fl.format :=
  Fl.mk_format (fun r => r) (IZR (2 ^ 1024 - 2 ^ 971)).

(** ** Further notions *)

(** The number of runs that report convergence. *)
Definition count_converged (flags : list bool) : nat :=
  length (filter (fun b => b) flags).

(** [run] is the first of [runs] (in the order given) whose error no
    other error is below; [err] reads the error of a run. *)
Definition first_minimal {A : Type} (err : A -> float) (runs : list A)
    (i : nat) (run : A) : Prop :=
  nth_error runs i = Some run /\
  (forall x, In x runs -> flt (err x) (err run) = false) /\
  (forall j x, j < i -> nth_error runs j = Some x ->
               flt (err run) (err x) = true).

(** What [self.results] of a cgc [Coclustering] holds after the runs
    [seen]: the error and the labels of the first run of least error. *)
Definition holds_first (r : CgcCoclustering.CoclusteringResults)
    (seen : list CgcCoclustering.RunResult) : Prop :=
  exists i run,
    first_minimal CgcCoclustering.r_e seen i run /\
    CgcCoclustering.error r = Some (CgcCoclustering.r_e run) /\
    CgcCoclustering.row_clusters r = Some (CgcCoclustering.r_row run) /\
    CgcCoclustering.col_clusters r = Some (CgcCoclustering.r_col run).

(** ** Labels, draws and least indices *)

(** Labels for an axis of [n_el] positions and [n_clusters] clusters. *)
Definition valid_labels (n_el n_clusters : nat) (labels : list nat) : Prop :=
  length labels = n_el /\ Forall (fun x => x < n_clusters) labels.

(** An optional initial assignment is, when given, valid. *)
Definition valid_init (n_el n_clusters : nat) (init : option (list nat))
  : Prop :=
  match init with
  | Some labels => valid_labels n_el n_clusters labels
  | None => True
  end.

(** [perm] reorders its argument, as a random permutation does. *)
Definition is_shuffle (perm : list nat -> list nat) : Prop :=
  forall l, Permutation (perm l) l.

(** [c] is the first index below [n] at which [f] is least. *)
Definition first_argmin (n : nat) (f : nat -> R) (c : nat) : Prop :=
  c < n /\
  (forall c', c' < n -> (f c <= f c')%R) /\
  (forall c', c' < c -> (f c < f c')%R).

(** ** The checks of the k-means stage *)

(** What [Kmeans.__init__] asks of its arguments when [k_range] is
    given: the shape of [Z] is made of the lengths of the label vectors;
    on every axis that has both a label vector and a number of clusters
    the vector is not empty and its labels are below that number; the
    range is not empty and lies between 2 and the product of
    [nclusters]. *)
Definition kmeans_accepts (Zarr : Kmeans.ndarray) (cls : list (list nat))
    (ncls : list nat) (ks : list Z) : Prop :=
  Kmeans.shape Zarr = map (@length nat) cls /\
  (forall i cl ncl,
     nth_error cls i = Some cl -> nth_error ncls i = Some ncl ->
     cl <> [] /\ Forall (fun x => x < ncl) cl) /\
  ks <> [] /\
  (forall k, In k ks -> (2 <= k <= Z.of_nat (Kmeans.prod_nat ncls))%Z).

(** A row of statistics without NaN. *)
Definition finite_row (r : list float) : bool := forallb is_finiteb r.

(* ================================================================== *)
(** * Properties *)
(* ================================================================== *)

Unset Implicit Arguments.

(** ** Floating-point values *)

Ltac decide_R :=
  repeat match goal with
         | |- context [Rlt_dec ?a ?b] => destruct (Rlt_dec a b); try lra
         | |- context [Req_dec_T ?a ?b] => destruct (Req_dec_T a b); try lra
         | |- context [Rle_dec ?a ?b] => destruct (Rle_dec a b); try lra
         end.

Lemma flt_Fin (a b : R) : flt (Fin a) (Fin b) = true <-> (a < b)%R.
Proof.
  simpl. destruct (Rlt_dec a b); split; intro H; try reflexivity;
    try assumption; try discriminate; contradiction.
Qed.

Lemma flt_Fin_false (a b : R) : flt (Fin a) (Fin b) = false <-> (b <= a)%R.
Proof.
  simpl. destruct (Rlt_dec a b); split; intro H; try reflexivity;
    try discriminate; lra.
Qed.

Lemma flt_irrefl (x : float) : flt x x = false.
Proof.
  destruct x; simpl; try reflexivity. destruct (Rlt_dec r r); [lra | reflexivity].
Qed.

Lemma fsum_n_Fin (n : nat) (f : nat -> float) (g : nat -> R) :
  (forall i, i < n -> f i = Fin (g i)) ->
  fsum_n n f = Fin (Rsum_n n g).
Proof.
  induction n as [|n IH]; intro H; simpl.
  - reflexivity.
  - rewrite IH by (intros; apply H; lia). rewrite H by lia. reflexivity.
Qed.

Lemma Rsum_n_ext (n : nat) (f g : nat -> R) :
  (forall i, i < n -> f i = g i) -> Rsum_n n f = Rsum_n n g.
Proof.
  induction n as [|n IH]; intro H; simpl.
  - reflexivity.
  - rewrite IH by (intros; apply H; lia). rewrite H by lia. reflexivity.
Qed.

Lemma Rsum_n_nonneg (n : nat) (f : nat -> R) :
  (forall i, i < n -> (0 <= f i)%R) -> (0 <= Rsum_n n f)%R.
Proof.
  induction n as [|n IH]; intro H; simpl.
  - lra.
  - specialize (IH (fun i Hi => H i (Nat.lt_lt_succ_r _ _ Hi))).
    specialize (H n (Nat.lt_succ_diag_r n)). lra.
Qed.

(** ** Best-of-N selection *)

Section StoreFacts.
Import CgcCoclustering.

Lemma length_put (st : store) (a : addr) (o : pyobj) :
  length (put st a o) = length st.
Proof.
  revert a; induction st as [|x st IH]; intros [|a]; simpl; auto.
Qed.

Lemma load_put_same (st : store) (a : addr) (o : pyobj) :
  a < length st -> load (put st a o) a = Some o.
Proof.
  unfold load. revert a; induction st as [|x st IH]; intros [|a] H; simpl in *;
    try lia; auto. apply IH; lia.
Qed.

Lemma load_put_other (st : store) (a b : addr) (o : pyobj) :
  a <> b -> load (put st a o) b = load st b.
Proof.
  unfold load. revert a b; induction st as [|x st IH]; intros [|a] [|b] H;
    simpl; auto; try congruence.
Qed.

Lemma load_lt (st : store) (a : addr) (o : pyobj) :
  load st a = Some o -> a < length st.
Proof.
  unfold load. intro H. apply nth_error_Some. congruence.
Qed.

Lemma load_results_lt (st : store) (a : addr) (r : CoclusteringResults) :
  load_results st a = Some r -> a < length st.
Proof.
  unfold load_results. destruct (load st a) as [[d|r']|] eqn:E; try discriminate.
  intros _. eapply load_lt; eauto.
Qed.

Lemma load_results_put_same (st : store) (a : addr)
    (r r' : CoclusteringResults) :
  load_results st a = Some r ->
  load_results (put st a (ResultsObj r')) a = Some r'.
Proof.
  intro H. unfold load_results.
  rewrite load_put_same by (eapply load_results_lt; eauto). reflexivity.
Qed.

Lemma load_alloc_old (st : store) (o : pyobj) (a : addr) :
  a < length st -> load (fst (alloc st o)) a = load st a.
Proof.
  intro H. unfold load, alloc. simpl. apply nth_error_app1. exact H.
Qed.

Lemma load_alloc_new (st : store) (o : pyobj) :
  load (fst (alloc st o)) (snd (alloc st o)) = Some o.
Proof.
  unfold load, alloc. simpl. rewrite nth_error_app2 by lia.
  rewrite Nat.sub_diag. reflexivity.
Qed.

End StoreFacts.

Section CgcBestOfN.
Import CgcCoclustering.

Lemma flt_trans_false (a b c : float) :
  is_finite a -> is_finite b -> is_finite c ->
  flt a b = false -> flt b c = false -> flt a c = false.
Proof.
  destruct a, b, c; simpl; try contradiction. intros _ _ _.
  decide_R; congruence.
Qed.

Lemma flt_true_false (a b : float) :
  is_finite a -> is_finite b -> flt a b = true -> flt b a = false.
Proof.
  destruct a, b; simpl; try contradiction. intros _ _. decide_R; congruence.
Qed.

Lemma absorb_spec (self : Coclustering) (st : store) (run : RunResult)
    (r : CoclusteringResults) :
  load_results st (results self) = Some r ->
  exists st' r',
    absorb self st run = Some st' /\
    load_results st' (results self) = Some r' /\
    length st' = length st /\
    nruns_completed r' = S (nruns_completed r) /\
    nruns_converged r' =
      (if r_converged run then S (nruns_converged r) else nruns_converged r) /\
    ((match error r with
      | None => true
      | Some err => flt (r_e run) err
      end = true /\
      error r' = Some (r_e run) /\ row_clusters r' = Some (r_row run) /\
      col_clusters r' = Some (r_col run))
     \/
     (match error r with
      | None => true
      | Some err => flt (r_e run) err
      end = false /\
      error r' = error r /\ row_clusters r' = row_clusters r /\
      col_clusters r' = col_clusters r)).
Proof.
  intro H. unfold absorb. rewrite H.
  eexists; eexists. split; [reflexivity|].
  split; [eapply load_results_put_same; eauto|].
  split; [apply length_put|].
  destruct (r_converged run); simpl;
    destruct (match error r with None => true | Some err => flt (r_e run) err end)
      eqn:E; simpl; auto 10.
Qed.

Lemma absorb_all_invariant (self : Coclustering) (completed seen : list RunResult) :
  forall (st : store) (r : CoclusteringResults),
    load_results st (results self) = Some r ->
    Forall (fun run => is_finite (r_e run)) (seen ++ completed) ->
    holds_best r seen ->
    exists st' r',
      absorb_all self st completed = Some st' /\
      load_results st' (results self) = Some r' /\
      length st' = length st /\
      holds_best r' (seen ++ completed) /\
      nruns_completed r' = nruns_completed r + length completed.
Proof.
  revert seen. induction completed as [|run rest IH]; intros seen st r Hload Hfin Hbest.
  - exists st, r. rewrite app_nil_r. simpl. rewrite Nat.add_0_r. auto.
  - destruct (absorb_spec self st run r Hload)
      as (st1 & r1 & Habs & Hload1 & Hlen1 & Hcomp & _ & Hcase).
    assert (Hbest1 : holds_best r1 (seen ++ [run])).
    { destruct Hbest as (b & Hin & He & Hrow & Hcol & Hmin).
      rewrite He in Hcase.
      assert (Hfb : is_finite (r_e b)).
      { rewrite Forall_forall in Hfin. apply Hfin. apply in_or_app. auto. }
      assert (Hfr : is_finite (r_e run)).
      { rewrite Forall_forall in Hfin. apply Hfin. apply in_or_app.
        right. left. reflexivity. }
      destruct Hcase as [(Hlt & He1 & Hr1 & Hc1) | (Hlt & He1 & Hr1 & Hc1)].
      - exists run. repeat split; auto.
        + apply in_or_app. right. left. reflexivity.
        + intros x Hx. apply in_app_or in Hx. destruct Hx as [Hx | [Hx | []]].
          * apply flt_trans_false with (b := r_e b); auto.
            -- rewrite Forall_forall in Hfin. apply Hfin. apply in_or_app; auto.
            -- apply flt_true_false; auto.
          * subst x. apply flt_irrefl.
      - exists b. repeat split; try congruence.
        + apply in_or_app. auto.
        + intros x Hx. apply in_app_or in Hx. destruct Hx as [Hx | [Hx | []]].
          * auto.
          * subst x. exact Hlt. }
    replace (seen ++ run :: rest) with ((seen ++ [run]) ++ rest) in *
      by (rewrite <- app_assoc; reflexivity).
    destruct (IH (seen ++ [run]) st1 r1 Hload1 Hfin Hbest1)
      as (st2 & r2 & Hall & Hload2 & Hlen2 & Hbest2 & Hcomp2).
    exists st2, r2. simpl. rewrite Habs. repeat split; auto; try congruence.
    rewrite Hcomp2, Hcomp. lia.
Qed.

(** The first run is always taken: the error starts as [None]. *)
Lemma absorb_first (self : Coclustering) (st : store) (run : RunResult)
    (r : CoclusteringResults) :
  load_results st (results self) = Some r ->
  error r = None ->
  exists st' r',
    absorb self st run = Some st' /\
    load_results st' (results self) = Some r' /\
    length st' = length st /\
    holds_best r' [run] /\
    nruns_completed r' = S (nruns_completed r).
Proof.
  intros Hload Hnone.
  destruct (absorb_spec self st run r Hload)
    as (st1 & r1 & Habs & Hload1 & Hlen1 & Hcomp & _ & Hcase).
  rewrite Hnone in Hcase.
  destruct Hcase as [(_ & He1 & Hr1 & Hc1) | (Hlt & _)]; [|discriminate].
  exists st1, r1. repeat split; auto.
  exists run. repeat split; auto.
  - left; reflexivity.
  - intros x [Hx | []]. subst x. apply flt_irrefl.
Qed.

(** In [cgc/coclustering.py] the thread runner keeps the minimum: after
    a session of at least one run, all with a finite error, the results
    object holds the error and the labels of a run whose error no other
    run is below. *)
Theorem cgc_run_with_threads_keeps_minimum
    (self : Coclustering) (st : store) (completed : list RunResult) :
  load_results st (results self) = Some new_results ->
  completed <> [] ->
  Forall (fun run => is_finite (r_e run)) completed ->
  exists st' ret r,
    run_with_threads self st completed = Some (st', ret) /\
    load_results st' (results self) = Some r /\
    holds_best r completed /\
    nruns_completed r = length completed.
Proof.
  intros Hload Hne Hfin.
  destruct completed as [|run rest]; [congruence|].
  destruct (absorb_first self st run _ Hload eq_refl)
    as (st1 & r1 & Habs & Hload1 & Hlen1 & Hbest1 & Hcomp1).
  destruct (absorb_all_invariant self rest [run] st1 r1 Hload1 Hfin Hbest1)
    as (st2 & r2 & Hall & Hload2 & Hlen2 & Hbest2 & Hcomp2).
  unfold run_with_threads. simpl. rewrite Habs, Hall.
  assert (Hlt : results self < length st2) by (eapply load_results_lt; eauto).
  unfold copy_copy.
  destruct (load st2 (results self)) as [o|] eqn:E.
  - eexists; eexists; exists r2. split; [reflexivity|].
    split.
    + unfold load_results.
      change (st2 ++ [o]) with (fst (alloc st2 o)).
      rewrite (load_alloc_old st2 o _ Hlt).
      unfold load_results in Hload2. exact Hload2.
    + split; [exact Hbest2|]. rewrite Hcomp2, Hcomp1. simpl. reflexivity.
  - unfold load_results in Hload2. rewrite E in Hload2. discriminate.
Qed.

End CgcBestOfN.

Section GeoBestOfN.
Import GeoCoclustering.

(** With the seed [e_min = 0.] a run whose error is not below zero is
    never kept. *)
Lemma keep_best_nonneg (runs : list RunResult) :
  Forall (fun run => flt (r_e run) (Fin 0) = false) runs ->
  fold_left keep_best runs best_init = best_init.
Proof.
  induction runs as [|run rest IH]; intro H; simpl.
  - reflexivity.
  - inversion H as [|? ? Hrun Hrest]; subst.
    unfold best_init at 1. simpl. rewrite Hrun. apply IH. exact Hrest.
Qed.

(** C1, on [geoclustering/coclustering.py]: two completed runs with the
    errors 1 and 2 leave the recorded error at the seed 0 (not at the
    minimum 1) and no labels at all; the sequential dask runner raises on
    the same results. *)
Theorem geo_run_with_threads_keeps_seed :
  let runs := [mk_run true 3 [0; 1] [1; 0] (Fin 1);
               mk_run true 2 [1; 0] [0; 1] (Fin 2)] in
  run_with_threads runs = mk_self None None (Some (Fin 0)) /\
  _dask_runs_memory runs = None.
Proof.
  assert (H : fold_left keep_best
                [mk_run true 3 [0; 1] [1; 0] (Fin 1);
                 mk_run true 2 [1; 0] [0; 1] (Fin 2)] best_init = best_init).
  { apply keep_best_nonneg. repeat constructor; apply flt_Fin_false; simpl; lra. }
  unfold run_with_threads, _dask_runs_memory. cbv zeta. rewrite H.
  split; reflexivity.
Qed.

End GeoBestOfN.

(** ** The returned results object *)

Section ReturnedCopy.
Import CgcCoclustering.

Lemma load_array_put_results (st : store) (a p : addr)
    (r r' : CoclusteringResults) :
  load_results st a = Some r ->
  load_array (put st a (ResultsObj r')) p = load_array st p.
Proof.
  intro H. unfold load_array.
  destruct (Nat.eq_dec a p) as [->|Hne].
  - rewrite load_put_same by (eapply load_results_lt; eauto).
    unfold load_results in H.
    destruct (load st p) as [[d|r0]|]; try discriminate; reflexivity.
  - rewrite load_put_other by exact Hne. reflexivity.
Qed.

Lemma observe_put_other (st : store) (a b : addr)
    (r r' : CoclusteringResults) :
  a <> b ->
  load_results st a = Some r ->
  observe (put st a (ResultsObj r')) b = observe st b.
Proof.
  intros Hne H. unfold observe, load_results.
  rewrite load_put_other by exact Hne.
  destruct (load st b) as [[d|rb]|]; try reflexivity.
  destruct (row_clusters rb), (col_clusters rb);
    rewrite ?(load_array_put_results st a _ r r' H); reflexivity.
Qed.

Lemma absorb_all_keeps_results (self : Coclustering)
    (completed : list RunResult) :
  forall (st st' : store) (r : CoclusteringResults),
    load_results st (results self) = Some r ->
    absorb_all self st completed = Some st' ->
    exists r', load_results st' (results self) = Some r'.
Proof.
  induction completed as [|run rest IH]; intros st st' r Hload Hall; simpl in Hall.
  - inversion Hall; subst. eauto.
  - destruct (absorb_spec self st run r Hload) as (st1 & r1 & Habs & Hload1 & _).
    rewrite Habs in Hall. eapply IH; eauto.
Qed.

Lemma load_results_alloc_old (st : store) (o : pyobj) (a : addr)
    (r : CoclusteringResults) :
  load_results st a = Some r ->
  load_results (fst (alloc st o)) a = Some r.
Proof.
  intro H. unfold load_results.
  rewrite load_alloc_old by (eapply load_results_lt; eauto). exact H.
Qed.

Lemma absorb_dask_keeps_results (self : Coclustering) (st st' : store)
    (run : DaskRunResult) (r : CoclusteringResults) :
  load_results st (results self) = Some r ->
  absorb_dask self st run = Some st' ->
  exists r', load_results st' (results self) = Some r'.
Proof.
  intros Hload H. unfold absorb_dask in H. rewrite Hload in H.
  match type of H with
  | (if ?c then _ else _) = _ => destruct c
  end.
  - unfold alloc in H. inversion H; subst. eexists.
    eapply load_results_put_same.
    change ((st ++ [NdArray (d_row run)]) ++ [NdArray (d_col run)])
      with (fst (alloc (fst (alloc st (NdArray (d_row run))))
                       (NdArray (d_col run)))).
    apply load_results_alloc_old. apply load_results_alloc_old. exact Hload.
  - inversion H; subst. eexists. eapply load_results_put_same; eauto.
Qed.

Lemma absorb_all_dask_keeps_results (self : Coclustering)
    (runs : list DaskRunResult) :
  forall (st st' : store) (r : CoclusteringResults),
    load_results st (results self) = Some r ->
    absorb_all_dask self st runs = Some st' ->
    exists r', load_results st' (results self) = Some r'.
Proof.
  induction runs as [|run rest IH]; intros st st' r Hload Hall; simpl in Hall.
  - inversion Hall; subst. eauto.
  - destruct (absorb_dask self st run) as [st1|] eqn:E; [|discriminate].
    destruct (absorb_dask_keeps_results self st st1 run r Hload E) as (r1 & H1).
    eapply IH; eauto.
Qed.

(** [copy.copy] returns a new object, distinct from the one copied, with
    the same attributes. *)
Lemma copy_copy_fresh (st st' : store) (a ret : addr)
    (r : CoclusteringResults) :
  load_results st a = Some r ->
  copy_copy st a = Some (st', ret) ->
  ret <> a /\ load_results st' ret = Some r /\ load_results st' a = Some r.
Proof.
  intros Hload H. unfold copy_copy in H.
  pose proof (load_results_lt st a r Hload) as Hlt.
  unfold load_results in Hload.
  destruct (load st a) as [[d|r0]|] eqn:E; try discriminate.
  inversion Hload; subst r0. unfold alloc in H. inversion H; subst.
  split; [lia|]. split.
  - unfold load_results.
    change (load (st ++ [ResultsObj r]) (length st))
      with (load (fst (alloc st (ResultsObj r))) (snd (alloc st (ResultsObj r)))).
    rewrite load_alloc_new. reflexivity.
  - change (st ++ [ResultsObj r]) with (fst (alloc st (ResultsObj r))).
    apply load_results_alloc_old. unfold load_results. rewrite E. reflexivity.
Qed.

Lemma rebinding_is_private (st : store) (a ret : addr) (mu : mutation)
    (r : CoclusteringResults) :
  ret <> a ->
  load_results st ret = Some r ->
  is_rebinding mu = true ->
  exists st', mutate st ret mu = Some st' /\ observe st' a = observe st a.
Proof.
  intros Hne Hload Hmu. unfold mutate. rewrite Hload.
  destruct mu; simpl in Hmu; try discriminate;
    (eexists; split; [reflexivity | eapply observe_put_other; eauto]).
Qed.

(** C5 (amended): the runners return a shallow copy.  Rebinding any
    attribute of the returned object leaves what [self.results] shows
    unchanged. *)
Theorem returned_copy_rebinding_is_private
    (self : Coclustering) (st st1 : store) (ret : addr) (mu : mutation)
    (r0 : CoclusteringResults) :
  load_results st (results self) = Some r0 ->
  (exists completed, run_with_threads self st completed = Some (st1, ret)) \/
  (exists low_memory runs,
      run_with_dask self st low_memory runs = Some (st1, ret)) ->
  is_rebinding mu = true ->
  ret <> results self /\
  exists st2,
    mutate st1 ret mu = Some st2 /\
    observe st2 (results self) = observe st1 (results self).
Proof.
  intros Hload Hrun Hmu.
  assert (Hcopy : exists st' r,
             load_results st' (results self) = Some r /\
             copy_copy st' (results self) = Some (st1, ret)).
  { destruct Hrun as [(completed & H) | (lm & runs & H)].
    - unfold run_with_threads in H.
      destruct (absorb_all self st completed) as [st'|] eqn:E; [|discriminate].
      destruct (absorb_all_keeps_results self completed st st' r0 Hload E)
        as (r & Hr).
      eauto.
    - unfold run_with_dask, _dask_runs_memory, _dask_runs_performance in H.
      assert (H' : match absorb_all_dask self st runs with
                   | Some st' => copy_copy st' (results self)
                   | None => None
                   end = Some (st1, ret)) by (destruct lm; exact H).
      destruct (absorb_all_dask self st runs) as [st'|] eqn:E; [|discriminate].
      destruct (absorb_all_dask_keeps_results self runs st st' r0 Hload E)
        as (r & Hr).
      eauto. }
  destruct Hcopy as (st' & r & Hr & Hc).
  destruct (copy_copy_fresh st' st1 (results self) ret r Hr Hc)
    as (Hne & Hret & _).
  split; [exact Hne|].
  eapply rebinding_is_private; eauto.
Qed.

(** C5, as stated, fails: an item assignment through the returned object
    writes into the label array that [self.results] refers to. *)
Lemma returned_labels_are_shared :
  let st0 := [NdArray [0; 1]; NdArray [1; 0]] in
  let self := mk_self 1 2 in
  let st2 := [NdArray [0; 1]; NdArray [1; 0];
              ResultsObj (mk_results (Some 0) (Some 1) (Some (Fin 1)) 1 1);
              ResultsObj (mk_results (Some 0) (Some 1) (Some (Fin 1)) 1 1)] in
  let st3 := [NdArray [5; 1]; NdArray [1; 0];
              ResultsObj (mk_results (Some 0) (Some 1) (Some (Fin 1)) 1 1);
              ResultsObj (mk_results (Some 0) (Some 1) (Some (Fin 1)) 1 1)] in
  __init__ st0 2 (2, 2) 1 None None
    = Some (st0 ++ [ResultsObj new_results], self) /\
  run_with_threads self (st0 ++ [ResultsObj new_results])
                   [mk_run true 1 0 1 (Fin 1)] = Some (st2, 3) /\
  mutate st2 3 (StoreRow 0 5) = Some st3 /\
  observe st2 (results self)
    = Some (Some [0; 1], Some [1; 0], Some (Fin 1), 1, 1) /\
  observe st3 (results self)
    = Some (Some [5; 1], Some [1; 0], Some (Fin 1), 1, 1) /\
  observe st3 (results self) <> observe st2 (results self).
Proof.
  cbv zeta. repeat split; try reflexivity.
  cbn. intro H. inversion H.
Qed.

(** The hypotheses of the amended statement hold in a session. *)
Lemma returned_copy_rebinding_is_private_witness :
  let st0 := [NdArray [0; 1]; NdArray [1; 0]; ResultsObj new_results] in
  let self := mk_self 1 2 in
  let st2 := [NdArray [0; 1]; NdArray [1; 0];
              ResultsObj (mk_results (Some 0) (Some 1) (Some (Fin 1)) 1 1);
              ResultsObj (mk_results (Some 0) (Some 1) (Some (Fin 1)) 1 1)] in
  3 <> results self /\
  exists st3,
    mutate st2 3 (SetRowClusters None) = Some st3 /\
    observe st3 (results self) = observe st2 (results self).
Proof.
  cbv zeta.
  apply (returned_copy_rebinding_is_private
           (mk_self 1 2)
           [NdArray [0; 1]; NdArray [1; 0]; ResultsObj new_results]
           _ 3 (SetRowClusters None) new_results).
  - reflexivity.
  - left. exists [mk_run true 1 0 1 (Fin 1)]. reflexivity.
  - reflexivity.
Defined.

End ReturnedCopy.

(** ** The scan behind argmin and argmax *)

Section Scan.

Variable better : float -> float -> bool.
Hypothesis better_irrefl : forall a, is_finite a -> better a a = false.
Hypothesis better_step :
  forall y v z, is_finite y -> is_finite v -> is_finite z ->
    better y v = true -> better z v = false ->
    better y z = true /\ better z y = false.

Lemma scanned_snoc (pre : list float) (i : nat) (v y : float) :
  Forall is_finite (pre ++ [y]) ->
  scanned better pre i v ->
  let best' := if isnan v then (i, v)
               else if isnan y || better y v then (length pre, y)
                    else (i, v) in
  scanned better (pre ++ [y]) (fst best') (snd best').
Proof.
  intros Hfin (Hnth & Hbest & Hfirst).
  assert (Hi : i < length pre) by (apply nth_error_Some; congruence).
  assert (Hfv : is_finite v).
  { rewrite Forall_forall in Hfin. apply Hfin. apply in_or_app. left.
    eapply nth_error_In; eauto. }
  assert (Hfy : is_finite y).
  { rewrite Forall_forall in Hfin. apply Hfin. apply in_or_app. right.
    left; reflexivity. }
  assert (Hfpre : forall z, In z pre -> is_finite z).
  { intros z Hz. rewrite Forall_forall in Hfin. apply Hfin.
    apply in_or_app; auto. }
  destruct v as [rv| | |]; try contradiction.
  destruct y as [ry| | |]; try contradiction.
  cbn [isnan orb]. destruct (better (Fin ry) (Fin rv)) eqn:E; cbn [fst snd].
  - split; [|split].
    + rewrite nth_error_app2 by lia. rewrite Nat.sub_diag. reflexivity.
    + intros z Hz. apply in_app_or in Hz. destruct Hz as [Hz | [Hz | []]].
      * apply (better_step (Fin ry) (Fin rv) z); auto.
      * subst z. apply better_irrefl. exact I.
    + intros j z Hj Hz. rewrite nth_error_app1 in Hz by exact Hj.
      assert (Hin : In z pre) by (eapply nth_error_In; eauto).
      apply (better_step (Fin ry) (Fin rv) z); auto.
  - split; [|split].
    + rewrite nth_error_app1 by exact Hi. exact Hnth.
    + intros z Hz. apply in_app_or in Hz. destruct Hz as [Hz | [Hz | []]].
      * auto.
      * subst z. exact E.
    + intros j z Hj Hz. rewrite nth_error_app1 in Hz by lia. eauto.
Qed.

Lemma scan_scanned (l : list float) :
  forall (pre : list float) (i : nat) (v : float),
    Forall is_finite (pre ++ l) ->
    scanned better pre i v ->
    scanned better (pre ++ l)
            (fst (scan better l (length pre) (i, v)))
            (snd (scan better l (length pre) (i, v))).
Proof.
  induction l as [|y l IH]; intros pre i v Hfin Hs.
  - rewrite app_nil_r. exact Hs.
  - replace (pre ++ y :: l) with ((pre ++ [y]) ++ l) in *
      by (rewrite <- app_assoc; reflexivity).
    assert (Hfin' : Forall is_finite (pre ++ [y])).
    { apply Forall_app in Hfin. tauto. }
    pose proof (scanned_snoc pre i v y Hfin' Hs) as Hstep.
    cbn [scan snd].
    replace (S (length pre)) with (length (pre ++ [y]))
      by (rewrite length_app; simpl; lia).
    destruct (if isnan v then (i, v)
              else if isnan y || better y v then (length pre, y) else (i, v))
      as [i' v'] eqn:E.
    cbn [fst snd] in Hstep.
    apply IH; assumption.
Qed.

(** The scan of a non-empty vector of finite values. *)
Lemma scan_vector (x : float) (l : list float) :
  Forall is_finite (x :: l) ->
  scanned better (x :: l) (fst (scan better l 1 (0, x)))
                   (snd (scan better l 1 (0, x))).
Proof.
  intro Hfin.
  apply (scan_scanned l [x] 0 x Hfin).
  split; [reflexivity|]. split.
  - intros y [Hy | []]. subst y. apply better_irrefl.
    inversion Hfin; assumption.
  - intros j y Hj. lia.
Qed.

End Scan.

Lemma flt_step (y v z : float) :
  is_finite y -> is_finite v -> is_finite z ->
  flt y v = true -> flt z v = false ->
  flt y z = true /\ flt z y = false.
Proof.
  destruct y, v, z; simpl; try contradiction. intros _ _ _.
  decide_R; intros; try discriminate; auto.
Qed.

Lemma fgt_step (y v z : float) :
  is_finite y -> is_finite v -> is_finite z ->
  flt v y = true -> flt v z = false ->
  flt z y = true /\ flt y z = false.
Proof.
  destruct y, v, z; simpl; try contradiction. intros _ _ _.
  decide_R; intros; try discriminate; auto.
Qed.

Lemma min_scan_vector (x : float) (l : list float) :
  Forall is_finite (x :: l) ->
  scanned flt (x :: l) (fst (min_scan l 1 (0, x))) (snd (min_scan l 1 (0, x))).
Proof.
  apply scan_vector.
  - intros a _. apply flt_irrefl.
  - apply flt_step.
Qed.

Lemma max_scan_vector (x : float) (l : list float) :
  Forall is_finite (x :: l) ->
  scanned (fun y b => flt b y) (x :: l)
          (fst (max_scan l 1 (0, x))) (snd (max_scan l 1 (0, x))).
Proof.
  apply scan_vector.
  - intros a _. apply flt_irrefl.
  - intros y v z. apply fgt_step.
Qed.

(** ** Kmeans: the requested range *)

Section KmeansSort.
Import Kmeans.

Lemma insert_perm (x : Z) (l : list Z) : Permutation (insert x l) (x :: l).
Proof.
  induction l as [|y l IH]; simpl.
  - apply Permutation_refl.
  - destruct (x <=? y)%Z.
    + apply Permutation_refl.
    + eapply perm_trans; [apply perm_skip; exact IH | apply perm_swap].
Qed.

Lemma sort_perm (l : list Z) : Permutation (sort l) l.
Proof.
  induction l as [|x l IH]; simpl.
  - apply perm_nil.
  - eapply perm_trans; [apply insert_perm | apply perm_skip; exact IH].
Qed.

Lemma insert_sorted (x : Z) (l : list Z) :
  StronglySorted Z.le l -> StronglySorted Z.le (insert x l).
Proof.
  induction l as [|y l IH]; intro H; simpl.
  - constructor; constructor.
  - destruct (x <=? y)%Z eqn:E.
    + apply Z.leb_le in E. constructor; [exact H|].
      inversion H as [|? ? Hs Hall]; subst.
      constructor; [exact E|].
      rewrite Forall_forall in *. intros z Hz. specialize (Hall z Hz). lia.
    + apply Z.leb_gt in E. inversion H as [|? ? Hs Hall]; subst.
      constructor; [apply IH; exact Hs|].
      rewrite Forall_forall in *. intros z Hz.
      apply (Permutation_in _ (insert_perm x l)) in Hz.
      destruct Hz as [<- | Hz]; [lia | auto].
Qed.

Lemma sort_sorted (l : list Z) : StronglySorted Z.le (sort l).
Proof.
  induction l as [|x l IH]; simpl.
  - constructor.
  - apply insert_sorted. exact IH.
Qed.

Lemma sorted_perm_eq (l1 : list Z) :
  forall l2, StronglySorted Z.le l1 -> StronglySorted Z.le l2 ->
             Permutation l1 l2 -> l1 = l2.
Proof.
  induction l1 as [|x l1 IH]; intros l2 H1 H2 Hp.
  - apply Permutation_nil in Hp. congruence.
  - destruct l2 as [|y l2].
    + apply Permutation_sym, Permutation_nil in Hp. discriminate.
    + inversion H1 as [|? ? Hs1 Hall1]; subst.
      inversion H2 as [|? ? Hs2 Hall2]; subst.
      assert (Hxy : x = y).
      { assert (Hx : In x (y :: l2))
          by (eapply Permutation_in; [exact Hp | left; reflexivity]).
        assert (Hy : In y (x :: l1))
          by (eapply Permutation_in;
              [apply Permutation_sym; exact Hp | left; reflexivity]).
        rewrite Forall_forall in Hall1, Hall2.
        destruct Hx as [Hx | Hx]; [congruence|].
        destruct Hy as [Hy | Hy]; [congruence|].
        specialize (Hall1 y Hy). specialize (Hall2 x Hx). lia. }
      subst y. f_equal. apply IH; auto.
      eapply Permutation_cons_inv; eauto.
Qed.

(** Sorting forgets the order in which the values were supplied. *)
Lemma sort_of_perm (l1 l2 : list Z) :
  Permutation l1 l2 -> sort l1 = sort l2.
Proof.
  intro Hp. apply sorted_perm_eq; try apply sort_sorted.
  eapply perm_trans; [apply sort_perm|].
  eapply perm_trans; [exact Hp|]. apply Permutation_sym, sort_perm.
Qed.

Lemma sorted_nth_le (l : list Z) :
  StronglySorted Z.le l ->
  forall i j a b, i <= j -> nth_error l i = Some a -> nth_error l j = Some b ->
                  (a <= b)%Z.
Proof.
  induction 1 as [|x l Hs IH Hall]; intros i j a b Hij Ha Hb.
  - destruct i; discriminate.
  - destruct i as [|i], j as [|j]; simpl in *.
    + inversion Ha; inversion Hb; subst. lia.
    + inversion Ha; subst. rewrite Forall_forall in Hall. apply Hall.
      eapply nth_error_In; eauto.
    + lia.
    + apply (IH i j a b); [lia | assumption | assumption].
Qed.

Lemma fold_min_le (l : list Z) :
  forall x, (fold_left Z.min l x <= x)%Z /\
            (forall y, In y l -> (fold_left Z.min l x <= y)%Z) /\
            (fold_left Z.min l x = x \/ In (fold_left Z.min l x) l).
Proof.
  induction l as [|z l IH]; intro x; simpl.
  - split; [lia|]. split; [intros y [] | left; reflexivity].
  - destruct (IH (Z.min x z)) as (H1 & H2 & H3).
    split; [|split].
    + lia.
    + intros y [<- | Hy]; [lia | auto].
    + destruct H3 as [H3 | H3]; [|auto].
      rewrite H3. destruct (Z.min_spec x z) as [[_ ->] | [_ ->]]; auto.
Qed.

Lemma fold_max_ge (l : list Z) :
  forall x, (x <= fold_left Z.max l x)%Z /\
            (forall y, In y l -> (y <= fold_left Z.max l x)%Z) /\
            (fold_left Z.max l x = x \/ In (fold_left Z.max l x) l).
Proof.
  induction l as [|z l IH]; intro x; simpl.
  - split; [lia|]. split; [intros y [] | left; reflexivity].
  - destruct (IH (Z.max x z)) as (H1 & H2 & H3).
    split; [|split].
    + lia.
    + intros y [<- | Hy]; [lia | auto].
    + destruct H3 as [H3 | H3]; [|auto].
      rewrite H3. destruct (Z.max_spec x z) as [[_ ->] | [_ ->]]; auto.
Qed.

Lemma zmin_spec (l : list Z) (m : Z) :
  zmin l = Some m -> In m l /\ forall y, In y l -> (m <= y)%Z.
Proof.
  destruct l as [|x l]; simpl; intro H; [discriminate|].
  inversion H; subst. destruct (fold_min_le l x) as (H1 & H2 & H3).
  split; [destruct H3 as [H3 | H3]; [left; congruence | right; exact H3]|].
  intros y [<- | Hy]; auto.
Qed.

Lemma zmax_spec (l : list Z) (m : Z) :
  zmax l = Some m -> In m l /\ forall y, In y l -> (y <= m)%Z.
Proof.
  destruct l as [|x l]; simpl; intro H; [discriminate|].
  inversion H; subst. destruct (fold_max_ge l x) as (H1 & H2 & H3).
  split; [destruct H3 as [H3 | H3]; [left; congruence | right; exact H3]|].
  intros y [<- | Hy]; auto.
Qed.

End KmeansSort.

Section KmeansInit.
Import Kmeans.

(** The constructor raises nothing but ValueError. *)
Lemma init_cases (Zarr : ndarray) (cls : list (list nat)) (ncls : list nat)
    (ks : option (list Z)) (num : Z) (den : positive) (it : nat) :
  __init__ Zarr cls ncls ks num den it = ValueError \/
  exists km, __init__ Zarr cls ncls ks num den it = Ok km.
Proof.
  unfold __init__.
  destruct (negb (length (shape Zarr) =? length cls)); [left; reflexivity|].
  destruct (negb (list_eqb (shape Zarr) (map (@length nat) cls)));
    [left; reflexivity|].
  destruct (negb (labels_in_range cls ncls (length (shape Zarr))));
    [left; reflexivity|].
  destruct (zmin _) as [mn|]; [|left; reflexivity].
  destruct (zmax _) as [mx|]; [|left; reflexivity].
  destruct (negb (2 <=? mn)%Z); [left; reflexivity|].
  destruct (mx >? Z.of_nat (prod_nat ncls))%Z; [left; reflexivity|].
  right. eexists. reflexivity.
Qed.

(** What the constructor has checked when it returns: the range is kept
    sorted, and every requested k lies between 2 and the product of
    [nclusters] (the number of all blocks, populated or not). *)
Lemma init_ok_inv (Zarr : ndarray) (cls : list (list nat)) (ncls : list nat)
    (ks : list Z) (num : Z) (den : positive) (it : nat) (km : Kmeans) :
  __init__ Zarr cls ncls (Some ks) num den it = Ok km ->
  k_range km = sort ks /\
  clusters km = cls /\ nclusters km = ncls /\
  kmean_max_iter km = it /\ Zdata km = Zarr /\
  ks <> [] /\
  (forall k, In k ks -> (2 <= k <= Z.of_nat (prod_nat ncls))%Z).
Proof.
  unfold __init__. intro H.
  destruct (negb (length (shape Zarr) =? length cls)); [discriminate|].
  destruct (negb (list_eqb (shape Zarr) (map (@length nat) cls)));
    [discriminate|].
  destruct (negb (labels_in_range cls ncls (length (shape Zarr))));
    [discriminate|].
  destruct (zmin (sort ks)) as [mn|] eqn:Emin; [|discriminate].
  destruct (zmax (sort ks)) as [mx|] eqn:Emax; [|discriminate].
  destruct (negb (2 <=? mn)%Z) eqn:E2; [discriminate|].
  destruct (mx >? Z.of_nat (prod_nat ncls))%Z eqn:E3; [discriminate|].
  inversion H; subst; simpl.
  repeat split; auto.
  - intro Hnil. subst ks. simpl in Emin. discriminate.
  - apply zmin_spec in Emin. destruct Emin as (_ & Hmin).
    apply negb_false_iff, Z.leb_le in E2.
    specialize (Hmin k (Permutation_in _ (Permutation_sym (sort_perm ks)) H0)).
    lia.
  - apply zmax_spec in Emax. destruct Emax as (_ & Hmax).
    specialize (Hmax k (Permutation_in _ (Permutation_sym (sort_perm ks)) H0)).
    rewrite Z.gtb_ltb in E3. apply Z.ltb_ge in E3. lia.
Qed.

(** A value below 2 in the requested range raises ValueError. *)
Lemma init_rejects_small_k (Zarr : ndarray) (cls : list (list nat))
    (ncls : list nat) (ks : list Z) (num : Z) (den : positive) (it : nat)
    (k : Z) :
  In k ks -> (k < 2)%Z ->
  __init__ Zarr cls ncls (Some ks) num den it = ValueError.
Proof.
  intros Hin Hk.
  destruct (init_cases Zarr cls ncls (Some ks) num den it) as [E | (km & E)];
    [exact E|].
  apply init_ok_inv in E. destruct E as (_ & _ & _ & _ & _ & _ & Hall).
  specialize (Hall k Hin). lia.
Qed.

(** A value above the number of all blocks raises ValueError. *)
Lemma init_rejects_large_k (Zarr : ndarray) (cls : list (list nat))
    (ncls : list nat) (ks : list Z) (num : Z) (den : positive) (it : nat)
    (k : Z) :
  In k ks -> (Z.of_nat (prod_nat ncls) < k)%Z ->
  __init__ Zarr cls ncls (Some ks) num den it = ValueError.
Proof.
  intros Hin Hk.
  destruct (init_cases Zarr cls ncls (Some ks) num den it) as [E | (km & E)];
    [exact E|].
  apply init_ok_inv in E. destruct E as (_ & _ & _ & _ & _ & _ & Hall).
  specialize (Hall k Hin). lia.
Qed.

(** C2: a 6 x 4 array with three row labels and two column labels has
    six populated blocks; with [nclusters = [4, 2]] and
    [k_range = range(2, 8)] the largest requested k is 7, above the six
    populated blocks, and the constructor returns normally (with the
    warning), because it compares with the 8 blocks of the grid. *)
Theorem kmeans_init_accepts_k_above_populated (g : list nat -> float) :
  let cls := [[0; 0; 1; 1; 2; 2]; [0; 0; 1; 1]] in
  __init__ (mk_nd [6; 4] g) cls [4; 2] (Some (range 2 8)) 4 5 100
    = Ok (mk_kmeans cls [4; 2] 100 [2; 3; 4; 5; 6; 7]%Z (mk_nd [6; 4] g) true)
  /\ n_populated cls = 6
  /\ zmax (range 2 8) = Some 7%Z.
Proof.
  cbv zeta. split; [|split]; reflexivity.
Qed.

End KmeansInit.

Section KmeansSelect.

Lemma feqb_refl_finite (x : float) : is_finite x -> feqb x x = true.
Proof.
  destruct x; simpl; try contradiction. intros _.
  destruct (Req_dec_T r r); congruence.
Qed.

Lemma filter_two (A : Type) (f : A -> bool) (l : list A) :
  forall i j a b,
    i < j -> nth_error l i = Some a -> nth_error l j = Some b ->
    f a = true -> f b = true -> 2 <= length (filter f l).
Proof.
  induction l as [|x l IH]; intros i j a b Hij Ha Hb Hfa Hfb.
  - destruct i; discriminate.
  - destruct i as [|i], j as [|j]; simpl in *; try lia.
    + inversion Ha; subst x. rewrite Hfa. simpl.
      assert (Hin : In b (filter f l)).
      { apply filter_In. split; [eapply nth_error_In; eauto | exact Hfb]. }
      destruct (filter f l); [destruct Hin | simpl; lia].
    + assert (2 <= length (filter f l)) by (eapply (IH i j); eauto; lia).
      destruct (f x); simpl; lia.
Qed.

End KmeansSelect.

(** ** The divergence kernel *)

Lemma flog_pos (r : R) : (0 < r)%R -> flog (Fin r) = Fin (ln r).
Proof.
  intro H. simpl. destruct (Rlt_dec 0 r); [reflexivity | contradiction].
Qed.

Lemma fsum_n_Fin2 (a b : nat) (f : nat -> nat -> float) (g : nat -> nat -> R) :
  (forall i j, i < a -> j < b -> f i j = Fin (g i j)) ->
  fsum_n a (fun i => fsum_n b (fun j => f i j))
  = Fin (Rsum_n a (fun i => Rsum_n b (fun j => g i j))).
Proof.
  intro H. apply fsum_n_Fin. intros i Hi.
  apply fsum_n_Fin. intros j Hj. apply H; assumption.
Qed.

(** The value of the kernel of [triclustering_numpy] on finite data whose
    profile stays above [-epsilon]. *)
Lemma tri_distance_value (di dj dk dl : nat) (z y : nat -> nat -> nat -> R)
    (e : R) (i l : nat) :
  (forall j k, j < dj -> k < dk -> (0 < y l j k + e)%R) ->
  at2 (TriclusteringNumpy._distance (lift3 di dj dk z) (lift3 dl dj dk y)
                                    (Fin e)) i l
  = Fin (Rsum_n dj (fun j => Rsum_n dk (fun k => y l j k + e))
         - Rsum_n dj (fun j => Rsum_n dk (fun k => z i j k * ln (y l j k + e))))%R.
Proof.
  intro Hpos. unfold TriclusteringNumpy._distance. cbn [at2 at3 dim1 dim2 lift3].
  rewrite (fsum_n_Fin2 dj dk _ (fun j k => (y l j k + e)%R))
    by (intros; reflexivity).
  rewrite (fsum_n_Fin2 dj dk _ (fun j k => (z i j k * ln (y l j k + e))%R)).
  - reflexivity.
  - intros j k Hj Hk. cbn [fadd]. rewrite flog_pos by (apply Hpos; assumption).
    reflexivity.
Qed.

(** The same for the kernel of [coclustering_dask], called with a matrix
    of ones for [X]. *)
Lemma dask_distance_value (m n k : nat) (z y : nat -> nat -> R)
    (e : R) (i l : nat) :
  (forall t, t < n -> (0 < y t l + e)%R) ->
  at2 (CoclusteringDask._distance (lift2 m n z) (ones m n) (lift2 n k y)
                                  (Fin e)) i l
  = Fin (Rsum_n n (fun t => y t l + e)
         - Rsum_n n (fun t => z i t * ln (y t l + e)))%R.
Proof.
  intro Hpos. unfold CoclusteringDask._distance, dot, ones, add_scalar2.
  cbn [at2 rows cols lift2].
  rewrite (fsum_n_Fin n _ (fun t => (y t l + e)%R)).
  - rewrite (fsum_n_Fin n _ (fun t => (z i t * ln (y t l + e))%R)).
    + reflexivity.
    + intros t Ht. cbn [fadd]. rewrite flog_pos by (apply Hpos; assumption).
      reflexivity.
  - intros t Ht. cbn [fadd fmul]. f_equal. lra.
Qed.

(** ** Block averages *)

Lemma Rsum_n_scal (n : nat) (c : R) (f : nat -> R) :
  (c * Rsum_n n f = Rsum_n n (fun i => c * f i))%R.
Proof.
  induction n as [|n IH]; simpl; [lra|]. rewrite <- IH. lra.
Qed.

Lemma Rsum_n_plus (n : nat) (f g : nat -> R) :
  (Rsum_n n f + Rsum_n n g = Rsum_n n (fun i => f i + g i))%R.
Proof.
  induction n as [|n IH]; simpl; [lra|]. rewrite <- IH. lra.
Qed.

Lemma Rsum_n_zero (n : nat) : Rsum_n n (fun _ => 0%R) = 0%R.
Proof.
  induction n as [|n IH]; simpl; [reflexivity|]. rewrite IH. lra.
Qed.

Lemma Rsum_n_const (n : nat) (c : R) : Rsum_n n (fun _ => c) = (INR n * c)%R.
Proof.
  induction n as [|n IH]; [simpl; lra|].
  rewrite S_INR. simpl. rewrite IH. lra.
Qed.

Lemma Rsum_n_swap (a b : nat) (f : nat -> nat -> R) :
  Rsum_n a (fun i => Rsum_n b (fun j => f i j))
  = Rsum_n b (fun j => Rsum_n a (fun i => f i j)).
Proof.
  induction a as [|a IH]; simpl.
  - symmetry. apply Rsum_n_zero.
  - rewrite IH. apply Rsum_n_plus.
Qed.

Lemma Rsum_n_shift (n : nat) (f : nat -> R) :
  Rsum_n (S n) f = (f O + Rsum_n n (fun i => f (S i)))%R.
Proof.
  induction n as [|n IH].
  - simpl. lra.
  - change (Rsum_n (S (S n)) f) with (Rsum_n (S n) f + f (S n))%R.
    rewrite IH. simpl. lra.
Qed.

Lemma onehot_entry (n_clusters : nat) (idx : list nat) (p c : nat) :
  at2 (onehot n_clusters idx) p c = Fin (ind (nth p idx 0 =? c)).
Proof.
  unfold onehot, ind. cbn [at2]. destruct (nth p idx 0 =? c); reflexivity.
Qed.

Lemma count_occ_Rsum (l : list nat) (v : nat) :
  INR (count_occ Nat.eq_dec l v)
  = Rsum_n (length l) (fun p => ind (nth p l 0 =? v)).
Proof.
  induction l as [|x l IH].
  - reflexivity.
  - cbn [length]. rewrite Rsum_n_shift. cbn [nth count_occ].
    rewrite <- IH. unfold ind.
    destruct (Nat.eq_dec x v) as [->|Hne].
    + rewrite Nat.eqb_refl. rewrite S_INR. lra.
    + destruct (Nat.eqb_spec x v); [contradiction | lra].
Qed.

Lemma bincount_nth (l : list nat) (minlength c : nat) :
  c < minlength ->
  nth c (bincount l minlength) 0 = count_occ Nat.eq_dec l c.
Proof.
  intro Hc. unfold bincount.
  set (len := match l with
              | [] => minlength
              | _ :: _ => Nat.max minlength (S (list_max l))
              end).
  assert (Hlen : c < len) by (unfold len; destruct l; lia).
  rewrite (nth_indep _ 0 (count_occ Nat.eq_dec l 0))
    by (rewrite length_map, length_seq; exact Hlen).
  rewrite (map_nth (fun c => count_occ Nat.eq_dec l c)).
  rewrite seq_nth by exact Hlen. reflexivity.
Qed.

(** Contracting one axis after the other with three indicator vectors is
    the sum over the positions selected by all three. *)
Lemma contract3 (d m n : nat) (pB pR pC : nat -> bool)
    (z : nat -> nat -> nat -> R) :
  Rsum_n n (fun c => ind (pC c) *
    Rsum_n m (fun r => ind (pR r) *
      Rsum_n d (fun b => ind (pB b) * z b r c)))%R
  = Rsum_n d (fun b => Rsum_n m (fun r => Rsum_n n (fun c =>
      if pB b && pR r && pC c then z b r c else 0%R))).
Proof.
  transitivity
    (Rsum_n n (fun c => Rsum_n m (fun r => Rsum_n d (fun b =>
       if pB b && pR r && pC c then z b r c else 0%R)))).
  - apply Rsum_n_ext. intros c _. rewrite Rsum_n_scal.
    apply Rsum_n_ext. intros r _. rewrite !Rsum_n_scal.
    apply Rsum_n_ext. intros b _. unfold ind.
    destruct (pB b), (pR r), (pC c); simpl; lra.
  - pose (F := fun b r c => if pB b && pR r && pC c then z b r c else 0%R).
    change (Rsum_n n (fun c => Rsum_n m (fun r => Rsum_n d (fun b => F b r c)))
            = Rsum_n d (fun b => Rsum_n m (fun r =>
                Rsum_n n (fun c => F b r c)))).
    rewrite (Rsum_n_swap n m (fun c r => Rsum_n d (fun b => F b r c))).
    transitivity (Rsum_n m (fun r => Rsum_n d (fun b =>
                    Rsum_n n (fun c => F b r c)))).
    + apply Rsum_n_ext. intros r _.
      apply (Rsum_n_swap n d (fun c b => F b r c)).
    + apply (Rsum_n_swap m d (fun r b => Rsum_n n (fun c => F b r c))).
Qed.

Lemma INR_Nsum_n (n : nat) (f : nat -> nat) :
  INR (Nsum_n n f) = Rsum_n n (fun i => INR (f i)).
Proof.
  induction n as [|n IH]; simpl; [reflexivity|].
  rewrite plus_INR, IH. reflexivity.
Qed.

Lemma INR_block_count3 (bnd row col : list nat) (i j k : nat) :
  INR (block_count3 bnd row col i j k)
  = block_sum3 (fun _ _ _ => 1%R) bnd row col i j k.
Proof.
  unfold block_count3, block_sum3. rewrite INR_Nsum_n.
  apply Rsum_n_ext. intros b _. rewrite INR_Nsum_n.
  apply Rsum_n_ext. intros r _. rewrite INR_Nsum_n.
  apply Rsum_n_ext. intros c _.
  destruct (in_block3 bnd row col i j k b r c); reflexivity.
Qed.

Lemma INR_block_count2 (row col : list nat) (i j : nat) :
  INR (block_count2 row col i j) = block_sum2 (fun _ _ => 1%R) row col i j.
Proof.
  unfold block_count2, block_sum2. rewrite INR_Nsum_n.
  apply Rsum_n_ext. intros r _. rewrite INR_Nsum_n.
  apply Rsum_n_ext. intros c _.
  destruct (in_block2 row col i j r c); reflexivity.
Qed.

Lemma Rsum_n_scal_r (n : nat) (c : R) (f : nat -> R) :
  (Rsum_n n f * c = Rsum_n n (fun i => f i * c))%R.
Proof.
  induction n as [|n IH]; simpl; [lra|]. rewrite <- IH. lra.
Qed.

Lemma contract_onehot (n_clusters : nat) (idx : list nat) (c : nat)
    (f : nat -> float) (g : nat -> R) :
  (forall p, f p = Fin (g p)) ->
  fsum_n (length idx) (fun p => fmul (at2 (onehot n_clusters idx) p c) (f p))
  = Fin (Rsum_n (length idx) (fun p => ind (lab_is idx c p) * g p)%R).
Proof.
  intro H. apply fsum_n_Fin. intros p _.
  rewrite onehot_entry, H. reflexivity.
Qed.

Lemma fdiv_Fin (a b : R) : b <> 0%R -> fdiv (Fin a) (Fin b) = Fin (a / b).
Proof.
  intro H. simpl. destruct (Req_dec_T b 0); [contradiction | reflexivity].
Qed.

(** The three contractions of [block_averages], on finite data. *)
Lemma tri_block_sums (z : nat -> nat -> nat -> R) (bnd row col : list nat)
    (nb nr nc i j k : nat) :
  at3 (TriclusteringNumpy.einsum_ij_kli_klj (onehot nc col)
         (TriclusteringNumpy.einsum_ij_kim_kjm (onehot nr row)
            (TriclusteringNumpy.einsum_ij_ilm_jlm (onehot nb bnd)
               (lift3 (length bnd) (length row) (length col) z)))) i j k
  = Fin (block_sum3 z bnd row col i j k).
Proof.
  unfold TriclusteringNumpy.einsum_ij_kli_klj,
    TriclusteringNumpy.einsum_ij_kim_kjm,
    TriclusteringNumpy.einsum_ij_ilm_jlm.
  cbn [at3 rows cols dim0 dim1 dim2 lift3].
  change (rows (onehot nc col)) with (length col).
  change (rows (onehot nr row)) with (length row).
  change (rows (onehot nb bnd)) with (length bnd).
  rewrite (contract_onehot nc col k _
             (fun c => Rsum_n (length row) (fun r => ind (lab_is row j r) *
                Rsum_n (length bnd) (fun b => ind (lab_is bnd i b) * z b r c)))%R).
  - f_equal. unfold block_sum3, in_block3.
    apply (contract3 (length bnd) (length row) (length col)
             (lab_is bnd i) (lab_is row j) (lab_is col k) z).
  - intro c.
    apply (contract_onehot nr row j _
             (fun r => Rsum_n (length bnd)
                         (fun b => ind (lab_is bnd i b) * z b r c))%R).
    intro r. apply (contract_onehot nb bnd i). intro b. reflexivity.
Qed.

Lemma tri_block_count (bnd row col : list nat) (nb nr nc i j k : nat) :
  i < nb -> j < nr -> k < nc ->
  INR (TriclusteringNumpy.nel_clusters (bincount bnd nb) (bincount row nr)
                                       (bincount col nc) i j k)
  = INR (block_count3 bnd row col i j k).
Proof.
  intros Hi Hj Hk. unfold TriclusteringNumpy.nel_clusters.
  rewrite !bincount_nth by assumption.
  rewrite !mult_INR, !count_occ_Rsum, INR_block_count3.
  unfold block_sum3, in_block3.
  transitivity
    (Rsum_n (length col) (fun c => ind (lab_is col k c) *
       Rsum_n (length row) (fun r => ind (lab_is row j r) *
         Rsum_n (length bnd) (fun b => ind (lab_is bnd i b) * 1)))%R);
    [| exact (contract3 (length bnd) (length row) (length col)
                (lab_is bnd i) (lab_is row j) (lab_is col k)
                (fun _ _ _ => 1%R))].
  change (fun p => ind (nth p bnd 0 =? i)) with (fun p => ind (lab_is bnd i p)).
  change (fun p => ind (nth p row 0 =? j)) with (fun p => ind (lab_is row j p)).
  change (fun p => ind (nth p col 0 =? k)) with (fun p => ind (lab_is col k p)).
  set (SB := Rsum_n (length bnd) (fun p => ind (lab_is bnd i p))).
  set (SR := Rsum_n (length row) (fun p => ind (lab_is row j p))).
  set (SC := Rsum_n (length col) (fun p => ind (lab_is col k p))).
  assert (HB : Rsum_n (length bnd)
                 (fun b => ind (lab_is bnd i b) * 1)%R = SB).
  { apply Rsum_n_ext. intros b _. lra. }
  assert (HR : Rsum_n (length row) (fun r => ind (lab_is row j r) * SB)%R
               = (SR * SB)%R).
  { symmetry. apply Rsum_n_scal_r. }
  transitivity
    (Rsum_n (length col) (fun c => ind (lab_is col k c) * (SR * SB)))%R.
  - rewrite <- Rsum_n_scal_r. fold SC. ring.
  - apply Rsum_n_ext. intros c _. f_equal. rewrite <- HR.
    apply Rsum_n_ext. intros r _. f_equal. symmetry. exact HB.
Qed.

Lemma tri_block_average_value (z : nat -> nat -> nat -> R)
    (bnd row col : list nat) (nb nr nc i j k : nat) (g e : R) :
  (0 < e)%R -> i < nb -> j < nr -> k < nc ->
  at3 (TriclusteringNumpy.block_averages
         (lift3 (length bnd) (length row) (length col) z)
         (onehot nb bnd) (onehot nr row) (onehot nc col)
         (TriclusteringNumpy.nel_clusters (bincount bnd nb) (bincount row nr)
                                          (bincount col nc))
         (Fin g) (Fin e)) i j k
  = Fin ((block_sum3 z bnd row col i j k + g * e)
         / (INR (block_count3 bnd row col i j k) + e))%R.
Proof.
  intros He Hi Hj Hk. unfold TriclusteringNumpy.block_averages.
  cbv zeta. cbn [at3]. rewrite tri_block_sums. unfold of_nat.
  rewrite (tri_block_count bnd row col nb nr nc i j k Hi Hj Hk).
  cbn [fadd fmul]. apply fdiv_Fin.
  pose proof (pos_INR (block_count3 bnd row col i j k)). lra.
Qed.

Lemma contract2 (m n : nat) (pR pC : nat -> bool) (z : nat -> nat -> R) :
  Rsum_n n (fun c => Rsum_n m (fun r => ind (pR r) * z r c) * ind (pC c))%R
  = Rsum_n m (fun r => Rsum_n n (fun c =>
      if pR r && pC c then z r c else 0%R)).
Proof.
  transitivity
    (Rsum_n n (fun c => Rsum_n m (fun r =>
       if pR r && pC c then z r c else 0%R))).
  - apply Rsum_n_ext. intros c _. rewrite Rsum_n_scal_r.
    apply Rsum_n_ext. intros r _. unfold ind.
    destruct (pR r), (pC c); simpl; lra.
  - apply (Rsum_n_swap n m
             (fun c r => if pR r && pC c then z r c else 0%R)).
Qed.

Lemma dask_block_sums (z : nat -> nat -> R) (row col : list nat)
    (k l i j : nat) :
  at2 (dot (dot (transpose2 (onehot k row))
                (lift2 (length row) (length col) z))
           (onehot l col)) i j
  = Fin (block_sum2 z row col i j).
Proof.
  unfold dot, transpose2. cbn [at2 rows cols lift2].
  change (cols (onehot k row)) with k.
  change (rows (onehot k row)) with (length row).
  rewrite (fsum_n_Fin (length col) _
             (fun c => Rsum_n (length row)
                         (fun r => ind (lab_is row i r) * z r c)
                       * ind (lab_is col j c))%R).
  - f_equal. unfold block_sum2, in_block2.
    apply (contract2 (length row) (length col) (lab_is row i) (lab_is col j) z).
  - intros c _.
    rewrite (fsum_n_Fin (length row) _
               (fun r => ind (lab_is row i r) * z r c)%R).
    + rewrite onehot_entry. reflexivity.
    + intros r _. rewrite onehot_entry. reflexivity.
Qed.

Lemma dask_block_average_value (z : nat -> nat -> R) (row col : list nat)
    (k l i j : nat) (g e : R) :
  (0 < e)%R ->
  at2 (CoclusteringDask.block_averages
         (lift2 (length row) (length col) z) (onehot k row) (onehot l col)
         (Fin g) (Fin e)) i j
  = Fin ((block_sum2 z row col i j + g * e)
         / (INR (block_count2 row col i j) + e))%R.
Proof.
  intro He. unfold CoclusteringDask.block_averages, div2, add_scalar2.
  cbv zeta. cbn [at2 rows cols lift2].
  change (ones (length row) (length col))
    with (lift2 (length row) (length col) (fun _ _ => 1%R)).
  rewrite !dask_block_sums. rewrite <- INR_block_count2.
  cbn [fadd fmul]. apply fdiv_Fin.
  pose proof (pos_INR (block_count2 row col i j)). lra.
Qed.

(** C7: on finite data, with [epsilon > 0], the cell (i, j, k) of the
    tri-cluster averages computed by the three contractions, and the
    cell (i, j) of the co-cluster averages computed by the matrix
    products, is
    (sum of the elements of the block + Gavg * epsilon)
      / (number of elements of the block + epsilon);
    the count comes from a bin for every cluster, so an empty block counts
    zero elements. *)
Theorem block_average_formula
    (z : nat -> nat -> nat -> R) (bnd row col : list nat)
    (z2 : nat -> nat -> R) (row2 col2 : list nat)
    (nb nr nc i j k : nat) (g e : R) :
  (0 < e)%R -> i < nb -> j < nr -> k < nc ->
  at3 (TriclusteringNumpy.block_averages
         (lift3 (length bnd) (length row) (length col) z)
         (onehot nb bnd) (onehot nr row) (onehot nc col)
         (TriclusteringNumpy.nel_clusters (bincount bnd nb) (bincount row nr)
                                          (bincount col nc))
         (Fin g) (Fin e)) i j k
  = Fin ((block_sum3 z bnd row col i j k + g * e)
         / (INR (block_count3 bnd row col i j k) + e))%R
  /\
  at2 (CoclusteringDask.block_averages
         (lift2 (length row2) (length col2) z2)
         (onehot nr row2) (onehot nc col2) (Fin g) (Fin e)) j k
  = Fin ((block_sum2 z2 row2 col2 j k + g * e)
         / (INR (block_count2 row2 col2 j k) + e))%R.
Proof.
  intros He Hi Hj Hk. split.
  - apply tri_block_average_value; assumption.
  - apply dask_block_average_value; assumption.
Qed.

Lemma Rsum_n_all_zero (n : nat) (f : nat -> R) :
  (forall i, i < n -> f i = 0%R) -> Rsum_n n f = 0%R.
Proof.
  intro H. rewrite (Rsum_n_ext n f (fun _ => 0%R) H). apply Rsum_n_zero.
Qed.

(** An empty block gets the global mean. *)
Corollary empty_block_average (z : nat -> nat -> nat -> R)
    (bnd row col : list nat) (nb nr nc i j k : nat) (g e : R) :
  (0 < e)%R -> i < nb -> j < nr -> k < nc ->
  (forall b r c, in_block3 bnd row col i j k b r c = false) ->
  at3 (TriclusteringNumpy.block_averages
         (lift3 (length bnd) (length row) (length col) z)
         (onehot nb bnd) (onehot nr row) (onehot nc col)
         (TriclusteringNumpy.nel_clusters (bincount bnd nb) (bincount row nr)
                                          (bincount col nc))
         (Fin g) (Fin e)) i j k
  = Fin g.
Proof.
  intros He Hi Hj Hk Hempty.
  rewrite tri_block_average_value by assumption. f_equal.
  assert (Hsum : forall w, block_sum3 w bnd row col i j k = 0%R).
  { intro w. unfold block_sum3.
    apply Rsum_n_all_zero. intros b _.
    apply Rsum_n_all_zero. intros r _.
    apply Rsum_n_all_zero. intros c _.
    rewrite Hempty. reflexivity. }
  rewrite INR_block_count3, !Hsum. field. lra.
Qed.

Lemma block_average_formula_witness :
  let lab := [0; 1] in
  at3 (TriclusteringNumpy.block_averages
         (lift3 (length lab) (length lab) (length lab) (fun _ _ _ => 1%R))
         (onehot 2 lab) (onehot 2 lab) (onehot 2 lab)
         (TriclusteringNumpy.nel_clusters (bincount lab 2) (bincount lab 2)
                                          (bincount lab 2))
         (Fin 1) (Fin 1)) 0 0 0
  = Fin ((block_sum3 (fun _ _ _ => 1) lab lab lab O O O + 1 * 1)
         / (INR (block_count3 lab lab lab O O O) + 1))%R
  /\
  at2 (CoclusteringDask.block_averages
         (lift2 (length lab) (length lab) (fun _ _ => 1%R))
         (onehot 2 lab) (onehot 2 lab) (Fin 1) (Fin 1)) 0 0
  = Fin ((block_sum2 (fun _ _ => 1) lab lab O O + 1 * 1)
         / (INR (block_count2 lab lab O O) + 1))%R.
Proof.
  cbv zeta.
  apply (block_average_formula (fun _ _ _ => 1%R) [0; 1] [0; 1] [0; 1]
           (fun _ _ => 1%R) [0; 1] [0; 1] 2 2 2 0 0 0 1%R 1%R);
    try lia; lra.
Defined.

(** ** The objective *)

(** Selecting through a one-hot row is a lookup. *)
Lemma Rsum_n_select (n v : nat) (g : nat -> R) :
  v < n -> Rsum_n n (fun j => ind (v =? j) * g j)%R = g v.
Proof.
  induction n as [|n IH]; intro Hv; [lia|].
  simpl. destruct (Nat.eq_dec v n) as [->|Hne].
  - rewrite Nat.eqb_refl. unfold ind at 2.
    rewrite Rsum_n_all_zero; [lra|].
    intros i Hi. destruct (Nat.eqb_spec n i); [lia|]. unfold ind. lra.
  - rewrite IH by lia. destruct (Nat.eqb_spec v n); [contradiction|].
    unfold ind. lra.
Qed.

Lemma onehot_select (n : nat) (idx : list nat) (p : nat)
    (f : nat -> float) (g : nat -> R) :
  nth p idx 0 < n ->
  (forall j, j < n -> f j = Fin (g j)) ->
  fsum_n n (fun j => fmul (at2 (onehot n idx) p j) (f j))
  = Fin (g (nth p idx 0)).
Proof.
  intros Hv Hf.
  rewrite (fsum_n_Fin n _ (fun j => ind (lab_is idx j p) * g j)%R).
  - unfold lab_is. rewrite Rsum_n_select by exact Hv. reflexivity.
  - intros j Hj. rewrite onehot_entry, Hf by exact Hj. reflexivity.
Qed.

(** [np.min] of a vector of finite values is their least value. *)
Lemma scan_min_value (l : list R) :
  forall (i j : nat) (rv : R),
    snd (scan flt (map Fin l) i (j, Fin rv)) = Fin (fold_left Rmin l rv).
Proof.
  induction l as [|y l IH]; intros i j rv; [reflexivity|].
  cbn [map scan snd isnan orb fold_left].
  unfold Rmin at 2.
  destruct (flt (Fin y) (Fin rv)) eqn:E.
  - apply flt_Fin in E. rewrite IH. f_equal.
    destruct (Rle_dec rv y); [lra | reflexivity].
  - apply flt_Fin_false in E. rewrite IH. f_equal.
    destruct (Rle_dec rv y); [reflexivity | lra].
Qed.

Lemma scan_row_min (a : array2) (i : nat) (r : nat -> R) :
  0 < cols a ->
  (forall l, l < cols a -> at2 a i l = Fin (r l)) ->
  snd (scan_row a i) = Fin (Rmin_n (cols a) r).
Proof.
  intros Hc H. unfold scan_row, min_scan, Rmin_n.
  rewrite (H 0 Hc).
  rewrite (map_ext_in (at2 a i) (fun l => Fin (r l))).
  - rewrite <- (map_map r Fin). apply scan_min_value.
  - intros l Hl. apply in_seq in Hl. apply H. lia.
Qed.

Lemma scan_index_bound (better : float -> float -> bool) (l : list float) :
  forall (i j : nat) (v : float),
    fst (scan better l i (j, v)) = j \/
    i <= fst (scan better l i (j, v)) < i + length l.
Proof.
  induction l as [|y l IH]; intros i j v; [left; reflexivity|].
  cbn [scan snd length].
  destruct (isnan v).
  - destruct (IH (S i) j v) as [H | H]; [left; exact H | right; lia].
  - destruct (isnan y || better y v).
    + destruct (IH (S i) i y) as [H | H]; right; lia.
    + destruct (IH (S i) j v) as [H | H]; [left; exact H | right; lia].
Qed.

Lemma scan_row_index (a : array2) (i : nat) :
  0 < cols a -> fst (scan_row a i) < cols a.
Proof.
  intro Hc. unfold scan_row, min_scan.
  destruct (scan_index_bound flt (map (at2 a i) (seq 1 (cols a - 1)))
              1 0 (at2 a i 0)) as [H | H].
  - rewrite H. exact Hc.
  - rewrite length_map, length_seq in H. lia.
Qed.

Lemma fsum_Fin_seq (n : nat) (h : nat -> R) :
  fsum (map (fun b => Fin (h b)) (seq 0 n)) = Fin (Rsum_n n h).
Proof.
  unfold fsum. induction n as [|n IH]; [reflexivity|].
  rewrite seq_S, map_app, fold_left_app, IH. reflexivity.
Qed.

Lemma min_axis1_value (a : array2) (r : nat -> nat -> R) :
  0 < cols a ->
  (forall i l, i < rows a -> l < cols a -> at2 a i l = Fin (r i l)) ->
  exists minvals,
    min_axis1 a = Some minvals /\
    fsum minvals = Fin (Rsum_n (rows a) (fun i => Rmin_n (cols a) (r i))).
Proof.
  intros Hc H. unfold min_axis1.
  destruct (Nat.eqb_spec (cols a) 0); [lia|].
  eexists. split; [reflexivity|].
  rewrite (map_ext_in _ (fun i => Fin (Rmin_n (cols a) (r i)))).
  - apply fsum_Fin_seq.
  - intros i Hi. apply in_seq in Hi. apply scan_row_min; [exact Hc|].
    intros l Hl. apply H; lia.
Qed.

Lemma argmin_axis1_some (a : array2) :
  0 < cols a ->
  exists idx, argmin_axis1 a = Some idx /\
              length idx = rows a /\
              Forall (fun c => c < cols a) idx.
Proof.
  intro Hc. unfold argmin_axis1.
  destruct (Nat.eqb_spec (cols a) 0); [lia|].
  eexists. split; [reflexivity|]. split.
  - rewrite length_map, length_seq. reflexivity.
  - apply Forall_forall. intros c Hin. apply in_map_iff in Hin.
    destruct Hin as (i & <- & _). apply scan_row_index. exact Hc.
Qed.

Lemma tri_distance_value_gen (Z Y : array3) (z y : nat -> nat -> R)
    (e : R) (i l : nat) :
  dim1 Y = dim1 Z -> dim2 Y = dim2 Z ->
  (forall j k, j < dim1 Z -> k < dim2 Z -> at3 Z i j k = Fin (z j k)) ->
  (forall j k, j < dim1 Z -> k < dim2 Z -> at3 Y l j k = Fin (y j k)) ->
  (forall j k, j < dim1 Z -> k < dim2 Z -> (0 < y j k + e)%R) ->
  at2 (TriclusteringNumpy._distance Z Y (Fin e)) i l
  = Fin (Rsum_n (dim1 Z) (fun j => Rsum_n (dim2 Z) (fun k => y j k + e))
         - Rsum_n (dim1 Z) (fun j => Rsum_n (dim2 Z)
                                       (fun k => z j k * ln (y j k + e))))%R.
Proof.
  intros H1 H2 HZ HY Hpos. unfold TriclusteringNumpy._distance.
  cbn [at2 at3 dim1 dim2]. rewrite H1, H2.
  rewrite (fsum_n_Fin2 (dim1 Z) (dim2 Z) _ (fun j k => (y j k + e)%R)).
  - rewrite (fsum_n_Fin2 (dim1 Z) (dim2 Z) _
               (fun j k => (z j k * ln (y j k + e))%R)).
    + reflexivity.
    + intros j k Hj Hk. rewrite HZ, HY by assumption. cbn [fadd].
      rewrite flog_pos by (apply Hpos; assumption). reflexivity.
  - intros j k Hj Hk. rewrite HY by assumption. reflexivity.
Qed.

Lemma eye_rows_valid (n : nat) (idx : list nat) :
  Forall (fun c => c < n) idx -> eye_rows n idx = Some (onehot n idx).
Proof.
  intro H. unfold eye_rows.
  replace (forallb (fun c => c <? n) idx) with true; [reflexivity|].
  symmetry. apply forallb_forall. rewrite Forall_forall in H.
  intros c Hc. apply Nat.ltb_lt. auto.
Qed.

Lemma Forall_nth_lt (n : nat) (idx : list nat) (p : nat) :
  Forall (fun c => c < n) idx -> p < length idx -> nth p idx 0 < n.
Proof.
  intros H Hp. rewrite Forall_forall in H. apply H. apply nth_In. exact Hp.
Qed.

Lemma block_sum3_nonneg (z : nat -> nat -> nat -> R) (bnd row col : list nat)
    (i j k : nat) :
  (forall b r c, 0 <= z b r c)%R -> (0 <= block_sum3 z bnd row col i j k)%R.
Proof.
  intro Hz. unfold block_sum3.
  apply Rsum_n_nonneg. intros b _. apply Rsum_n_nonneg. intros r _.
  apply Rsum_n_nonneg. intros c _.
  destruct (in_block3 bnd row col i j k b r c); [apply Hz | lra].
Qed.

Lemma avg3_nonneg (z : nat -> nat -> nat -> R) (bnd row col : list nat)
    (g e : R) (i j k : nat) :
  (0 < e)%R -> (0 <= g)%R -> (forall b r c, 0 <= z b r c)%R ->
  (0 <= avg3 z bnd row col g e i j k)%R.
Proof.
  intros He Hg Hz. unfold avg3.
  pose proof (block_sum3_nonneg z bnd row col i j k Hz).
  pose proof (pos_INR (block_count3 bnd row col i j k)).
  apply Rmult_le_pos; [nra|]. apply Rlt_le, Rinv_0_lt_compat. lra.
Qed.

(** The unpacked averages used for the band assignment. *)
Lemma tri_unpack_bnd (z : nat -> nat -> nat -> R) (bnd row col : list nat)
    (nb nr nc : nat) (g e : R) (l r c : nat) :
  (0 < e)%R ->
  Forall (fun x => x < nr) row -> Forall (fun x => x < nc) col ->
  l < nb -> r < length row -> c < length col ->
  at3 (TriclusteringNumpy.einsum_ij_klj_kli (onehot nc col)
         (TriclusteringNumpy.einsum_ij_kjl_kil (onehot nr row)
            (TriclusteringNumpy.block_averages
               (lift3 (length bnd) (length row) (length col) z)
               (onehot nb bnd) (onehot nr row) (onehot nc col)
               (TriclusteringNumpy.nel_clusters
                  (bincount bnd nb) (bincount row nr) (bincount col nc))
               (Fin g) (Fin e)))) l r c
  = Fin (avg3 z bnd row col g e l (nth r row 0) (nth c col 0)).
Proof.
  intros He Hrow Hcol Hl Hr Hc.
  unfold TriclusteringNumpy.einsum_ij_klj_kli at 1. cbn [at3].
  change (cols (onehot nc col)) with nc.
  apply (onehot_select nc col c _
           (fun j => avg3 z bnd row col g e l (nth r row 0) j)).
  - apply Forall_nth_lt; assumption.
  - intros j Hj.
    unfold TriclusteringNumpy.einsum_ij_kjl_kil at 1. cbn [at3].
    change (cols (onehot nr row)) with nr.
    apply (onehot_select nr row r _
             (fun j' => avg3 z bnd row col g e l j' j)).
    + apply Forall_nth_lt; assumption.
    + intros j' Hj'. apply tri_block_average_value; assumption.
Qed.

Section TriObjective.
Import TriclusteringNumpy.

Variables (z : nat -> nat -> nat -> R) (bnd row col : list nat).
Variables (nb nr nc : nat) (g e : R).

Hypothesis He : (0 < e)%R.
Hypothesis Hg : (0 <= g)%R.
Hypothesis Hz : forall b r c, (0 <= z b r c)%R.
Hypothesis Hrow : Forall (fun x => x < nr) row.
Hypothesis Hcol : Forall (fun x => x < nc) col.
Hypothesis Hbnd : Forall (fun x => x < nb) bnd.
Hypothesis Hnb : 0 < nb.
Hypothesis Hnr : 0 < nr.
Hypothesis Hnc : 0 < nc.

Let Zarr := lift3 (length bnd) (length row) (length col) z.

Lemma tri_d_bnd_value (b l : nat) :
  b < length bnd -> l < nb ->
  at2 (_distance Zarr
         (einsum_ij_klj_kli (onehot nc col)
            (einsum_ij_kjl_kil (onehot nr row)
               (block_averages Zarr (onehot nb bnd) (onehot nr row)
                  (onehot nc col)
                  (nel_clusters (bincount bnd nb) (bincount row nr)
                                (bincount col nc))
                  (Fin g) (Fin e))))
         (Fin e)) b l
  = Fin (divergence_bnd z bnd row col g e b l).
Proof.
  intros Hb Hl. unfold divergence_bnd.
  apply (tri_distance_value_gen Zarr _ (fun r c => z b r c)
           (fun r c => avg3 z bnd row col g e l (nth r row 0) (nth c col 0))).
  - reflexivity.
  - reflexivity.
  - intros; reflexivity.
  - intros r c Hr Hc. apply tri_unpack_bnd; assumption.
  - intros r c _ _.
    pose proof (avg3_nonneg z bnd row col g e l (nth r row 0) (nth c col 0)
                  He Hg Hz). lra.
Qed.

(** One pass of the loop body on valid labels: it returns, the new
    labels are valid again, and the error is the band objective. *)
Lemma tri_loop_body_value :
  exists p,
    loop_body Zarr nr nc nb (Fin e) (Fin g) row col bnd = Some p /\
    p_e p = Fin (band_objective z bnd row col nb g e) /\
    (length (p_row p) = length row /\ Forall (fun x => x < nr) (p_row p)) /\
    (length (p_col p) = length col /\ Forall (fun x => x < nc) (p_col p)) /\
    (length (p_bnd p) = length bnd /\ Forall (fun x => x < nb) (p_bnd p)).
Proof.
  unfold loop_body, _setup_cluster_matrix.
  rewrite (eye_rows_valid nr row Hrow), (eye_rows_valid nc col Hcol),
    (eye_rows_valid nb bnd Hbnd).
  cbv zeta.
  change (rows (onehot nb bnd)) with (length bnd).
  change (rows (onehot nr row)) with (length row).
  change (rows (onehot nc col)) with (length col).
  change (dim0 Zarr) with (length bnd).
  change (dim1 Zarr) with (length row).
  change (dim2 Zarr) with (length col).
  rewrite !Nat.eqb_refl. cbn [andb].
  set (TriCavg := block_averages Zarr (onehot nb bnd) (onehot nr row)
                    (onehot nc col)
                    (nel_clusters (bincount bnd nb) (bincount row nr)
                                  (bincount col nc))
                    (Fin g) (Fin e)).
  set (d_row := _distance (transpose_102 Zarr) _ (Fin e)).
  set (d_col := _distance (transpose_201 Zarr) _ (Fin e)).
  set (d_bnd := _distance Zarr _ (Fin e)).
  assert (Hcr : cols d_row = nr) by reflexivity.
  assert (Hcc : cols d_col = nc) by reflexivity.
  assert (Hcb : cols d_bnd = nb) by reflexivity.
  assert (Hrr : rows d_row = length row) by reflexivity.
  assert (Hrc : rows d_col = length col) by reflexivity.
  assert (Hrb : rows d_bnd = length bnd) by reflexivity.
  destruct (argmin_axis1_some d_row) as (row' & Er & Hlr & Hfr); [lia|].
  destruct (argmin_axis1_some d_col) as (col' & Ec & Hlc & Hfc); [lia|].
  destruct (argmin_axis1_some d_bnd) as (bnd' & Eb & Hlb & Hfb); [lia|].
  destruct (min_axis1_value d_bnd (divergence_bnd z bnd row col g e))
    as (minvals & Em & Hsum).
  - lia.
  - intros b l Hb Hl. rewrite Hrb in Hb. rewrite Hcb in Hl.
    apply tri_d_bnd_value; assumption.
  - rewrite Er, Ec, Eb, Em. eexists. split; [reflexivity|].
    cbn [p_e p_row p_col p_bnd]. rewrite Hsum, Hrb, Hcb.
    rewrite Hcr in Hfr. rewrite Hcc in Hfc. rewrite Hcb in Hfb.
    rewrite Hrr in Hlr. rewrite Hrc in Hlc. rewrite Hrb in Hlb.
    split; [reflexivity|]. auto.
Qed.

End TriObjective.

Lemma dask_distance_value_gen (Z X Y : array2) (z y : nat -> R)
    (e : R) (i l : nat) :
  cols X = cols Z ->
  (forall t, t < cols Z -> at2 X i t = Fin 1) ->
  (forall t, t < cols Z -> at2 Z i t = Fin (z t)) ->
  (forall t, t < cols Z -> at2 Y t l = Fin (y t)) ->
  (forall t, t < cols Z -> (0 < y t + e)%R) ->
  at2 (CoclusteringDask._distance Z X Y (Fin e)) i l
  = Fin (Rsum_n (cols Z) (fun t => y t + e)
         - Rsum_n (cols Z) (fun t => z t * ln (y t + e)))%R.
Proof.
  intros HX H1 HZ HY Hpos.
  unfold CoclusteringDask._distance, dot, add_scalar2.
  cbn [at2 rows cols]. rewrite HX.
  rewrite (fsum_n_Fin (cols Z) _ (fun t => (y t + e)%R)).
  - rewrite (fsum_n_Fin (cols Z) _ (fun t => (z t * ln (y t + e))%R)).
    + reflexivity.
    + intros t Ht. rewrite HZ, HY by assumption. cbn [fadd].
      rewrite flog_pos by (apply Hpos; assumption). reflexivity.
  - intros t Ht. rewrite H1, HY by assumption. cbn [fadd fmul].
    f_equal. lra.
Qed.

Lemma block_sum2_nonneg (z : nat -> nat -> R) (row col : list nat)
    (i j : nat) :
  (forall r c, 0 <= z r c)%R -> (0 <= block_sum2 z row col i j)%R.
Proof.
  intro Hz. unfold block_sum2.
  apply Rsum_n_nonneg. intros r _. apply Rsum_n_nonneg. intros c _.
  destruct (in_block2 row col i j r c); [apply Hz | lra].
Qed.

Lemma avg2_nonneg (z : nat -> nat -> R) (row col : list nat)
    (g e : R) (i j : nat) :
  (0 < e)%R -> (0 <= g)%R -> (forall r c, 0 <= z r c)%R ->
  (0 <= avg2 z row col g e i j)%R.
Proof.
  intros He Hg Hz. unfold avg2.
  pose proof (block_sum2_nonneg z row col i j Hz).
  pose proof (pos_INR (block_count2 row col i j)).
  apply Rmult_le_pos; [nra|]. apply Rlt_le, Rinv_0_lt_compat. lra.
Qed.

Section DaskObjective.

Variables (z : nat -> nat -> R) (row col : list nat).
Variables (k l : nat) (g e : R) (errobj : float).

Hypothesis He : (0 < e)%R.
Hypothesis Hg : (0 <= g)%R.
Hypothesis Hz : forall r c, (0 <= z r c)%R.
Hypothesis Hk : 0 < k.
Hypothesis Hl : 0 < l.

Let Zarr := lift2 (length row) (length col) z.
Let CoCavg :=
  CoclusteringDask.block_averages Zarr (onehot k row) (onehot l col)
                                  (Fin g) (Fin e).

Lemma dask_d_col_value (row' : list nat) (c j : nat) :
  length row' = length row ->
  Forall (fun x => x < k) row' ->
  c < length col -> j < l ->
  at2 (CoclusteringDask._distance (transpose2 Zarr) (ones (length col) (length row))
                 (dot (onehot k row') CoCavg) (Fin e)) c j
  = Fin (divergence_col z row col row' g e c j).
Proof.
  intros Hlen Hvalid Hc Hj. unfold divergence_col.
  apply (dask_distance_value_gen (transpose2 Zarr) _ _ (fun r => z r c)
           (fun r => avg2 z row col g e (nth r row' 0) j)).
  - reflexivity.
  - intros; reflexivity.
  - intros; reflexivity.
  - intros r Hr. change (cols (transpose2 Zarr)) with (length row) in Hr.
    unfold dot. cbn [at2].
    change (cols (onehot k row')) with k.
    apply (onehot_select k row' r _ (fun t => avg2 z row col g e t j)).
    + apply Forall_nth_lt; [exact Hvalid | lia].
    + intros t _. apply dask_block_average_value. exact He.
  - intros r _.
    pose proof (avg2_nonneg z row col g e (nth r row' 0) j He Hg Hz). lra.
Qed.

(** One pass of the dask loop body from the occupancy matrices of the
    labels [row], [col]. *)
Lemma dask_iteration_value (st : CoclusteringDask.state) :
  CoclusteringDask.R st = onehot k row ->
  CoclusteringDask.C st = onehot l col ->
  exists st' row' col',
    CoclusteringDask.iteration Zarr k l errobj (Fin e) (Fin g) st = Some st' /\
    CoclusteringDask.row_clusters st' = Some row' /\
    CoclusteringDask.col_clusters st' = Some col' /\
    CoclusteringDask.R st' = onehot k row' /\
    CoclusteringDask.C st' = onehot l col' /\
    length row' = length row /\ Forall (fun x => x < k) row' /\
    length col' = length col /\ Forall (fun x => x < l) col' /\
    CoclusteringDask.e st' = Fin (col_objective z row col row' l g e) /\
    CoclusteringDask.old_e st' = CoclusteringDask.e st /\
    CoclusteringDask.s st' = S (CoclusteringDask.s st) /\
    CoclusteringDask.converged st'
    = flt (fabs (fsub (CoclusteringDask.e st') (CoclusteringDask.e st)))
          errobj.
Proof.
  intros HR HC. unfold CoclusteringDask.iteration. rewrite HR, HC. cbv zeta.
  change (rows (onehot k row)) with (length row).
  change (rows (onehot l col)) with (length col).
  change (rows Zarr) with (length row).
  change (cols Zarr) with (length col).
  rewrite !Nat.eqb_refl. cbn [andb].
  fold Zarr. fold CoCavg.
  set (d_row := CoclusteringDask._distance Zarr _ _ (Fin e)).
  assert (Hcr : cols d_row = k) by reflexivity.
  assert (Hrr : rows d_row = length row) by reflexivity.
  destruct (argmin_axis1_some d_row) as (row' & Er & Hlr & Hfr); [lia|].
  rewrite Er. rewrite Hcr in Hfr. rewrite Hrr in Hlr.
  rewrite (eye_rows_valid k row' Hfr).
  set (d_col := CoclusteringDask._distance (transpose2 Zarr) _ _ (Fin e)).
  assert (Hcc : cols d_col = l) by reflexivity.
  assert (Hrc : rows d_col = length col) by reflexivity.
  destruct (argmin_axis1_some d_col) as (col' & Ec & Hlc & Hfc); [lia|].
  rewrite Ec. rewrite Hcc in Hfc. rewrite Hrc in Hlc.
  destruct (min_axis1_value d_col (divergence_col z row col row' g e))
    as (minvals & Em & Hsum).
  - lia.
  - intros c j Hc Hj. rewrite Hrc in Hc. rewrite Hcc in Hj.
    apply dask_d_col_value; assumption.
  - rewrite Em. rewrite (eye_rows_valid l col' Hfc).
    eexists; exists row', col'. split; [reflexivity|].
    cbn [CoclusteringDask.row_clusters CoclusteringDask.col_clusters
         CoclusteringDask.R CoclusteringDask.C CoclusteringDask.e
         CoclusteringDask.old_e CoclusteringDask.s
         CoclusteringDask.converged].
    rewrite Hsum, Hrc, Hcc.
    repeat (split; [first [reflexivity | assumption]|]). reflexivity.
Qed.

End DaskObjective.

(** One iteration of [triclustering] on valid labels. *)
Lemma tri_iteration_value
    (z : nat -> nat -> nat -> R) (nr nc nb : nat) (g e : R) (errobj : float)
    (st : TriclusteringNumpy.state) :
  let row := TriclusteringNumpy.row_clusters st in
  let col := TriclusteringNumpy.col_clusters st in
  let bnd := TriclusteringNumpy.bnd_clusters st in
  (0 < e)%R -> (0 <= g)%R -> (forall b r c, 0 <= z b r c)%R ->
  0 < nr -> 0 < nc -> 0 < nb ->
  Forall (fun x => x < nr) row ->
  Forall (fun x => x < nc) col ->
  Forall (fun x => x < nb) bnd ->
  exists st',
    TriclusteringNumpy.iteration
      (lift3 (length bnd) (length row) (length col) z)
      nr nc nb errobj (Fin e) (Fin g) st = Some st' /\
    TriclusteringNumpy.e st' = Fin (band_objective z bnd row col nb g e) /\
    TriclusteringNumpy.old_e st' = TriclusteringNumpy.e st /\
    TriclusteringNumpy.s st' = S (TriclusteringNumpy.s st) /\
    TriclusteringNumpy.converged st'
    = flt (fabs (fsub (TriclusteringNumpy.e st') (TriclusteringNumpy.e st)))
          errobj /\
    (length (TriclusteringNumpy.row_clusters st') = length row /\
     Forall (fun x => x < nr) (TriclusteringNumpy.row_clusters st')) /\
    (length (TriclusteringNumpy.col_clusters st') = length col /\
     Forall (fun x => x < nc) (TriclusteringNumpy.col_clusters st')) /\
    (length (TriclusteringNumpy.bnd_clusters st') = length bnd /\
     Forall (fun x => x < nb) (TriclusteringNumpy.bnd_clusters st')).
Proof.
  intros row col bnd He Hg Hz Hnr Hnc Hnb Hrow Hcol Hbnd.
  destruct (tri_loop_body_value z bnd row col nb nr nc g e
              He Hg Hz Hrow Hcol Hbnd Hnb Hnr Hnc)
    as (p & Hp & Hpe & Hr & Hc & Hb).
  unfold TriclusteringNumpy.iteration. fold row col bnd. rewrite Hp.
  eexists. split; [reflexivity|].
  cbn [TriclusteringNumpy.e TriclusteringNumpy.old_e TriclusteringNumpy.s
       TriclusteringNumpy.converged TriclusteringNumpy.row_clusters
       TriclusteringNumpy.col_clusters TriclusteringNumpy.bnd_clusters].
  rewrite Hpe. repeat (split; [first [reflexivity | assumption]|]).
  assumption.
Qed.

(** C6: in an iteration of either optimizer (finite non-negative data,
    [epsilon > 0], valid labels) the new error is the sum, over the
    positions of the last axis processed, of the least divergence of that
    position from a candidate cluster of that axis: the band axis in
    [triclustering], the column axis in the dask [coclustering].  The
    divergences of the other axes do not enter. *)
Theorem objective_is_last_axis_divergence
    (z3 : nat -> nat -> nat -> R) (nr nc nb : nat)
    (st3 : TriclusteringNumpy.state)
    (z2 : nat -> nat -> R) (row2 col2 : list nat) (k l : nat)
    (st2 : CoclusteringDask.state)
    (g e : R) (errobj : float) :
  let row := TriclusteringNumpy.row_clusters st3 in
  let col := TriclusteringNumpy.col_clusters st3 in
  let bnd := TriclusteringNumpy.bnd_clusters st3 in
  (0 < e)%R -> (0 <= g)%R ->
  (forall b r c, 0 <= z3 b r c)%R -> (forall r c, 0 <= z2 r c)%R ->
  0 < nr -> 0 < nc -> 0 < nb -> 0 < k -> 0 < l ->
  Forall (fun x => x < nr) row ->
  Forall (fun x => x < nc) col ->
  Forall (fun x => x < nb) bnd ->
  CoclusteringDask.R st2 = onehot k row2 ->
  CoclusteringDask.C st2 = onehot l col2 ->
  (exists st',
     TriclusteringNumpy.iteration
       (lift3 (length bnd) (length row) (length col) z3)
       nr nc nb errobj (Fin e) (Fin g) st3 = Some st' /\
     TriclusteringNumpy.e st' = Fin (band_objective z3 bnd row col nb g e))
  /\
  (exists st' row',
     CoclusteringDask.iteration
       (lift2 (length row2) (length col2) z2) k l errobj (Fin e) (Fin g) st2
     = Some st' /\
     CoclusteringDask.row_clusters st' = Some row' /\
     CoclusteringDask.e st' = Fin (col_objective z2 row2 col2 row' l g e)).
Proof.
  intros row col bnd He Hg Hz3 Hz2 Hnr Hnc Hnb Hk Hl Hrow Hcol Hbnd HR HC.
  split.
  - destruct (tri_iteration_value z3 nr nc nb g e errobj st3
                He Hg Hz3 Hnr Hnc Hnb Hrow Hcol Hbnd)
      as (st' & Hit & Hev & _).
    exists st'. split; assumption.
  - destruct (dask_iteration_value z2 row2 col2 k l g e errobj
                He Hg Hz2 Hk Hl st2 HR HC)
      as (st' & row' & col' & Hit & Hrw & _ & _ & _ & _ & _ & _ & _ & Hev & _).
    exists st', row'. repeat split; assumption.
Qed.

Lemma objective_is_last_axis_divergence_witness :
  let st3 := TriclusteringNumpy.mk_state false 0 [0; 1] [0; 1] [0; 1]
                                          (Fin 2) (Fin 0) in
  let st2 := CoclusteringDask.mk_state false 0 (onehot 2 [0; 1])
               (onehot 2 [0; 1]) None None (Fin 2) (Fin 0) in
  (exists st',
     TriclusteringNumpy.iteration
       (lift3 2 2 2 (fun _ _ _ => 1%R)) 2 2 2 (Fin 1) (Fin 1) (Fin 1) st3
     = Some st' /\
     TriclusteringNumpy.e st'
     = Fin (band_objective (fun _ _ _ => 1%R) [0; 1] [0; 1] [0; 1] 2 1 1))
  /\
  (exists st' row',
     CoclusteringDask.iteration
       (lift2 2 2 (fun _ _ => 1%R)) 2 2 (Fin 1) (Fin 1) (Fin 1) st2
     = Some st' /\
     CoclusteringDask.row_clusters st' = Some row' /\
     CoclusteringDask.e st'
     = Fin (col_objective (fun _ _ => 1%R) [0; 1] [0; 1] row' 2 1 1)).
Proof.
  cbv zeta.
  apply (objective_is_last_axis_divergence
           (fun _ _ _ => 1%R) 2 2 2
           (TriclusteringNumpy.mk_state false 0 [0; 1] [0; 1] [0; 1]
                                        (Fin 2) (Fin 0))
           (fun _ _ => 1%R) [0; 1] [0; 1] 2 2
           (CoclusteringDask.mk_state false 0 (onehot 2 [0; 1])
              (onehot 2 [0; 1]) None None (Fin 2) (Fin 0))
           1%R 1%R (Fin 1));
    try lra; try lia; try reflexivity;
    try (intros; lra);
    repeat constructor.
Defined.

(** ** The convergence test of the first iteration *)

Lemma conv_test_iff (x t : R) :
  flt (fabs (fsub (Fin x) (fmul (Fin 2) (Fin t)))) (Fin t) = true
  <-> (t < x < 3 * t)%R.
Proof.
  cbn [fmul fsub fopp fadd fabs]. rewrite flt_Fin.
  unfold Rabs. destruct (Rcase_abs (x + - (2 * t))); split; intro H; lra.
Qed.

Lemma mean3_lift (d m n : nat) (z : nat -> nat -> nat -> R) :
  0 < d * m * n ->
  mean3 (lift3 d m n z)
  = Fin (Rsum_n d (fun i => Rsum_n m (fun j => Rsum_n n (fun k => z i j k)))
         / INR (d * m * n)).
Proof.
  intro H. unfold mean3. cbn [dim0 dim1 dim2 at3 lift3].
  rewrite (fsum_n_Fin d _
             (fun i => Rsum_n m (fun j => Rsum_n n (fun k => z i j k)))).
  - unfold of_nat. apply fdiv_Fin. apply not_0_INR. lia.
  - intros i _. apply fsum_n_Fin2. intros; reflexivity.
Qed.

Lemma mean2_lift (m n : nat) (z : nat -> nat -> R) :
  0 < m * n ->
  mean2 (lift2 m n z)
  = Fin (Rsum_n m (fun i => Rsum_n n (fun j => z i j)) / INR (m * n)).
Proof.
  intro H. unfold mean2. cbn [rows cols at2 lift2].
  rewrite (fsum_n_Fin2 m n _ z) by (intros; reflexivity).
  unfold of_nat. apply fdiv_Fin. apply not_0_INR. lia.
Qed.

Lemma Gavg3_nonneg (d m n : nat) (z : nat -> nat -> nat -> R) :
  0 < d * m * n -> (forall i j k, 0 <= z i j k)%R -> (0 <= Gavg3 d m n z)%R.
Proof.
  intros H Hz. unfold Gavg3. apply Rmult_le_pos.
  - apply Rsum_n_nonneg. intros i _. apply Rsum_n_nonneg. intros j _.
    apply Rsum_n_nonneg. intros k _. apply Hz.
  - apply Rlt_le, Rinv_0_lt_compat. apply lt_0_INR. exact H.
Qed.

Lemma Gavg2_nonneg (m n : nat) (z : nat -> nat -> R) :
  0 < m * n -> (forall i j, 0 <= z i j)%R -> (0 <= Gavg2 m n z)%R.
Proof.
  intros H Hz. unfold Gavg2. apply Rmult_le_pos.
  - apply Rsum_n_nonneg. intros i _. apply Rsum_n_nonneg. intros j _.
    apply Hz.
  - apply Rlt_le, Rinv_0_lt_compat. apply lt_0_INR. exact H.
Qed.

(** The loop counts its iterations: a result with the counter of the
    start is the start itself. *)
Lemma tri_while_loop_counts (Z : array3) (nr nc nb : nat)
    (errobj epsilon Gavg : float) (fuel : nat) :
  forall st st',
    TriclusteringNumpy.while_loop Z nr nc nb errobj epsilon Gavg fuel st
    = Some st' ->
    st' = st \/ TriclusteringNumpy.s st < TriclusteringNumpy.s st'.
Proof.
  induction fuel as [|fuel IH]; intros st st' H; simpl in H.
  - inversion H. left; reflexivity.
  - destruct (TriclusteringNumpy.converged st).
    + inversion H. left; reflexivity.
    + destruct (TriclusteringNumpy.iteration Z nr nc nb errobj epsilon Gavg st)
        as [st1|] eqn:E; [|discriminate].
      assert (Hs : TriclusteringNumpy.s st1 = S (TriclusteringNumpy.s st)).
      { unfold TriclusteringNumpy.iteration in E.
        destruct (TriclusteringNumpy.loop_body Z nr nc nb epsilon Gavg
                    (TriclusteringNumpy.row_clusters st)
                    (TriclusteringNumpy.col_clusters st)
                    (TriclusteringNumpy.bnd_clusters st)); [|discriminate].
        inversion E. reflexivity. }
      destruct (IH st1 st' H) as [-> | Hlt]; right; lia.
Qed.

Lemma dask_while_loop_counts (Z : array2) (k l : nat)
    (errobj epsilon Gavg : float) (fuel : nat) :
  forall st st',
    CoclusteringDask.while_loop Z k l errobj epsilon Gavg fuel st = Some st' ->
    st' = st \/ CoclusteringDask.s st < CoclusteringDask.s st'.
Proof.
  induction fuel as [|fuel IH]; intros st st' H; simpl in H.
  - inversion H. left; reflexivity.
  - destruct (CoclusteringDask.converged st).
    + inversion H. left; reflexivity.
    + destruct (CoclusteringDask.iteration Z k l errobj epsilon Gavg st)
        as [st1|] eqn:E; [|discriminate].
      assert (Hs : CoclusteringDask.s st1 = S (CoclusteringDask.s st)).
      { unfold CoclusteringDask.iteration in E.
        repeat match type of E with
               | (if ?c then _ else _) = _ => destruct c; [|discriminate]
               | match ?x with Some _ => _ | None => _ end = _ =>
                   destruct x; [|discriminate]
               | match ?x with Some _ => _ | None => _ end = _ =>
                   destruct x; try discriminate
               end.
        inversion E. reflexivity. }
      destruct (IH st1 st' H) as [-> | Hlt]; right; lia.
Qed.

Lemma tri_while_loop_converged (Z : array3) (nr nc nb : nat)
    (errobj epsilon Gavg : float) (fuel : nat) (st : TriclusteringNumpy.state) :
  TriclusteringNumpy.converged st = true ->
  TriclusteringNumpy.while_loop Z nr nc nb errobj epsilon Gavg fuel st
  = Some st.
Proof.
  intro H. destruct fuel; simpl; [reflexivity|]. rewrite H. reflexivity.
Qed.

Lemma dask_while_loop_converged (Z : array2) (k l : nat)
    (errobj epsilon Gavg : float) (fuel : nat) (st : CoclusteringDask.state) :
  CoclusteringDask.converged st = true ->
  CoclusteringDask.while_loop Z k l errobj epsilon Gavg fuel st = Some st.
Proof.
  intro H. destruct fuel; simpl; [reflexivity|]. rewrite H. reflexivity.
Qed.

(** The first iteration of [triclustering] from given initial labels:
    with [e1] the band objective of these labels, the run stops after
    this iteration, converged, exactly when [errobj < e1 < 3 * errobj]. *)
Lemma tri_first_iteration
    (z : nat -> nat -> nat -> R) (bnd row col : list nat)
    (nr nc nb : nat) (t e : R) (n : nat) (rng : TriclusteringNumpy.rng) :
  let Zarr := lift3 (length bnd) (length row) (length col) z in
  let g := Gavg3 (length bnd) (length row) (length col) z in
  let e1 := band_objective z bnd row col nb g e in
  let run := TriclusteringNumpy.triclustering Zarr nr nc nb (Fin t) (S n)
               (Fin e) (Some row) (Some col) (Some bnd) rng in
  (0 < e)%R -> (forall b r c, 0 <= z b r c)%R ->
  bnd <> [] -> row <> [] -> col <> [] ->
  Forall (fun x => x < nr) row ->
  Forall (fun x => x < nc) col ->
  Forall (fun x => x < nb) bnd ->
  exists row' col' bnd',
    ((t < e1 < 3 * t)%R ->
     run = Some (true, 1, row', col', bnd', Fin e1)) /\
    (~ (t < e1 < 3 * t)%R ->
     forall conv s r c b er,
       run = Some (conv, s, r, c, b, er) -> ~ (conv = true /\ s = 1)).
Proof.
  intros Zarr g e1 run He Hz Hb Hr Hc Hrow Hcol Hbnd.
  assert (Hdb : 0 < length bnd) by (destruct bnd; [congruence | simpl; lia]).
  assert (Hdr : 0 < length row) by (destruct row; [congruence | simpl; lia]).
  assert (Hdc : 0 < length col) by (destruct col; [congruence | simpl; lia]).
  assert (Hpos : 0 < length bnd * length row * length col)
    by (repeat apply Nat.mul_pos_pos; assumption).
  assert (Hnr : 0 < nr).
  { destruct row as [|x ?]; [congruence|]. inversion Hrow; lia. }
  assert (Hnc : 0 < nc).
  { destruct col as [|x ?]; [congruence|]. inversion Hcol; lia. }
  assert (Hnb : 0 < nb).
  { destruct bnd as [|x ?]; [congruence|]. inversion Hbnd; lia. }
  assert (Hg : (0 <= g)%R) by (apply Gavg3_nonneg; assumption).
  set (st0 := TriclusteringNumpy.initial_state Zarr nr nc nb (Fin t)
                (Some row) (Some col) (Some bnd) rng).
  destruct (tri_iteration_value z nr nc nb g e (Fin t) st0
              He Hg Hz Hnr Hnc Hnb Hrow Hcol Hbnd)
    as (st1 & Hit & Hev & _ & Hs & Hconv & _).
  cbn [TriclusteringNumpy.row_clusters TriclusteringNumpy.col_clusters
       TriclusteringNumpy.bnd_clusters st0
       TriclusteringNumpy.initial_state] in Hit, Hev.
  fold Zarr in Hit. fold e1 in Hev.
  cbn [TriclusteringNumpy.s TriclusteringNumpy.e st0
       TriclusteringNumpy.initial_state] in Hs, Hconv.
  rewrite Hev in Hconv.
  assert (Hrun : run = match TriclusteringNumpy.while_loop Zarr nr nc nb
                               (Fin t) (Fin e) (Fin g) n st1 with
                       | None => None
                       | Some st =>
                           Some (TriclusteringNumpy.converged st,
                                 TriclusteringNumpy.s st,
                                 TriclusteringNumpy.row_clusters st,
                                 TriclusteringNumpy.col_clusters st,
                                 TriclusteringNumpy.bnd_clusters st,
                                 TriclusteringNumpy.e st)
                       end).
  { assert (Hmean : mean3 Zarr = Fin g) by (apply mean3_lift; exact Hpos).
    unfold run, TriclusteringNumpy.triclustering. cbv zeta.
    rewrite Hmean. fold st0. cbn [TriclusteringNumpy.while_loop].
    change (TriclusteringNumpy.converged st0) with false. cbv iota.
    rewrite Hit. reflexivity. }
  exists (TriclusteringNumpy.row_clusters st1),
         (TriclusteringNumpy.col_clusters st1),
         (TriclusteringNumpy.bnd_clusters st1).
  split.
  - intro Hin. apply conv_test_iff in Hin. rewrite Hin in Hconv.
    rewrite Hrun, (tri_while_loop_converged _ _ _ _ _ _ _ _ _ Hconv).
    rewrite Hconv, Hs, Hev. reflexivity.
  - intros Hout conv s r c b er Hres [Hc1 Hs1]. subst conv s.
    assert (Hcf : TriclusteringNumpy.converged st1 = false).
    { rewrite Hconv. destruct (flt _ _) eqn:E; [|reflexivity].
      apply conv_test_iff in E. contradiction. }
    rewrite Hrun in Hres.
    destruct (TriclusteringNumpy.while_loop Zarr nr nc nb (Fin t) (Fin e)
                (Fin g) n st1) as [st'|] eqn:E; [|discriminate].
    inversion Hres; subst.
    destruct (tri_while_loop_counts _ _ _ _ _ _ _ _ _ _ E) as [-> | Hlt].
    + congruence.
    + lia.
Qed.

(** The same for the dask [coclustering]; [row] and [col] are the two
    initial label vectors drawn by the random permutations. *)
Lemma dask_first_iteration
    (z : nat -> nat -> R) (row col : list nat) (k l : nat) (t e : R)
    (n : nat) (perm_row perm_col : list nat -> list nat) :
  let Zarr := lift2 (length row) (length col) z in
  let g := Gavg2 (length row) (length col) z in
  let run := CoclusteringDask.coclustering Zarr k l (Fin t) (S n) (Fin e)
               perm_row perm_col in
  (0 < e)%R -> (forall r c, 0 <= z r c)%R ->
  row <> [] -> col <> [] ->
  perm_row (map (fun i => np_mod i k) (seq 0 (length row))) = row ->
  perm_col (map (fun i => np_mod i l) (seq 0 (length col))) = col ->
  Forall (fun x => x < k) row ->
  Forall (fun x => x < l) col ->
  exists row' col',
    let e1 := col_objective z row col row' l g e in
    ((t < e1 < 3 * t)%R -> run = Some (true, 1, row', col', Fin e1)) /\
    (~ (t < e1 < 3 * t)%R ->
     forall conv s r c er,
       run = Some (conv, s, r, c, er) -> ~ (conv = true /\ s = 1)).
Proof.
  intros Zarr g run He Hz Hr Hc Hprow Hpcol Hrow Hcol.
  assert (Hdr : 0 < length row) by (destruct row; [congruence | simpl; lia]).
  assert (Hdc : 0 < length col) by (destruct col; [congruence | simpl; lia]).
  assert (Hpos : 0 < length row * length col)
    by (apply Nat.mul_pos_pos; assumption).
  assert (Hk : 0 < k).
  { destruct row as [|x ?]; [congruence|]. inversion Hrow; lia. }
  assert (Hl : 0 < l).
  { destruct col as [|x ?]; [congruence|]. inversion Hcol; lia. }
  assert (Hg : (0 <= g)%R) by (apply Gavg2_nonneg; assumption).
  set (st0 := CoclusteringDask.mk_state false 0 (onehot k row) (onehot l col)
                None None (fmul (Fin 2) (Fin t)) (Fin 0)).
  destruct (dask_iteration_value z row col k l g e (Fin t)
              He Hg Hz Hk Hl st0 eq_refl eq_refl)
    as (st1 & row' & col' & Hit & Hrw & Hcl & _ & _ & _ & _ & _ & _
        & Hev & _ & Hs & Hconv).
  fold Zarr in Hit.
  cbn [CoclusteringDask.s CoclusteringDask.e st0] in Hs, Hconv.
  rewrite Hev in Hconv.
  assert (Hrun : run = match CoclusteringDask.while_loop Zarr k l
                               (Fin t) (Fin e) (Fin g) n st1 with
                       | Some st =>
                           match CoclusteringDask.row_clusters st,
                                 CoclusteringDask.col_clusters st with
                           | Some r, Some c =>
                               Some (CoclusteringDask.converged st,
                                     CoclusteringDask.s st, r, c,
                                     CoclusteringDask.e st)
                           | _, _ => None
                           end
                       | None => None
                       end).
  { assert (Hmean : mean2 Zarr = Fin g) by (apply mean2_lift; exact Hpos).
    unfold run, CoclusteringDask.coclustering,
      CoclusteringDask._initialize_clusters. cbv zeta.
    change (rows Zarr) with (length row).
    change (cols Zarr) with (length col).
    rewrite Hprow, Hpcol.
    rewrite (eye_rows_valid k row Hrow), (eye_rows_valid l col Hcol).
    rewrite Hmean. fold st0. cbn [CoclusteringDask.while_loop].
    change (CoclusteringDask.converged st0) with false. cbv iota.
    rewrite Hit. reflexivity. }
  exists row', col'. cbv zeta. split.
  - intro Hin. apply conv_test_iff in Hin. rewrite Hin in Hconv.
    rewrite Hrun, (dask_while_loop_converged _ _ _ _ _ _ _ _ Hconv).
    rewrite Hrw, Hcl, Hconv, Hs, Hev. reflexivity.
  - intros Hout conv s r c er Hres [Hc1 Hs1]. subst conv s.
    assert (Hcf : CoclusteringDask.converged st1 = false).
    { rewrite Hconv. destruct (flt _ _) eqn:E; [|reflexivity].
      apply conv_test_iff in E. contradiction. }
    rewrite Hrun in Hres.
    destruct (CoclusteringDask.while_loop Zarr k l (Fin t) (Fin e)
                (Fin g) n st1) as [st'|] eqn:E; [|discriminate].
    destruct (CoclusteringDask.row_clusters st') as [r'|]; [|discriminate].
    destruct (CoclusteringDask.col_clusters st') as [c'|]; [|discriminate].
    inversion Hres; subst.
    destruct (dask_while_loop_counts _ _ _ _ _ _ _ _ _ E) as [-> | Hlt].
    + congruence.
    + lia.
Qed.

(** C4 (amended): the seed makes the first test compare the first error
    [e1] with [2 * errobj].  On finite non-negative data, from valid
    initial labels and with at least one iteration allowed, a run of
    either optimizer returns converged after exactly one iteration if
    and only if [errobj < e1 < 3 * errobj]. *)
Theorem first_iteration_converges_iff
    (z3 : nat -> nat -> nat -> R) (bnd row col : list nat) (nr nc nb : nat)
    (rng : TriclusteringNumpy.rng)
    (z2 : nat -> nat -> R) (row2 col2 : list nat) (k l : nat)
    (perm_row perm_col : list nat -> list nat)
    (t e : R) (n : nat) :
  (0 < e)%R ->
  (forall b r c, 0 <= z3 b r c)%R -> (forall r c, 0 <= z2 r c)%R ->
  bnd <> [] -> row <> [] -> col <> [] -> row2 <> [] -> col2 <> [] ->
  Forall (fun x => x < nr) row ->
  Forall (fun x => x < nc) col ->
  Forall (fun x => x < nb) bnd ->
  perm_row (map (fun i => np_mod i k) (seq 0 (length row2))) = row2 ->
  perm_col (map (fun i => np_mod i l) (seq 0 (length col2))) = col2 ->
  Forall (fun x => x < k) row2 ->
  Forall (fun x => x < l) col2 ->
  (exists row' col' bnd',
     let e1 := band_objective z3 bnd row col nb
                 (Gavg3 (length bnd) (length row) (length col) z3) e in
     let run := TriclusteringNumpy.triclustering
                  (lift3 (length bnd) (length row) (length col) z3)
                  nr nc nb (Fin t) (S n) (Fin e)
                  (Some row) (Some col) (Some bnd) rng in
     ((t < e1 < 3 * t)%R ->
      run = Some (true, 1, row', col', bnd', Fin e1)) /\
     (~ (t < e1 < 3 * t)%R ->
      forall conv s r c b er,
        run = Some (conv, s, r, c, b, er) -> ~ (conv = true /\ s = 1)))
  /\
  (exists row' col',
     let e1 := col_objective z2 row2 col2 row' l
                 (Gavg2 (length row2) (length col2) z2) e in
     let run := CoclusteringDask.coclustering
                  (lift2 (length row2) (length col2) z2) k l (Fin t) (S n)
                  (Fin e) perm_row perm_col in
     ((t < e1 < 3 * t)%R -> run = Some (true, 1, row', col', Fin e1)) /\
     (~ (t < e1 < 3 * t)%R ->
      forall conv s r c er,
        run = Some (conv, s, r, c, er) -> ~ (conv = true /\ s = 1))).
Proof.
  intros He Hz3 Hz2 Hb Hr Hc Hr2 Hc2 Hrow Hcol Hbnd Hprow Hpcol Hrow2 Hcol2.
  split.
  - apply tri_first_iteration; assumption.
  - apply dask_first_iteration; assumption.
Qed.

Lemma Rmin_n_const (n : nat) (c : R) : Rmin_n n (fun _ => c) = c.
Proof.
  unfold Rmin_n. generalize (seq 1 (n - 1)). intro l.
  induction l as [|x l IH]; simpl; [reflexivity|].
  unfold Rmin at 2. destruct (Rle_dec c c); exact IH.
Qed.

(** On data that is zero everywhere the band objective is
    [epsilon] times the number of elements. *)
Lemma band_objective_zero (bnd row col : list nat) (nb : nat) (e : R) :
  band_objective (fun _ _ _ => 0%R) bnd row col nb
    (Gavg3 (length bnd) (length row) (length col) (fun _ _ _ => 0%R)) e
  = (INR (length bnd) * (INR (length row) * (INR (length col) * e)))%R.
Proof.
  assert (Hg : Gavg3 (length bnd) (length row) (length col)
                 (fun _ _ _ => 0%R) = 0%R).
  { unfold Gavg3. rewrite Rsum_n_all_zero.
    - unfold Rdiv. apply Rmult_0_l.
    - intros i _. apply Rsum_n_all_zero. intros j _. apply Rsum_n_zero. }
  rewrite Hg.
  assert (Havg : forall i j k,
             avg3 (fun _ _ _ => 0%R) bnd row col 0 e i j k = 0%R).
  { intros i j k. unfold avg3.
    assert (Hs : block_sum3 (fun _ _ _ => 0%R) bnd row col i j k = 0%R).
    { unfold block_sum3. apply Rsum_n_all_zero. intros b _.
      apply Rsum_n_all_zero. intros r _. apply Rsum_n_all_zero. intros c _.
      destruct (in_block3 bnd row col i j k b r c); reflexivity. }
    rewrite Hs. replace (0 + 0 * e)%R with 0%R by ring.
    unfold Rdiv. apply Rmult_0_l. }
  assert (Hdiv : forall b l0,
             divergence_bnd (fun _ _ _ => 0%R) bnd row col 0 e b l0
             = (INR (length row) * (INR (length col) * e))%R).
  { intros b l0. unfold divergence_bnd.
    rewrite (Rsum_n_ext (length row) _ (fun _ => (INR (length col) * e)%R)).
    - rewrite Rsum_n_const, Rsum_n_all_zero; [lra|].
      intros r _. apply Rsum_n_all_zero. intros c _. lra.
    - intros r _.
      rewrite (Rsum_n_ext (length col) _ (fun _ => e)).
      + apply Rsum_n_const.
      + intros c _. rewrite Havg. lra. }
  unfold band_objective.
  rewrite (Rsum_n_ext (length bnd) _
             (fun _ => (INR (length row) * (INR (length col) * e))%R)).
  - apply Rsum_n_const.
  - intros b _.
    rewrite <- (Rmin_n_const nb (INR (length row) * (INR (length col) * e))).
    unfold Rmin_n. rewrite Hdiv. f_equal.
    apply map_ext. intro l0. apply Hdiv.
Qed.

(** C4, as stated, fails: a 2 x 2 x 2 array of zeros, two clusters per
    axis, [epsilon = 1e-8] and the threshold [errobj = 4e-8].  The first
    error is [8e-8], the test [|8e-8 - 2 * 4e-8| < 4e-8] succeeds, and the
    run returns converged after exactly one iteration. *)
Lemma first_iteration_can_converge :
  exists row' col' bnd' e1,
    TriclusteringNumpy.triclustering
      (lift3 2 2 2 (fun _ _ _ => 0%R)) 2 2 2
      (Fin (4 / 100000000)) 5 (Fin (1 / 100000000))
      (Some [0; 1]) (Some [0; 1]) (Some [0; 1])
      (TriclusteringNumpy.mk_rng (fun p => p) (fun p => p) (fun p => p))
    = Some (true, 1, row', col', bnd', Fin e1)
    /\ e1 = (8 / 100000000)%R.
Proof.
  destruct (tri_first_iteration (fun _ _ _ => 0%R) [0; 1] [0; 1] [0; 1]
              2 2 2 (4 / 100000000) (1 / 100000000) 4
              (TriclusteringNumpy.mk_rng (fun p => p) (fun p => p)
                                         (fun p => p)))
    as (row' & col' & bnd' & Hconv & _);
    try (intros; lra); try discriminate; try (repeat constructor).
  rewrite band_objective_zero in Hconv.
  exists row', col', bnd'. eexists. split.
  - apply Hconv. simpl. lra.
  - simpl. lra.
Qed.

Lemma first_iteration_converges_iff_witness :
  let lab := [0; 1] in
  let z3 := fun (_ _ _ : nat) => 0%R in
  let z2 := fun (_ _ : nat) => 0%R in
  let rng := TriclusteringNumpy.mk_rng (fun p => p) (fun p => p)
                                        (fun p => p) in
  let t := (4 / 100000000)%R in
  let e := (1 / 100000000)%R in
  (exists row' col' bnd',
     let e1 := band_objective z3 lab lab lab 2
                 (Gavg3 (length lab) (length lab) (length lab) z3) e in
     let run := TriclusteringNumpy.triclustering
                  (lift3 (length lab) (length lab) (length lab) z3)
                  2 2 2 (Fin t) 5 (Fin e)
                  (Some lab) (Some lab) (Some lab) rng in
     ((t < e1 < 3 * t)%R ->
      run = Some (true, 1, row', col', bnd', Fin e1)) /\
     (~ (t < e1 < 3 * t)%R ->
      forall conv s r c b er,
        run = Some (conv, s, r, c, b, er) -> ~ (conv = true /\ s = 1)))
  /\
  (exists row' col',
     let e1 := col_objective z2 lab lab row' 2
                 (Gavg2 (length lab) (length lab) z2) e in
     let run := CoclusteringDask.coclustering
                  (lift2 (length lab) (length lab) z2) 2 2 (Fin t) 5
                  (Fin e) (fun p => p) (fun p => p) in
     ((t < e1 < 3 * t)%R -> run = Some (true, 1, row', col', Fin e1)) /\
     (~ (t < e1 < 3 * t)%R ->
      forall conv s r c er,
        run = Some (conv, s, r, c, er) -> ~ (conv = true /\ s = 1))).
Proof.
  cbv zeta.
  apply (first_iteration_converges_iff
           (fun _ _ _ => 0%R) [0; 1] [0; 1] [0; 1] 2 2 2
           (TriclusteringNumpy.mk_rng (fun p => p) (fun p => p) (fun p => p))
           (fun _ _ => 0%R) [0; 1] [0; 1] 2 2 (fun p => p) (fun p => p)
           (4 / 100000000)%R (1 / 100000000)%R 4);
    try lra; try (intros; lra); try discriminate; try reflexivity;
    repeat constructor.
Defined.

(** ** Kmeans: the normalised statistics *)

Section KmeansStatistics.
Import Kmeans.

Lemma reshape6_rows (P : float -> Prop) (fuel : nat) :
  forall (l : list float) (rws : list (list float)),
    reshape6 fuel l = Some rws ->
    (forall x, In x l -> P x) ->
    Forall (fun r => length r = 6 /\ forall x, In x r -> P x) rws.
Proof.
  induction fuel as [|fuel IH]; intros l rws H HP.
  - destruct l; simpl in H; [|discriminate]. inversion H. constructor.
  - destruct l as [|x0 l0]; [simpl in H; inversion H; constructor|].
    cbn [reshape6] in H.
    destruct (length (x0 :: l0) <? 6) eqn:E; [discriminate|].
    apply Nat.ltb_ge in E.
    destruct (reshape6 fuel (skipn 6 (x0 :: l0))) as [rest|] eqn:Er;
      [|discriminate].
    assert (Hrws : rws = firstn 6 (x0 :: l0) :: rest) by congruence.
    subst rws. clear H. constructor.
    + split; [apply firstn_length_le; exact E|].
      intros x Hx. apply HP.
      rewrite <- (firstn_skipn 6 (x0 :: l0)). apply in_or_app. left. exact Hx.
    + apply (IH _ _ Er). intros x Hx. apply HP.
      rewrite <- (firstn_skipn 6 (x0 :: l0)). apply in_or_app. right. exact Hx.
Qed.

Lemma column_finite (stat : list (list float)) (j : nat) :
  j < 6 ->
  Forall (fun r => length r = 6 /\ forall x, In x r -> is_finite x) stat ->
  Forall is_finite (column stat j).
Proof.
  intros Hj H. unfold column. apply Forall_forall. intros y Hy.
  apply in_map_iff in Hy. destruct Hy as (r & <- & Hr).
  rewrite Forall_forall in H. destruct (H r Hr) as (Hlen & Hfin).
  apply Hfin. apply nth_In. lia.
Qed.

(** The least and the largest value of a column of finite values. *)
Lemma col_min_max (stat : list (list float)) (j : nat) :
  j < 6 -> stat <> [] ->
  Forall (fun r => length r = 6 /\ forall x, In x r -> is_finite x) stat ->
  exists mn mx,
    col_min stat j = Fin mn /\ col_max stat j = Fin mx /\
    forall r, In r stat ->
              exists x, nth j r NaN = Fin x /\ (mn <= x <= mx)%R.
Proof.
  intros Hj Hne H.
  pose proof (column_finite stat j Hj H) as Hcol.
  unfold col_min, col_max.
  destruct (column stat j) as [|x0 l0] eqn:E.
  { destruct stat; [congruence | discriminate]. }
  destruct (min_scan_vector x0 l0 Hcol) as (Hmn & Hmin & _).
  destruct (max_scan_vector x0 l0 Hcol) as (Hmx & Hmax & _).
  set (vmin := snd (min_scan l0 1 (0, x0))) in *.
  set (vmax := snd (max_scan l0 1 (0, x0))) in *.
  assert (Hfmin : is_finite vmin).
  { rewrite Forall_forall in Hcol. apply Hcol. eapply nth_error_In; eauto. }
  assert (Hfmax : is_finite vmax).
  { rewrite Forall_forall in Hcol. apply Hcol. eapply nth_error_In; eauto. }
  destruct vmin as [mn| | |]; try contradiction.
  destruct vmax as [mx| | |]; try contradiction.
  exists mn, mx. split; [reflexivity|]. split; [reflexivity|].
  intros r Hr.
  assert (Hin : In (nth j r NaN) (x0 :: l0)).
  { rewrite <- E. unfold column.
    apply (in_map (fun r => nth j r NaN)). exact Hr. }
  assert (Hf : is_finite (nth j r NaN)).
  { rewrite Forall_forall in Hcol. apply Hcol. exact Hin. }
  destruct (nth j r NaN) as [x| | |]; try contradiction.
  exists x. split; [reflexivity|].
  pose proof (Hmin _ Hin) as H1. pose proof (Hmax _ Hin) as H2.
  simpl in H1, H2. apply flt_Fin_false in H1. apply flt_Fin_false in H2. lra.
Qed.

Lemma col_extremes_attained (stat : list (list float)) (j : nat) :
  j < 6 -> stat <> [] ->
  Forall (fun r => length r = 6 /\ forall x, In x r -> is_finite x) stat ->
  exists rmin rmax,
    In rmin stat /\ nth j rmin NaN = col_min stat j /\
    In rmax stat /\ nth j rmax NaN = col_max stat j.
Proof.
  intros Hj Hne H.
  pose proof (column_finite stat j Hj H) as Hcol.
  unfold col_min, col_max.
  destruct (column stat j) as [|x0 l0] eqn:E.
  { destruct stat; [congruence | discriminate]. }
  destruct (min_scan_vector x0 l0 Hcol) as (Hmn & _).
  destruct (max_scan_vector x0 l0 Hcol) as (Hmx & _).
  apply nth_error_In in Hmn. apply nth_error_In in Hmx.
  rewrite <- E in Hmn, Hmx. unfold column in Hmn, Hmx.
  apply in_map_iff in Hmn. apply in_map_iff in Hmx.
  destruct Hmn as (rmin & Hvmin & Hrmin). destruct Hmx as (rmax & Hvmax & Hrmax).
  exists rmin, rmax. auto.
Qed.

End KmeansStatistics.

(** ** Rounding and overflow *)

Lemma Rabs_bounds (r B : R) : (Rabs r <= B)%R -> (- B <= r <= B)%R.
Proof.
  unfold Rabs. destruct (Rcase_abs r); lra.
Qed.

Section Rounding.

Variable F : Fl.format.
Hypothesis HF : ieee_like F.

Lemma rnd_mono (a b : R) : (a <= b)%R -> (Fl.rnd F a <= Fl.rnd F b)%R.
Proof. destruct HF as (H & _). apply H. Qed.

Lemma rnd_opp (a : R) : Fl.rnd F (- a) = (- Fl.rnd F a)%R.
Proof. destruct HF as (_ & H & _). apply H. Qed.

Lemma rnd_0 : Fl.rnd F 0 = 0%R.
Proof.
  pose proof (rnd_opp 0) as H. rewrite Ropp_0 in H. lra.
Qed.

Lemma rnd_1 : Fl.rnd F 1 = 1%R.
Proof. destruct HF as (_ & _ & H & _). exact H. Qed.

Lemma rnd_fmax : Fl.rnd F (Fl.fmax F) = Fl.fmax F.
Proof. destruct HF as (_ & _ & _ & H & _). exact H. Qed.

Lemma fmax_ge_1 : (1 <= Fl.fmax F)%R.
Proof. destruct HF as (_ & _ & _ & _ & H). exact H. Qed.

(** An exact result within the range of the format is rounded, not
    replaced by an infinity. *)
Lemma fl_in_range (r : R) :
  (- Fl.fmax F <= Fl.rnd F r <= Fl.fmax F)%R -> Fl.fl F r = Fin (Fl.rnd F r).
Proof.
  intro H. unfold Fl.fl.
  destruct (Rlt_dec (Fl.fmax F) (Fl.rnd F r)); [lra|].
  destruct (Rlt_dec (Fl.rnd F r) (- Fl.fmax F)); [lra|]. reflexivity.
Qed.

Lemma fl_bounded (r B : R) :
  (Rabs r <= B)%R -> representable F B -> (B <= Fl.fmax F)%R ->
  exists v, Fl.fl F r = Fin v /\ (Rabs v <= B)%R.
Proof.
  intros Hr HB Hmax. unfold representable in HB.
  assert (Hlo : (- B <= r)%R /\ (r <= B)%R).
  { apply Rabs_bounds in Hr. lra. }
  assert (H1 : (Fl.rnd F r <= B)%R).
  { rewrite <- HB. apply rnd_mono. lra. }
  assert (H2 : (- B <= Fl.rnd F r)%R).
  { rewrite <- HB, <- rnd_opp. apply rnd_mono. lra. }
  exists (Fl.rnd F r). split.
  - apply fl_in_range. lra.
  - apply Rabs_le. lra.
Qed.

Lemma fl_overflow (r : R) :
  (0 <= r)%R -> ~ is_finite (Fl.fl F r) -> Fl.fl F r = PInf.
Proof.
  intros Hr Hn. unfold Fl.fl in *.
  destruct (Rlt_dec (Fl.fmax F) (Fl.rnd F r)); [reflexivity|].
  destruct (Rlt_dec (Fl.rnd F r) (- Fl.fmax F)) as [Hlt|].
  - exfalso. pose proof (rnd_mono 0 r Hr) as H. rewrite rnd_0 in H.
    pose proof fmax_ge_1. lra.
  - exfalso. apply Hn. exact I.
Qed.

(** One normalised entry when the range of its column is a finite
    number: the entry is a number of [0, 1], and 0 when the largest and
    the least value of the column coincide. *)
Lemma divide_where_finite_range (x mn mx d : R) :
  (mn <= x <= mx)%R ->
  Fl.sub F (Fin mx) (Fin mn) = Fin d ->
  exists v,
    Fl.Kmeans.divide_where F (Fl.sub F (Fin x) (Fin mn))
                             (Fl.sub F (Fin mx) (Fin mn)) = Fin v /\
    (0 <= v <= 1)%R /\ (mx = mn -> v = 0%R).
Proof.
  intros Hx Hd. rewrite Hd. unfold Fl.Kmeans.divide_where.
  assert (Hrd : d = Fl.rnd F (mx + - mn) /\
                (- Fl.fmax F <= d <= Fl.fmax F)%R).
  { unfold Fl.sub, Fl.add in Hd. cbn [fopp] in Hd. unfold Fl.fl in Hd.
    destruct (Rlt_dec (Fl.fmax F) (Fl.rnd F (mx + - mn))); [discriminate|].
    destruct (Rlt_dec (Fl.rnd F (mx + - mn)) (- Fl.fmax F)); [discriminate|].
    inversion Hd. split; [reflexivity | lra]. }
  destruct Hrd as (Ed & Hdr).
  assert (Hd0 : (0 <= d)%R).
  { rewrite Ed, <- rnd_0. apply rnd_mono. lra. }
  cbn [feqb]. destruct (Req_dec_T d 0) as [Hz | Hnz]; cbn [negb].
  - exists 0%R. split; [reflexivity|]. split; [lra | auto].
  - assert (Hn : exists n, Fl.sub F (Fin x) (Fin mn) = Fin n /\
                           (0 <= n <= d)%R).
    { exists (Fl.rnd F (x + - mn)).
      assert (H0 : (0 <= Fl.rnd F (x + - mn))%R)
        by (rewrite <- rnd_0; apply rnd_mono; lra).
      assert (H1 : (Fl.rnd F (x + - mn) <= d)%R)
        by (rewrite Ed; apply rnd_mono; lra).
      split; [|lra].
      unfold Fl.sub, Fl.add. cbn [fopp]. apply fl_in_range. lra. }
    destruct Hn as (n & -> & Hn).
    unfold Fl.div. destruct (Req_dec_T d 0) as [Hz | _]; [contradiction|].
    assert (Hq : (0 <= n / d <= 1)%R).
    { assert (Hpos : (0 < d)%R) by lra. split.
      - apply Rmult_le_pos; [lra|]. apply Rlt_le, Rinv_0_lt_compat. exact Hpos.
      - apply (Rmult_le_reg_r d); [exact Hpos|].
        unfold Rdiv. rewrite Rmult_assoc, Rinv_l by exact Hnz. lra. }
    assert (H0 : (0 <= Fl.rnd F (n / d))%R)
      by (rewrite <- rnd_0; apply rnd_mono; lra).
    assert (H1 : (Fl.rnd F (n / d) <= 1)%R)
      by (rewrite <- rnd_1; apply rnd_mono; lra).
    pose proof fmax_ge_1.
    exists (Fl.rnd F (n / d)). split; [apply fl_in_range; lra|].
    split; [lra|].
    intro Heq. exfalso. apply Hnz. rewrite Ed.
    replace (mx + - mn)%R with 0%R by lra. apply rnd_0.
Qed.

(** When the range of the column overflows, the entries are 0 or NaN,
    and NaN where the value is the largest of the column. *)
Lemma divide_where_overflow (x mn mx : R) :
  (mn <= x <= mx)%R ->
  ~ is_finite (Fl.sub F (Fin mx) (Fin mn)) ->
  Fl.sub F (Fin mx) (Fin mn) = PInf /\
  (Fl.Kmeans.divide_where F (Fl.sub F (Fin x) (Fin mn))
                            (Fl.sub F (Fin mx) (Fin mn)) = Fin 0 \/
   Fl.Kmeans.divide_where F (Fl.sub F (Fin x) (Fin mn))
                            (Fl.sub F (Fin mx) (Fin mn)) = NaN).
Proof.
  intros Hx Hn.
  assert (Hinf : Fl.sub F (Fin mx) (Fin mn) = PInf).
  { unfold Fl.sub, Fl.add in *. cbn [fopp] in *.
    apply fl_overflow; [lra | exact Hn]. }
  split; [exact Hinf|]. rewrite Hinf.
  unfold Fl.Kmeans.divide_where. cbn [feqb negb].
  unfold Fl.sub at 1 2. unfold Fl.add. cbn [fopp].
  destruct (Fl.fl F (x + - mn)) as [n| | |] eqn:E.
  - left. reflexivity.
  - right. reflexivity.
  - right. reflexivity.
  - right. reflexivity.
Qed.


Lemma nth_map_seq (A : Type) (g : nat -> A) (n j : nat) (d : A) :
  j < n -> nth j (map g (seq 0 n)) d = g j.
Proof.
  intro Hj. rewrite (nth_indep _ d (g 0))
    by (rewrite length_map, length_seq; exact Hj).
  rewrite (map_nth g (seq 0 n) 0 j). rewrite seq_nth by exact Hj. reflexivity.
Qed.

(** The entries of a column of the normalised statistics, by the range
    of the column. *)
Lemma normalize_column (stat : list (list float)) (j : nat) :
  j < 6 -> stat <> [] ->
  Forall (fun r => length r = 6 /\ forall x, In x r -> is_finite x) stat ->
  let range := Fl.sub F (Kmeans.col_max stat j) (Kmeans.col_min stat j) in
  (is_finite range ->
   forall r, In r (Fl.Kmeans.normalize F stat) ->
     exists v, nth j r NaN = Fin v /\ (0 <= v <= 1)%R /\
               (Kmeans.col_max stat j = Kmeans.col_min stat j -> v = 0%R)) /\
  (~ is_finite range ->
   (forall r, In r (Fl.Kmeans.normalize F stat) ->
      nth j r NaN = Fin 0 \/ nth j r NaN = NaN) /\
   exists r, In r (Fl.Kmeans.normalize F stat) /\ nth j r NaN = NaN).
Proof.
  intros Hj Hne Hrows.
  destruct (col_min_max stat j Hj Hne Hrows) as (mn & mx & Emn & Emx & Hall).
  destruct (col_extremes_attained stat j Hj Hne Hrows)
    as (_ & rmax & _ & _ & Hin_max & Hvmax).
  cbv zeta. rewrite Emn, Emx.
  assert (Hentry : forall r, In r (Fl.Kmeans.normalize F stat) ->
            exists r1 x, In r1 stat /\ nth j r1 NaN = Fin x /\
              (mn <= x <= mx)%R /\
              nth j r NaN
              = Fl.Kmeans.divide_where F (Fl.sub F (Fin x) (Fin mn))
                                         (Fl.sub F (Fin mx) (Fin mn))).
  { intros r Hr. unfold Fl.Kmeans.normalize in Hr. apply in_map_iff in Hr.
    destruct Hr as (r1 & <- & Hr1).
    destruct (Hall r1 Hr1) as (x & Ex & Hx).
    exists r1, x. split; [exact Hr1|]. split; [exact Ex|]. split; [exact Hx|].
    rewrite nth_map_seq by exact Hj. rewrite Emn, Emx, Ex. reflexivity. }
  split.
  - intros Hfin r Hr.
    destruct (Fl.sub F (Fin mx) (Fin mn)) as [d| | |] eqn:Ed;
      try contradiction.
    destruct (Hentry r Hr) as (r1 & x & _ & _ & Hx & ->).
    destruct (divide_where_finite_range x mn mx d Hx Ed) as (v & Ev & Hv & Hz).
    rewrite Ed in Ev. exists v. split; [exact Ev|]. split; [exact Hv|].
    intro Heq. apply Hz. congruence.
  - intro Hn. split.
    + intros r Hr. destruct (Hentry r Hr) as (r1 & x & _ & _ & Hx & ->).
      exact (proj2 (divide_where_overflow x mn mx Hx Hn)).
    + destruct (Hall rmax Hin_max) as (x & Ex & Hx).
      assert (Hxm : x = mx) by (rewrite Hvmax, Emx in Ex; congruence).
      subst x.
      exists (map (fun j => Fl.Kmeans.divide_where F
                              (Fl.sub F (nth j rmax NaN) (Kmeans.col_min stat j))
                              (Fl.sub F (Kmeans.col_max stat j)
                                        (Kmeans.col_min stat j)))
                  (seq 0 6)).
      split.
      * unfold Fl.Kmeans.normalize. apply in_map_iff. exists rmax.
        split; [reflexivity | exact Hin_max].
      * rewrite nth_map_seq by exact Hj. rewrite Emn, Emx, Ex.
        destruct (divide_where_overflow mx mn mx Hx Hn) as (Hinf & _).
        rewrite Hinf. reflexivity.
Qed.

(** The rows that [stat_measures] keeps are rows of six finite
    statistics. *)
Lemma stat_measures_rows (features stat : list (list float)) :
  (forall r x, In r features -> In x r -> is_finite x \/ x = NaN) ->
  Kmeans.stat_measures features = Some stat ->
  Forall (fun r => length r = 6 /\ forall x, In x r -> is_finite x) stat.
Proof.
  intros Hfeat Es. unfold Kmeans.stat_measures in Es.
  eapply reshape6_rows; [exact Es|].
  intros x Hx. apply filter_In in Hx. destruct Hx as (Hx & Hnan).
  apply in_concat in Hx. destruct Hx as (r & Hr & Hxr).
  destruct (Hfeat r x Hr Hxr) as [Hf | ->]; [exact Hf | discriminate].
Qed.


End Rounding.

Lemma binary64_range_ieee_like : ieee_like binary64_range.
Proof.
  unfold ieee_like, binary64_range. cbn [Fl.rnd Fl.fmax].
  repeat split; auto.
  apply (IZR_le 1). vm_compute. discriminate.
Qed.

Lemma two_1023_pos : (0 < IZR (2 ^ 1023))%R.
Proof. apply (IZR_lt 0). reflexivity. Qed.

Lemma two_1024_overflows :
  (Fl.fmax binary64_range < IZR (2 ^ 1023) + IZR (2 ^ 1023))%R.
Proof.
  cbn [Fl.fmax binary64_range]. rewrite <- plus_IZR. apply IZR_lt.
  vm_compute. reflexivity.
Qed.



(** ** The divergence kernel within the range of the format *)

Lemma ln_le_mono (x y : R) : (0 < x)%R -> (x <= y)%R -> (ln x <= ln y)%R.
Proof.
  intros Hx [Hlt | ->]; [|lra]. left. apply ln_increasing; assumption.
Qed.

Section RoundedKernel.

Variable F : Fl.format.
Hypothesis HF : ieee_like F.

(** A reduction of terms of absolute value at most [B], in any order of
    the additions: no partial sum can leave the format. *)
Lemma reduce_bounded (f : nat -> float) (B : R) (n : nat) (o : Fl.order) :
  (0 <= B)%R ->
  (forall i, i <= n -> representable F (INR i * B)) ->
  (INR n * B <= Fl.fmax F)%R ->
  (forall k, exists x, f k = Fin x /\ (Rabs x <= B)%R) ->
  length (Fl.leaves o) <= n ->
  exists s, Fl.reduce F f o = Fin s /\
            (Rabs s <= INR (length (Fl.leaves o)) * B)%R.
Proof.
  intros HB Hrep Hmax Hf.
  induction o as [|k|a IHa b IHb]; intro Hlen; cbn [Fl.reduce Fl.leaves].
  - exists 0%R. split; [reflexivity|]. rewrite Rabs_R0. simpl. lra.
  - destruct (Hf k) as (x & Ex & Hx). exists x. split; [exact Ex|].
    simpl. lra.
  - cbn [Fl.leaves] in Hlen. rewrite length_app in Hlen.
    destruct IHa as (sa & -> & Ha); [lia|].
    destruct IHb as (sb & -> & Hb); [lia|].
    cbn [Fl.add]. rewrite length_app, plus_INR.
    replace ((INR (length (Fl.leaves a)) + INR (length (Fl.leaves b))) * B)%R
      with (INR (length (Fl.leaves a) + length (Fl.leaves b)) * B)%R
      by (rewrite plus_INR; reflexivity).
    apply (fl_bounded F HF).
    + rewrite plus_INR. pose proof (Rabs_triang sa sb). lra.
    + apply Hrep. exact Hlen.
    + apply Rle_trans with (INR n * B)%R; [|exact Hmax].
      apply Rmult_le_compat_r; [exact HB|]. apply le_INR. exact Hlen.
Qed.

Lemma adds_length (o : Fl.order) (n : nat) :
  adds o n -> length (Fl.leaves o) = n.
Proof.
  intro H. rewrite (Permutation_length H). apply length_seq.
Qed.

Section Bounds.

Variables (N : nat) (e My Mz Bs Lg Bp : R).
Hypothesis HB : kernel_bounds F N e My Mz Bs Lg Bp.
Hypothesis HMy : (0 <= My)%R.
Hypothesis HMz : (0 <= Mz)%R.

Lemma kb_e : (0 < e)%R.
Proof. destruct HB as (H & _). exact H. Qed.

Lemma kb_Bs : (e <= Bs)%R /\ representable F Bs /\ (Bs <= Fl.fmax F)%R /\
              (0 <= Bp)%R /\ representable F Bp /\ (Bp <= Fl.fmax F)%R /\
              (0 <= Lg)%R.
Proof.
  destruct HB as (He & Hre & Hs & Hl1 & Hl2 & Hl3 & Hrl & Hp & Hms & Hmp & Hmax).
  assert (HeB : (e <= Bs)%R) by lra.
  assert (HLg : (0 <= Lg)%R).
  { pose proof (ln_le_mono e Bs He HeB). lra. }
  assert (HBp : (0 <= Bp)%R).
  { apply Rle_trans with (Mz * Lg)%R; [|exact Hp].
    apply Rmult_le_pos; assumption. }
  assert (H1 : (1 <= INR (Nat.max 1 N))%R).
  { apply (le_INR 1). apply Nat.le_max_l. }
  assert (Hsum : (Bs + Bp <= Fl.fmax F)%R).
  { apply Rle_trans with (INR (Nat.max 1 N) * (Bs + Bp))%R; [|exact Hmax].
    assert (0 <= Bs + Bp)%R by lra. nra. }
  pose proof (Hms 1 (Nat.le_max_l 1 N)) as Hr1.
  pose proof (Hmp 1 (Nat.le_max_l 1 N)) as Hr2.
  unfold representable in *. simpl in Hr1, Hr2.
  rewrite Rmult_1_l in Hr1, Hr2.
  repeat split; auto; lra.
Qed.

(** A term [Y + epsilon]. *)
Lemma term_profile (y : R) :
  (0 <= y <= My)%R ->
  exists t, Fl.add F (Fin y) (Fin e) = Fin t /\ (e <= t <= Bs)%R.
Proof.
  intro Hy. destruct kb_Bs as (HeB & HrB & HBm & _).
  destruct HB as (He & Hre & Hs & _).
  unfold representable in *.
  assert (H1 : (e <= Fl.rnd F (y + e))%R).
  { rewrite <- Hre at 1. apply (rnd_mono F HF). lra. }
  assert (H2 : (Fl.rnd F (y + e) <= Bs)%R).
  { rewrite <- HrB. apply (rnd_mono F HF). lra. }
  exists (Fl.rnd F (y + e)). split; [|lra].
  cbn [Fl.add]. apply (fl_in_range F). lra.
Qed.

(** Its logarithm. *)
Lemma term_log (t : R) :
  (e <= t <= Bs)%R ->
  exists lg, Fl.log F (Fin t) = Fin lg /\ (Rabs lg <= Lg)%R.
Proof.
  intro Ht. pose proof kb_e as He.
  destruct HB as (_ & _ & _ & Hl1 & Hl2 & Hl3 & Hrl & _).
  cbn [Fl.log]. destruct (Rlt_dec 0 t) as [_ | Hn]; [|lra].
  apply (fl_bounded F HF); [|exact Hrl | exact Hl3].
  apply Rabs_le.
  pose proof (ln_le_mono e t He (proj1 Ht)).
  pose proof (ln_le_mono t Bs ltac:(lra) (proj2 Ht)). lra.
Qed.

(** A product [Z * log(Y + epsilon)]. *)
Lemma term_product (z y : R) :
  (0 <= z <= Mz)%R -> (0 <= y <= My)%R ->
  exists p,
    Fl.mul F (Fin z) (Fl.log F (Fl.add F (Fin y) (Fin e))) = Fin p /\
    (Rabs p <= Bp)%R.
Proof.
  intros Hz Hy.
  destruct (term_profile y Hy) as (t & -> & Ht).
  destruct (term_log t Ht) as (lg & -> & Hlg).
  destruct kb_Bs as (_ & _ & _ & HBp & HrBp & HBpm & HLg).
  destruct HB as (_ & _ & _ & _ & _ & _ & _ & Hp & _).
  cbn [Fl.mul]. apply (fl_bounded F HF); [|exact HrBp | exact HBpm].
  rewrite Rabs_mult. rewrite (Rabs_right z) by lra.
  apply Rle_trans with (Mz * Lg)%R; [|exact Hp].
  apply Rmult_le_compat; try lra. apply Rabs_pos.
Qed.

Lemma kb_multiples (i : nat) :
  i <= N -> representable F (INR i * Bs) /\ representable F (INR i * Bp).
Proof.
  intro Hi.
  destruct HB as (_ & _ & _ & _ & _ & _ & _ & _ & Hms & Hmp & _).
  split; [apply Hms | apply Hmp]; lia.
Qed.

Lemma kb_total : (INR N * Bs + INR N * Bp <= Fl.fmax F)%R.
Proof.
  destruct kb_Bs as (HeB & _ & _ & HBp & _).
  destruct HB as (He & _ & _ & _ & _ & _ & _ & _ & _ & _ & Hmax).
  apply Rle_trans with (INR (Nat.max 1 N) * (Bs + Bp))%R; [|exact Hmax].
  assert (H : (INR N <= INR (Nat.max 1 N))%R)
    by (apply le_INR, Nat.le_max_r).
  assert (0 <= Bs + Bp)%R by lra.
  replace (INR N * Bs + INR N * Bp)%R with (INR N * (Bs + Bp))%R by ring.
  apply Rmult_le_compat_r; assumption.
Qed.

(** The two reductions of a kernel and their difference: [t1] are the
    terms [Y + epsilon] (or their products with 1), [t2] the products
    with the logarithm. *)
Lemma kernel_value_finite (t1 t2 : nat -> float) (o1 o2 : Fl.order) :
  adds o1 N -> adds o2 N ->
  (forall k, exists x, t1 k = Fin x /\ (Rabs x <= Bs)%R) ->
  (forall k, exists x, t2 k = Fin x /\ (Rabs x <= Bp)%R) ->
  exists v,
    Fl.sub F (Fl.reduce F t1 o1) (Fl.reduce F t2 o2) = Fin v /\
    (Rabs v <= Fl.fmax F)%R.
Proof.
  intros Ho1 Ho2 H1 H2.
  destruct kb_Bs as (HeB & HrB & HBm & HBp & HrBp & HBpm & HLg).
  pose proof kb_e as He. pose proof kb_total as Htot.
  assert (HBs : (0 <= Bs)%R) by lra.
  assert (HtotS : (INR N * Bs <= Fl.fmax F)%R).
  { assert (0 <= INR N * Bp)%R
      by (apply Rmult_le_pos; [apply pos_INR | exact HBp]). lra. }
  assert (HtotP : (INR N * Bp <= Fl.fmax F)%R).
  { assert (0 <= INR N * Bs)%R
      by (apply Rmult_le_pos; [apply pos_INR | exact HBs]). lra. }
  destruct (reduce_bounded t1 Bs N o1 HBs) as (s1 & -> & Hs1);
    [intros i Hi; apply (kb_multiples i Hi) | exact HtotS | exact H1
     | rewrite (adds_length o1 N Ho1); apply Nat.le_refl |].
  destruct (reduce_bounded t2 Bp N o2 HBp) as (s2 & -> & Hs2);
    [intros i Hi; apply (kb_multiples i Hi) | exact HtotP | exact H2
     | rewrite (adds_length o2 N Ho2); apply Nat.le_refl |].
  rewrite (adds_length o1 N Ho1) in Hs1.
  rewrite (adds_length o2 N Ho2) in Hs2.
  unfold Fl.sub. cbn [fopp Fl.add].
  apply (fl_bounded F HF).
  - pose proof (Rabs_triang s1 (- s2)) as Ht. rewrite Rabs_Ropp in Ht. lra.
  - exact (rnd_fmax F HF).
  - apply Rle_refl.
Qed.

End Bounds.

(** The kernel of [triclustering_numpy] within the bounds. *)
Lemma tri_distance_finite (oY : nat -> Fl.order) (oZ : nat -> nat -> Fl.order)
    (di dj dk dl : nat) (z y : nat -> nat -> nat -> R)
    (e My Mz Bs Lg Bp : R) (i l : nat) :
  kernel_bounds F (dj * dk) e My Mz Bs Lg Bp ->
  (0 <= My)%R -> (0 <= Mz)%R ->
  adds (oY l) (dj * dk) -> adds (oZ i l) (dj * dk) ->
  (forall i j k, 0 <= z i j k <= Mz)%R ->
  (forall l j k, 0 <= y l j k <= My)%R ->
  exists v,
    at2 (Fl.TriclusteringNumpy._distance F oY oZ (lift3 di dj dk z)
           (lift3 dl dj dk y) (Fin e)) i l = Fin v /\
    (Rabs v <= Fl.fmax F)%R.
Proof.
  intros HB HMy HMz HoY HoZ Hz Hy.
  unfold Fl.TriclusteringNumpy._distance. cbn [at2 at3 dim1 dim2 lift3].
  apply (kernel_value_finite _ _ _ _ _ _ _ HB HMy HMz _ _ _ _ HoY HoZ).
  - intro t.
    destruct (term_profile _ _ _ _ _ _ _ HB HMy HMz _ (Hy l (t / dk) (t mod dk)))
      as (x & Ex & Hx).
    pose proof (kb_e _ _ _ _ _ _ _ HB).
    exists x. split; [exact Ex|]. apply Rabs_le. lra.
  - intro t.
    apply (term_product _ _ _ _ _ _ _ HB HMy HMz); [apply Hz | apply Hy].
Qed.

(** The kernel of [coclustering_dask], called with a matrix of ones for
    [X], within the bounds. *)
Lemma dask_distance_finite (oX oZ : nat -> nat -> Fl.order)
    (m n k : nat) (z y : nat -> nat -> R)
    (e My Mz Bs Lg Bp : R) (i l : nat) :
  kernel_bounds F n e My Mz Bs Lg Bp ->
  (0 <= My)%R -> (0 <= Mz)%R ->
  adds (oX i l) n -> adds (oZ i l) n ->
  (forall i j, 0 <= z i j <= Mz)%R ->
  (forall i j, 0 <= y i j <= My)%R ->
  exists v,
    at2 (Fl.CoclusteringDask._distance F oX oZ (lift2 m n z) (ones m n)
           (lift2 n k y) (Fin e)) i l = Fin v /\
    (Rabs v <= Fl.fmax F)%R.
Proof.
  intros HB HMy HMz HoX HoZ Hz Hy.
  unfold Fl.CoclusteringDask._distance, Fl.dot, ones.
  cbn [at2 rows cols lift2].
  destruct (kb_Bs _ _ _ _ _ _ _ HB HMy HMz) as (HeB & HrB & HBm & _).
  pose proof (kb_e _ _ _ _ _ _ _ HB) as He.
  apply (kernel_value_finite _ _ _ _ _ _ _ HB HMy HMz _ _ _ _ HoX HoZ).
  - intro t.
    destruct (term_profile _ _ _ _ _ _ _ HB HMy HMz (y t l) (Hy t l))
      as (t' & -> & Ht).
    cbn [Fl.mul]. apply (fl_bounded F HF); [|exact HrB | exact HBm].
    rewrite Rmult_1_l. apply Rabs_le. lra.
  - intro t.
    apply (term_product _ _ _ _ _ _ _ HB HMy HMz); [apply Hz | apply Hy].
Qed.

End RoundedKernel.


Lemma unit_kernel_bounds : kernel_bounds binary64_range 1 1 1 1 2 1 1.
Proof.
  unfold kernel_bounds, representable, binary64_range.
  cbn [Fl.rnd Fl.fmax Nat.max].
  assert (Hfm : (4 <= IZR (2 ^ 1024 - 2 ^ 971))%R).
  { apply (IZR_le 4). vm_compute. discriminate. }
  assert (Hln2 : (ln 2 <= 1)%R).
  { rewrite <- (ln_exp 1). apply ln_le_mono; [lra|].
    pose proof (exp_ineq1 1 ltac:(lra)). lra. }
  repeat split; try reflexivity; try lra.
  - rewrite ln_1. lra.
  - simpl. lra.
Qed.


Lemma fl_id_in_range (r : R) :
  (- Fl.fmax binary64_range <= r <= Fl.fmax binary64_range)%R ->
  Fl.fl binary64_range r = Fin r.
Proof.
  intro H. apply (fl_in_range binary64_range r).
  cbn [Fl.rnd binary64_range]. exact H.
Qed.

Lemma fl_id_overflow (r : R) :
  (Fl.fmax binary64_range < r)%R -> Fl.fl binary64_range r = PInf.
Proof.
  intro H. unfold Fl.fl. cbn [Fl.rnd binary64_range].
  destruct (Rlt_dec (Fl.fmax binary64_range) r); [reflexivity | contradiction].
Qed.


(** ** Kmeans: the refined averages *)

Lemma Rsum_list_app (l1 l2 : list R) :
  Rsum_list (l1 ++ l2) = (Rsum_list l1 + Rsum_list l2)%R.
Proof.
  induction l1 as [|x l1 IH]; simpl; [lra|]. rewrite IH. lra.
Qed.

Lemma Rsum_list_perm (l1 l2 : list R) :
  Permutation l1 l2 -> Rsum_list l1 = Rsum_list l2.
Proof.
  induction 1; simpl; lra.
Qed.

Lemma fold_fadd_Fin (A : Type) (f : A -> float) (z : A -> R) (ps : list A) :
  (forall p, In p ps -> f p = Fin (z p)) ->
  forall a, fold_left fadd (map f ps) (Fin a)
            = Fin (a + Rsum_list (map z ps)).
Proof.
  induction ps as [|p ps IH]; intros H a; simpl.
  - f_equal. lra.
  - rewrite (H p) by (left; reflexivity). cbn [fadd].
    rewrite IH by (intros q Hq; apply H; right; exact Hq). f_equal. lra.
Qed.

Section KmeansGrid.
Import Kmeans.

Lemma list_eqb_eq (a b : list nat) : list_eqb a b = true <-> a = b.
Proof.
  revert b. induction a as [|x a IH]; intros [|y b]; simpl;
    try (split; [discriminate | discriminate]); try tauto.
  rewrite andb_true_iff, Nat.eqb_eq, IH. split.
  - intros [-> ->]. reflexivity.
  - intro H. inversion H. auto.
Qed.

Lemma in_cartesian (axes : list (list nat)) :
  forall p, In p (cartesian axes) <-> Forall2 (fun x ax => In x ax) p axes.
Proof.
  induction axes as [|ax rest IH]; intro p; simpl.
  - split.
    + intros [<- | []]. constructor.
    + intro H. inversion H. left; reflexivity.
  - rewrite in_flat_map. split.
    + intros (i & Hi & Hp). apply in_map_iff in Hp.
      destruct Hp as (q & <- & Hq). constructor; [exact Hi|].
      apply IH. exact Hq.
    + intro H. inversion H as [|i ? q ? Hi Hq]; subst.
      exists i. split; [exact Hi|]. apply in_map. apply IH. exact Hq.
Qed.

Lemma NoDup_cartesian (axes : list (list nat)) :
  Forall (@NoDup nat) axes -> NoDup (cartesian axes).
Proof.
  induction axes as [|ax rest IH]; intro H; simpl.
  - constructor; [intros [] | constructor].
  - inversion H as [|? ? Hax Hrest]; subst. specialize (IH Hrest).
    clear H Hrest. induction ax as [|i ax IHax]; simpl; [constructor|].
    inversion Hax as [|? ? Hni Hnd]; subst.
    apply NoDup_app.
    + apply Finite.Injective_map_NoDup; [|exact IH].
      intros a b Hab. inversion Hab. reflexivity.
    + apply IHax. exact Hnd.
    + intros p Hp Hp'. apply in_map_iff in Hp. destruct Hp as (q & <- & _).
      apply in_flat_map in Hp'. destruct Hp' as (j & Hj & Hq').
      apply in_map_iff in Hq'. destruct Hq' as (q' & Heq & _).
      inversion Heq; subst. contradiction.
Qed.

Lemma length_cartesian (axes : list (list nat)) :
  length (cartesian axes) = prod_nat (map (@length nat) axes).
Proof.
  induction axes as [|ax rest IH]; simpl; [reflexivity|].
  rewrite <- IH. clear IH. induction ax as [|i ax IHax]; simpl; [reflexivity|].
  rewrite length_app, length_map, IHax. reflexivity.
Qed.

End KmeansGrid.

Section KmeansBlocks.
Import Kmeans.

Lemma in_where_eq (cl : list nat) (v i : nat) :
  In i (where_eq cl v) <-> i < length cl /\ nth i cl 0 = v.
Proof.
  unfold where_eq. rewrite filter_In, in_seq, Nat.eqb_eq.
  split; intros [H1 H2]; (split; [lia | exact H2]).
Qed.

Lemma NoDup_where_eq (cl : list nat) (v : nat) : NoDup (where_eq cl v).
Proof.
  unfold where_eq. apply NoDup_filter. apply seq_NoDup.
Qed.

Lemma in_indices (shp : list nat) (c : list nat) :
  In c (indices shp) <-> Forall2 (fun x n => x < n) c shp.
Proof.
  unfold indices. rewrite in_cartesian. revert c.
  induction shp as [|n shp IH]; intro c; simpl.
  - split; intro H; inversion H; constructor.
  - split; intro H; inversion H as [|x ? c' ? Hx Hc']; subst;
      constructor; try (apply IH; exact Hc').
    + apply in_seq in Hx. lia.
    + apply in_seq. lia.
Qed.

Lemma indices_length (shp : list nat) (c : list nat) :
  In c (indices shp) -> length c = length shp.
Proof.
  intro H. apply in_indices in H. eapply Forall2_length; eauto.
Qed.

Lemma NoDup_indices (shp : list nat) : NoDup (indices shp).
Proof.
  unfold indices. apply NoDup_cartesian. apply Forall_forall.
  intros ax Hax. apply in_map_iff in Hax. destruct Hax as (n & <- & _).
  apply seq_NoDup.
Qed.

(** The positions gathered for the block [c] are the positions of the
    elements whose labels are [c]. *)
Lemma in_block_positions (cls : list (list nat)) :
  forall (c p : list nat),
    length c = length cls ->
    (In p (block_positions cls c)
     <-> In p (positions cls) /\ block_of cls p = c).
Proof.
  unfold block_positions, positions, block_of.
  induction cls as [|cl cls IH]; intros c p Hlen.
  - destruct c; [|discriminate]. cbn. split.
    + intros [<- | []]. split; [left; reflexivity | reflexivity].
    + intros [[<- | []] _]. left; reflexivity.
  - destruct c as [|ci c]; [discriminate|]. simpl in Hlen.
    assert (Hlen' : length c = length cls) by lia.
    cbn [combine map fst snd cartesian indices].
    change (cartesian (map (seq 0) (length cl :: map (@length nat) cls)))
      with (flat_map (fun i => map (cons i)
                                   (cartesian (map (seq 0)
                                                   (map (@length nat) cls))))
                     (seq 0 (length cl))).
    rewrite !in_flat_map. split.
    + intros (i & Hi & Hp). apply in_map_iff in Hp.
      destruct Hp as (q & <- & Hq).
      apply in_where_eq in Hi. destruct Hi as (Hi & Hv).
      apply (IH c q Hlen') in Hq. destruct Hq as (Hq & Hb).
      split.
      * exists i. split; [apply in_seq; lia|]. apply in_map. exact Hq.
      * cbn. rewrite Hv. f_equal. exact Hb.
    + intros ((i & Hi & Hp) & Hb). apply in_map_iff in Hp.
      destruct Hp as (q & <- & Hq). cbn in Hb. inversion Hb as [[Hv Hb']].
      exists i. split.
      * apply in_where_eq. apply in_seq in Hi. split; [lia | reflexivity].
      * apply in_map. rewrite Hb'. apply (IH c q Hlen'). split; assumption.
Qed.

Lemma NoDup_block_positions (cls : list (list nat)) (c : list nat) :
  NoDup (block_positions cls c).
Proof.
  unfold block_positions. apply NoDup_cartesian. apply Forall_forall.
  intros ax Hax. apply in_map_iff in Hax. destruct Hax as (cp & <- & _).
  apply NoDup_where_eq.
Qed.

Lemma NoDup_concat_blocks (cls : list (list nat)) (cells : list (list nat)) :
  NoDup cells ->
  (forall c, In c cells -> length c = length cls) ->
  NoDup (concat (map (block_positions cls) cells)).
Proof.
  induction cells as [|c cells IH]; intros Hnd Hlen; simpl; [constructor|].
  inversion Hnd as [|? ? Hni Hnd']; subst.
  apply NoDup_app.
  - apply NoDup_block_positions.
  - apply IH; [exact Hnd'|]. intros c' Hc'. apply Hlen. right. exact Hc'.
  - intros p Hp Hp'. apply in_concat in Hp'.
    destruct Hp' as (ps & Hps & Hpps). apply in_map_iff in Hps.
    destruct Hps as (c' & <- & Hc').
    apply in_block_positions in Hp; [|apply Hlen; left; reflexivity].
    apply in_block_positions in Hpps; [|apply Hlen; right; exact Hc'].
    destruct Hp as (_ & <-). destruct Hpps as (_ & <-). contradiction.
Qed.

End KmeansBlocks.

Section KmeansAverages.
Import Kmeans.

Variable Zarr : ndarray.
Variable z : list nat -> R.
Variable cls : list (list nat).
Variable ncls : list nat.
Variable km : list nat -> option nat.

Hypothesis Zfinite : forall p, get Zarr p = Fin (z p).
Hypothesis Haxes : length cls = length ncls.
Hypothesis km_dom : forall c L, km c = Some L -> In c (indices ncls).
Hypothesis km_pop : forall c L, km c = Some L -> block_positions cls c <> [].

Lemma in_cells_of (label : nat) (c : list nat) :
  In c (cells_of ncls km label) <-> In c (indices ncls) /\ km c = Some label.
Proof.
  unfold cells_of. rewrite filter_In. split; intros [H1 H2]; split; auto.
  - destruct (km c) as [v|]; [|discriminate].
    apply Nat.eqb_eq in H2. congruence.
  - rewrite H2. apply Nat.eqb_refl.
Qed.

Lemma accumulate_from (cells : list (list nat)) :
  forall (a : R) (n : nat),
    fold_left
      (fun acc cluster =>
         let idx := map (fun p => where_eq (fst p) (snd p))
                        (combine cls cluster) in
         let m := prod_nat (map (@length nat) idx) in
         let sm := fsum (map (get Zarr) (cartesian idx)) in
         (fadd (fst acc) sm, snd acc + m))
      cells (Fin a, n)
    = (Fin (a + Rsum_list (map z (concat (map (block_positions cls) cells)))),
       n + length (concat (map (block_positions cls) cells))).
Proof.
  induction cells as [|c cells IH]; intros a n.
  - simpl. f_equal; [f_equal; lra | lia].
  - cbn [fold_left map concat]. cbv zeta. cbn [fst snd].
    fold (block_positions cls c).
    unfold fsum.
    rewrite (fold_fadd_Fin (list nat) (get Zarr) z (block_positions cls c))
      by (intros; apply Zfinite).
    cbn [fadd]. rewrite <- length_cartesian. fold (block_positions cls c).
    rewrite IH. rewrite map_app, Rsum_list_app, length_app.
    f_equal; [f_equal; lra | lia].
Qed.

Lemma accumulate_value (cells : list (list nat)) :
  accumulate Zarr cls cells
  = (Fin (Rsum_list (map z (concat (map (block_positions cls) cells)))),
     length (concat (map (block_positions cls) cells))).
Proof.
  unfold accumulate. rewrite accumulate_from. f_equal. f_equal. lra.
Qed.

(** The elements gathered block by block are the elements of the
    group. *)
Lemma blocks_are_group (label : nat) :
  Permutation (concat (map (block_positions cls) (cells_of ncls km label)))
              (group_positions cls km label).
Proof.
  assert (Hlen : forall c, In c (cells_of ncls km label) -> length c = length cls).
  { intros c Hc. apply in_cells_of in Hc. destruct Hc as (Hc & _).
    rewrite Haxes. apply indices_length. exact Hc. }
  apply NoDup_Permutation.
  - apply NoDup_concat_blocks; [|exact Hlen].
    unfold cells_of. apply NoDup_filter. apply NoDup_indices.
  - unfold group_positions, positions. apply NoDup_filter. apply NoDup_indices.
  - intro p. rewrite in_concat. unfold group_positions.
    rewrite filter_In. unfold in_group. split.
    + intros (ps & Hps & Hp). apply in_map_iff in Hps.
      destruct Hps as (c & <- & Hc).
      apply in_block_positions in Hp; [|apply Hlen; exact Hc].
      destruct Hp as (Hpos & Hb). apply in_cells_of in Hc.
      destruct Hc as (_ & Hkm). split; [exact Hpos|].
      rewrite Hb, Hkm. apply Nat.eqb_refl.
    + intros (Hpos & Hg).
      destruct (km (block_of cls p)) as [v|] eqn:Ekm; [|discriminate].
      apply Nat.eqb_eq in Hg. subst v.
      exists (block_positions cls (block_of cls p)). split.
      * apply in_map. apply in_cells_of. split; [|exact Ekm].
        eapply km_dom; eauto.
      * apply in_block_positions.
        -- rewrite Haxes. apply indices_length. eapply km_dom; eauto.
        -- split; [exact Hpos | reflexivity].
Qed.

(** The value written for the group [label]. *)
Lemma group_average_value (label : nat) :
  cells_of ncls km label <> [] ->
  fdiv (fst (accumulate Zarr cls (cells_of ncls km label)))
       (of_nat (snd (accumulate Zarr cls (cells_of ncls km label))))
  = Fin (group_mean z cls km label).
Proof.
  intro Hne. rewrite accumulate_value. cbn [fst snd]. unfold of_nat, group_mean.
  pose proof (blocks_are_group label) as Hperm.
  rewrite (Rsum_list_perm _ _ (Permutation_map z Hperm)).
  rewrite (Permutation_length Hperm).
  apply fdiv_Fin. apply not_0_INR.
  rewrite <- (Permutation_length Hperm).
  destruct (cells_of ncls km label) as [|c cells] eqn:E; [congruence|].
  assert (Hc : In c (cells_of ncls km label)) by (rewrite E; left; reflexivity).
  apply in_cells_of in Hc. destruct Hc as (_ & Hkm).
  pose proof (km_pop c label Hkm) as Hpop.
  simpl. rewrite length_app.
  destruct (block_positions cls c); [congruence | simpl; lia].
Qed.

(** The loop over the labels: a cell of a group already visited holds
    the mean of the group, every other cell is untouched. *)
Lemma averages_loop_spec (todo : list nat) :
  forall (g0 avg : list nat -> float),
    NoDup todo ->
    averages_loop Zarr cls ncls km todo g0 = Some avg ->
    forall c, In c (indices ncls) ->
      (forall L, km c = Some L -> In L todo ->
                 avg c = Fin (group_mean z cls km L)) /\
      ((forall L, km c = Some L -> ~ In L todo) -> avg c = g0 c).
Proof.
  induction todo as [|label todo IH]; intros g0 avg Hnd H c Hc.
  - simpl in H. inversion H; subst. split; [intros L _ [] | reflexivity].
  - cbn [averages_loop] in H. fold (cells_of ncls km label) in H.
    destruct (accumulate Zarr cls (cells_of ncls km label)) as [label_sum n] eqn:Eacc.
    destruct (cells_of ncls km label) as [|c0 cells0] eqn:Ecells; [discriminate|].
    rewrite <- Ecells in *.
    assert (Hne : cells_of ncls km label <> []) by (rewrite Ecells; discriminate).
    pose proof (group_average_value label Hne) as Hval.
    rewrite Eacc in Hval. cbn [fst snd] in Hval.
    inversion Hnd as [|? ? Hni Hnd']; subst.
    destruct (IH _ avg Hnd' H c Hc) as (IH1 & IH2).
    assert (Hin : existsb (list_eqb c) (cells_of ncls km label) = true
                  <-> km c = Some label).
    { rewrite existsb_exists. split.
      - intros (c' & Hc' & Heq). apply list_eqb_eq in Heq. subst c'.
        apply in_cells_of in Hc'. tauto.
      - intro Hkm. exists c. split; [|apply list_eqb_eq; reflexivity].
        apply in_cells_of. split; assumption. }
    split.
    + intros L Hkm [<- | HL].
      * rewrite IH2.
        -- replace (existsb (list_eqb c) (cells_of ncls km label)) with true
             by (symmetry; apply Hin; exact Hkm).
           exact Hval.
        -- intros L' Hkm'. congruence.
      * apply IH1; assumption.
    + intro Hout. rewrite IH2.
      * destruct (existsb (list_eqb c) (cells_of ncls km label)) eqn:E; [|reflexivity].
        exfalso. apply (Hout label); [apply Hin; reflexivity | left; reflexivity].
      * intros L Hkm HL. apply (Hout L Hkm). right. exact HL.
Qed.

End KmeansAverages.

Section KmeansRefine.
Import Kmeans.

Lemma lookup_some_in (c : list nat) (a : list (list nat)) :
  forall (b : list nat) (v : nat),
    lookup c (combine a b) = Some v -> In c a /\ In v b.
Proof.
  induction a as [|x a IH]; intros [|y b] v H; simpl in H; try discriminate.
  destruct (list_eqb c x) eqn:E.
  - apply list_eqb_eq in E. inversion H; subst. split; left; reflexivity.
  - destruct (IH b v H). split; right; assumption.
Qed.

Lemma lookup_in_some (c : list nat) (a : list (list nat)) :
  forall (b : list nat),
    In c a -> length a = length b ->
    exists v, lookup c (combine a b) = Some v.
Proof.
  induction a as [|x a IH]; intros [|y b] Hin Hlen; simpl in *;
    try contradiction; try discriminate.
  destruct (list_eqb c x) eqn:E; [eauto|].
  destruct Hin as [-> | Hin].
  - assert (list_eqb c c = true) by (apply list_eqb_eq; reflexivity).
    congruence.
  - apply IH; [exact Hin | lia].
Qed.

Lemma cartesian_nonempty (axes : list (list nat)) :
  (forall ax, In ax axes -> ax <> []) -> cartesian axes <> [].
Proof.
  induction axes as [|ax rest IH]; intro H; simpl; [discriminate|].
  assert (Hax : ax <> []) by (apply H; left; reflexivity).
  assert (Hrest : cartesian rest <> [])
    by (apply IH; intros; apply H; right; assumption).
  destruct ax as [|i ax]; [congruence|].
  destruct (cartesian rest) as [|q qs]; [congruence|]. simpl. discriminate.
Qed.

(** A cell of the mask is a block with at least one element. *)
Lemma in_mask_populated (cls : list (list nat)) :
  forall c, length c = length cls -> in_mask cls c = true ->
            block_positions cls c <> [].
Proof.
  intros c Hlen Hmask. unfold block_positions. apply cartesian_nonempty.
  revert c Hlen Hmask.
  induction cls as [|cl cls IH]; intros c Hlen Hmask ax Hax.
  - destruct c; simpl in Hax; contradiction.
  - destruct c as [|ci c]; [discriminate|]. simpl in Hlen, Hmask, Hax.
    apply andb_true_iff in Hmask. destruct Hmask as (Hci & Hrest).
    destruct Hax as [<- | Hax].
    + apply existsb_exists in Hci. destruct Hci as (x & Hx & Heq).
      apply Nat.eqb_eq in Heq. subst x. unfold unique in Hx.
      apply nodup_In in Hx.
      destruct (In_nth cl ci 0 Hx) as (i & Hi & Hnth).
      assert (Hin : In i (where_eq cl ci))
        by (apply in_where_eq; split; assumption).
      cbn [fst snd]. intro Hnil. rewrite Hnil in Hin. contradiction.
    + apply (IH c); [lia | exact Hrest | exact Hax].
Qed.

(** The labels laid on the cells of the mask are labels the k-means
    returned, one for each cell. *)
Lemma assign_masked_spec (n : nat) (labels assigned : list nat) :
  assign_masked n labels = Some assigned ->
  length assigned = n /\ (forall v, In v assigned -> In v labels).
Proof.
  unfold assign_masked. destruct (length labels =? n) eqn:E.
  - intro H. inversion H; subst assigned. apply Nat.eqb_eq in E. auto.
  - destruct (length labels =? 1) eqn:E1; [|discriminate].
    intro H. inversion H; subst assigned. split; [apply repeat_length|].
    intros v Hv. apply repeat_spec in Hv. subst v.
    destruct labels as [|x l]; [discriminate|]. left. reflexivity.
Qed.

Lemma refine_spec (self : Kmeans) (k_value : Z) (labels : list nat)
    (z : list nat -> R)
    (km : list nat -> option nat) (avg : list nat -> float) :
  length (clusters self) = length (nclusters self) ->
  (forall p, get (Zdata self) p = Fin (z p)) ->
  Forall (fun v => v < Z.to_nat k_value) labels ->
  refine self k_value labels = Ok (km, avg) ->
  forall c, In c (indices (nclusters self)) ->
    (in_mask (clusters self) c = false -> km c = None /\ avg c = NaN) /\
    (in_mask (clusters self) c = true ->
     exists L, km c = Some L /\ L < Z.to_nat k_value /\
               avg c = Fin (group_mean z (clusters self) km L)).
Proof.
  intros Haxes Hz Hlab H c Hc. unfold refine in H.
  destruct (length (nclusters self) <? length (clusters self)); [discriminate|].
  set (populated := filter (in_mask (clusters self))
                           (indices (nclusters self))) in *.
  destruct (assign_masked (length populated) labels) as [assigned|] eqn:Ea;
    [|discriminate].
  apply assign_masked_spec in Ea. destruct Ea as (Elen & Hsub).
  symmetry in Elen.
  destruct (averages_loop (Zdata self) (clusters self) (nclusters self)
              (fun c => lookup c (combine populated assigned))
              (seq 0 (Z.to_nat k_value)) (fun _ => NaN))
    as [avg'|] eqn:Eloop; [|discriminate].
  inversion H; subst km avg. clear H.
  set (km := fun c => lookup c (combine populated assigned)) in *.
  assert (Hdom : forall c L, km c = Some L -> In c (indices (nclusters self))).
  { intros c' L HL. apply lookup_some_in in HL. destruct HL as (HL & _).
    unfold populated in HL. apply filter_In in HL. tauto. }
  assert (Hpop : forall c L, km c = Some L ->
                             block_positions (clusters self) c <> []).
  { intros c' L HL. apply lookup_some_in in HL. destruct HL as (HL & _).
    unfold populated in HL. apply filter_In in HL. destruct HL as (Hi & Hm).
    apply in_mask_populated; [|exact Hm].
    rewrite Haxes. apply indices_length. exact Hi. }
  destruct (averages_loop_spec (Zdata self) z (clusters self) (nclusters self)
              km Hz Haxes Hdom Hpop (seq 0 (Z.to_nat k_value))
              (fun _ => NaN) avg' (seq_NoDup _ _) Eloop c Hc)
    as (Hin & Hout).
  split.
  - intro Hmask.
    assert (Hnone : km c = None).
    { destruct (km c) as [L|] eqn:E; [|reflexivity].
      apply lookup_some_in in E. destruct E as (E & _).
      unfold populated in E. apply filter_In in E. destruct E as (_ & E).
      congruence. }
    split; [exact Hnone|]. apply Hout. intros L HL. congruence.
  - intro Hmask.
    assert (Hcp : In c populated)
      by (unfold populated; apply filter_In; split; assumption).
    destruct (lookup_in_some c populated assigned Hcp Elen) as (L & HL).
    assert (HLk : L < Z.to_nat k_value).
    { pose proof (lookup_some_in c populated assigned L HL) as (_ & HLin).
      rewrite Forall_forall in Hlab. apply Hlab. apply Hsub. exact HLin. }
    exists L. split; [exact HL|]. split; [exact HLk|].
    apply Hin; [exact HL|]. apply in_seq. lia.
Qed.

End KmeansRefine.

Section KmeansCompute.
Import Kmeans.

Lemma argmax_bound (l : list float) (idx : nat) :
  argmax l = Some idx -> idx < length l.
Proof.
  destruct l as [|x l']; simpl; intro H; [discriminate|].
  inversion H; subst. unfold max_scan.
  destruct (scan_index_bound (fun y b => flt b y) l' 1 0 x) as [-> | Hb]; lia.
Qed.

Section Externals.

Variable G : Type.
Variable KMeans_fit :
  G -> Z -> nat -> list (list float) -> option (list nat) * G.
Variable silhouette_score : list (list float) -> list nat -> option float.
Variable max_iter : nat.
Variable X : list (list float).

(** What a pass of the loop that was not interrupted has appended: for
    each k, in order, the labels of a fit for this k and their score. *)
Lemma kmeans_loop_inv (ks : list Z) :
  forall (g g' : G) (fits : list (list nat * float)),
    kmeans_loop KMeans_fit silhouette_score g ks max_iter X
      = (Some fits, g') ->
    length fits = length ks /\
    forall i k labels s,
      nth_error ks i = Some k -> nth_error fits i = Some (labels, s) ->
      (exists g0 g1, KMeans_fit g0 k max_iter X = (Some labels, g1)) /\
      silhouette_score X labels = Some s.
Proof.
  induction ks as [|k0 ks IH]; intros g g' fits H; cbn [kmeans_loop] in H.
  - inversion H; subst. split; [reflexivity|].
    intros [|i] k labels s Hk; discriminate.
  - destruct (KMeans_fit g k0 max_iter X) as [[lab0|] g1] eqn:Ef;
      [|discriminate].
    destruct (silhouette_score X lab0) as [s0|] eqn:Es; [|discriminate].
    destruct (kmeans_loop KMeans_fit silhouette_score g1 ks max_iter X)
      as [[tl|] g2] eqn:El; [|discriminate].
    inversion H; subst fits g'. clear H.
    destruct (IH _ _ _ El) as (Hlen & Hall).
    split; [simpl; lia|].
    intros [|i] k labels s Hk Hf; simpl in Hk, Hf.
    + inversion Hk; inversion Hf; subst. split; [eauto | exact Es].
    + eapply Hall; eauto.
Qed.

Lemma select_k_labels (ks : list Z) (g g' : G)
    (scores : list float) (k : Z) (labels : list nat) (tie : bool) :
  select_k KMeans_fit silhouette_score g ks max_iter X
    = (Some (scores, k, labels, tie), g') ->
  In k ks /\
  exists g0 g1, KMeans_fit g0 k max_iter X = (Some labels, g1).
Proof.
  unfold select_k. intro H.
  destruct (kmeans_loop KMeans_fit silhouette_score g ks max_iter X)
    as [[fits|] g2] eqn:El; [|discriminate].
  destruct (kmeans_loop_inv ks _ _ _ El) as (Hlen & Hall).
  unfold pick_k in H.
  destruct (argmax (map snd fits)) as [idx|] eqn:E; [|discriminate].
  apply argmax_bound in E. rewrite length_map in E.
  inversion H; subst. clear H.
  destruct (nth_error ks idx) as [k0|] eqn:Ek;
    [|apply nth_error_None in Ek; lia].
  destruct (nth_error fits idx) as [[lab0 s0]|] eqn:Ef;
    [|apply nth_error_None in Ef; lia].
  rewrite (nth_error_nth ks idx 0%Z Ek).
  assert (Hlab : nth_error (map fst fits) idx = Some lab0)
    by (rewrite nth_error_map, Ef; reflexivity).
  rewrite (nth_error_nth _ idx [] Hlab).
  split; [eapply nth_error_In; eauto|].
  destruct (Hall idx k0 lab0 s0 Ek Ef) as (Hfit & _). exact Hfit.
Qed.

End Externals.

(** C9: in the grid of refined averages a cell that is not populated
    holds NaN (and has no refined label), and a populated cell holds the
    arithmetic mean of all elements of the data whose block is assigned
    to the refined group of the cell. *)
Theorem refined_averages_are_group_means
    (G : Type)
    (KMeans_fit : G -> Z -> nat -> list (list float) -> option (list nat) * G)
    (silhouette_score : list (list float) -> list nat -> option float)
    (features : list (list float)) (self : Kmeans) (g g' : G)
    (res : KmeansResults) (z : list nat -> R) :
  length (clusters self) = length (nclusters self) ->
  (forall p, get (Zdata self) p = Fin (z p)) ->
  (forall g0 g1 k X labels_, In k (k_range self) ->
     KMeans_fit g0 k (kmean_max_iter self) X = (Some labels_, g1) ->
     Forall (fun v => v < Z.to_nat k) labels_) ->
  compute KMeans_fit silhouette_score features self g = (Ok res, g') ->
  forall c, In c (indices (nclusters self)) ->
    (in_mask (clusters self) c = false ->
     labels res c = None /\ cluster_averages res c = NaN) /\
    (in_mask (clusters self) c = true ->
     exists L, labels res c = Some L /\
               cluster_averages res c
               = Fin (group_mean z (clusters self) (labels res) L)).
Proof.
  intros Haxes Hz Hfit H c Hc. unfold compute in H.
  destruct (_compute_statistic_measures features) as [stat|]; [|discriminate].
  destruct (select_k KMeans_fit silhouette_score g (k_range self)
              (kmean_max_iter self) stat)
    as [[[[[scores k] labs] tie]|] g2] eqn:Es; [|discriminate].
  destruct (refine self k labs) as [ | | |[km avg]] eqn:Er; try discriminate.
  inversion H; subst res g'. clear H. cbn [labels cluster_averages].
  apply select_k_labels in Es. destruct Es as (Hk & g0 & g1 & Hlab).
  destruct (refine_spec self k _ z km avg Haxes Hz
              (Hfit g0 g1 k stat labs Hk Hlab) Er c Hc)
    as (Hfalse & Htrue).
  split; [exact Hfalse|].
  intro Hm. destruct (Htrue Hm) as (L & HL & _ & Havg). eauto.
Qed.

End KmeansCompute.

Lemma refined_averages_are_group_means_witness :
  exists res,
    Kmeans.compute test_fit test_score test_features test_km tt
      = (Kmeans.Ok res, tt) /\
    forall c, In c (Kmeans.indices [3; 2]) ->
      (Kmeans.in_mask [[0; 0; 1; 1; 1]; [0; 0; 1; 1]] c = false ->
       Kmeans.labels res c = None /\ Kmeans.cluster_averages res c = NaN) /\
      (Kmeans.in_mask [[0; 0; 1; 1; 1]; [0; 0; 1; 1]] c = true ->
       exists L, Kmeans.labels res c = Some L /\
                 Kmeans.cluster_averages res c
                 = Fin (group_mean test_Z [[0; 0; 1; 1; 1]; [0; 0; 1; 1]]
                                   (Kmeans.labels res) L)).
Proof.
  eexists. split; [reflexivity|].
  apply (refined_averages_are_group_means unit test_fit test_score
           test_features test_km tt tt _ test_Z).
  - reflexivity.
  - intro p. reflexivity.
  - intros g0 g1 k X labels_ [<- | []] Hf. unfold test_fit in Hf.
    inversion Hf; subst. repeat constructor.
  - reflexivity.
Defined.

(** The refined averages of the test setup are those the repository's
    test expects: [[0, 1], [1, 0], [nan, nan]]. *)
Example test_centroid_values :
  exists res,
    Kmeans.compute test_fit test_score test_features test_km tt
      = (Kmeans.Ok res, tt) /\
    Kmeans.cluster_averages res [0; 0] = Fin 0 /\
    Kmeans.cluster_averages res [0; 1] = Fin 1 /\
    Kmeans.cluster_averages res [1; 0] = Fin 1 /\
    Kmeans.cluster_averages res [1; 1] = Fin 0 /\
    Kmeans.cluster_averages res [2; 0] = NaN /\
    Kmeans.cluster_averages res [2; 1] = NaN.
Proof.
  eexists. split; [reflexivity|].
  cbn [Kmeans.cluster_averages].
  repeat split; cbn; try reflexivity;
    (destruct (Req_dec_T _ 0) as [Hz | _]; [exfalso; lra | f_equal; field]).
Qed.

(** ** Kmeans: the choice of k *)

Section KmeansReturns.
Import Kmeans.

Lemma lookup_combine_nth (a : list (list nat)) :
  forall (b : list nat) (i : nat) (c : list nat) (v : nat),
    NoDup a -> nth_error a i = Some c -> nth_error b i = Some v ->
    lookup c (combine a b) = Some v.
Proof.
  induction a as [|x a IH]; intros [|y b] [|i] c v Hnd Ha Hb; simpl in *;
    try discriminate.
  - inversion Ha; inversion Hb; subst.
    rewrite (proj2 (list_eqb_eq c c) eq_refl). reflexivity.
  - inversion Hnd as [|? ? Hx Hnd']; subst.
    destruct (list_eqb c x) eqn:E.
    + apply list_eqb_eq in E. subst x. exfalso. apply Hx.
      eapply nth_error_In; eauto.
    + eapply IH; eauto.
Qed.

Lemma averages_loop_total (Zarr : ndarray) (cls : list (list nat))
    (ncls : list nat) (km : list nat -> option nat) (todo : list nat) :
  forall (g0 : list nat -> float),
    (forall label, In label todo -> cells_of ncls km label <> []) ->
    exists avg, averages_loop Zarr cls ncls km todo g0 = Some avg.
Proof.
  induction todo as [|label todo IH]; intros g0 H; cbn [averages_loop].
  - eauto.
  - fold (cells_of ncls km label).
    destruct (accumulate Zarr cls (cells_of ncls km label)) as [ls n].
    destruct (cells_of ncls km label) as [|c0 cells] eqn:E.
    + exfalso. apply (H label); [left; reflexivity | exact E].
    + apply IH. intros l Hl. apply H. right. exact Hl.
Qed.

Lemma NoDup_populated (cls : list (list nat)) (ncls : list nat) :
  NoDup (populated cls ncls).
Proof.
  unfold populated. apply NoDup_filter. apply NoDup_indices.
Qed.

(** With one label for each populated block and every label below k in
    use, the refined grid is built. *)
Lemma refine_returns (self : Kmeans) (k_value : Z) (labels : list nat) :
  length (clusters self) <= length (nclusters self) ->
  labelling (length (populated (clusters self) (nclusters self)))
            k_value labels ->
  exists km avg, refine self k_value labels = Ok (km, avg).
Proof.
  intros Haxes (Hlen & Huse). unfold refine.
  replace (length (nclusters self) <? length (clusters self)) with false
    by (symmetry; apply Nat.ltb_ge; exact Haxes).
  fold (populated (clusters self) (nclusters self)).
  unfold assign_masked. rewrite Hlen, Nat.eqb_refl.
  set (pop := populated (clusters self) (nclusters self)) in *.
  destruct (averages_loop_total (Zdata self) (clusters self) (nclusters self)
              (fun c => lookup c (combine pop labels))
              (seq 0 (Z.to_nat k_value)) (fun _ => NaN)) as (avg & ->).
  - intros label Hl. apply in_seq in Hl.
    assert (Hin : In label labels) by (apply Huse; lia).
    destruct (In_nth_error _ _ Hin) as (i & Hi).
    assert (Hip : i < length pop).
    { rewrite <- Hlen. apply nth_error_Some. congruence. }
    destruct (nth_error pop i) as [c|] eqn:Ec;
      [|apply nth_error_None in Ec; lia].
    assert (Hc : In c (cells_of (nclusters self)
                                (fun c => lookup c (combine pop labels)) label)).
    { unfold cells_of. apply filter_In. split.
      - assert (Hcp : In c pop) by (eapply nth_error_In; eauto).
        unfold pop, populated in Hcp. apply filter_In in Hcp. tauto.
      - rewrite (lookup_combine_nth pop labels i c label
                   (NoDup_populated _ _) Ec Hi).
        apply Nat.eqb_refl. }
    intro Hnil. rewrite Hnil in Hc. destruct Hc.
  - eauto.
Qed.

End KmeansReturns.

Section KmeansChoice.
Import Kmeans.

Lemma feqb_eq (x y : float) : feqb x y = true -> x = y.
Proof.
  destruct x, y; simpl; try discriminate; try reflexivity.
  destruct (Req_dec_T r r0); [intros _; congruence | discriminate].
Qed.

Lemma filter_two_inv (A : Type) (f : A -> bool) (l : list A) :
  2 <= length (filter f l) ->
  exists i j a b,
    i < j /\ nth_error l i = Some a /\ nth_error l j = Some b /\
    f a = true /\ f b = true.
Proof.
  induction l as [|x l IH]; simpl; intro H; [lia|].
  destruct (f x) eqn:E.
  - simpl in H.
    destruct (filter f l) as [|b fl] eqn:Ef; [simpl in H; lia|].
    assert (Hb : In b (filter f l)) by (rewrite Ef; left; reflexivity).
    apply filter_In in Hb. destruct Hb as (Hb & Hfb).
    destruct (In_nth_error _ _ Hb) as (j & Hj).
    exists 0, (S j), x, b. repeat split; auto. lia.
  - destruct (IH H) as (i & j & a & b & Hij & Ha & Hb & Hfa & Hfb).
    exists (S i), (S j), a, b. repeat split; auto. lia.
Qed.

(** The choice among the scores of a pass over a sorted range: the first
    index of the largest score, hence the least k among those of largest
    score; the warning is raised exactly when another entry has the same
    score. *)
Lemma pick_k_sorted (ks : list Z) (fits : list (list nat * float)) :
  StronglySorted Z.le ks -> ks <> [] -> length fits = length ks ->
  Forall (fun f => is_finite (snd f)) fits ->
  exists idx k labels best tie,
    pick_k ks fits = Some (map snd fits, k, labels, tie) /\
    nth_error ks idx = Some k /\
    nth_error fits idx = Some (labels, best) /\
    (forall s, In s (map snd fits) -> flt best s = false) /\
    (forall j k', nth_error ks j = Some k' ->
                  nth_error (map snd fits) j = Some best -> (k <= k')%Z) /\
    (tie = true <->
     exists j, j <> idx /\ nth_error (map snd fits) j = Some best).
Proof.
  intros Hsorted Hne Hlen Hfin.
  set (scores := map snd fits).
  assert (Hfs : Forall is_finite scores).
  { apply Forall_forall. intros y Hy. apply in_map_iff in Hy.
    destruct Hy as (f & <- & Hf). rewrite Forall_forall in Hfin. auto. }
  destruct scores as [|s0 ss] eqn:Escores.
  { exfalso. apply Hne. apply length_zero_iff_nil.
    rewrite <- Hlen, <- (length_map snd fits). fold scores.
    rewrite Escores. reflexivity. }
  pose proof (max_scan_vector s0 ss Hfs) as Hscan.
  unfold pick_k. fold scores. rewrite Escores. cbn [argmax].
  set (i := fst (max_scan ss 1 (0, s0))) in *.
  set (v := snd (max_scan ss 1 (0, s0))) in *.
  destruct Hscan as (Hnth & Hbest & Hfirst). cbn beta in Hbest, Hfirst.
  rewrite <- Escores in *.
  assert (Hi : i < length fits).
  { rewrite <- (length_map snd fits). fold scores.
    apply nth_error_Some. congruence. }
  destruct (nth_error fits i) as [[lab b]|] eqn:Ef;
    [|apply nth_error_None in Ef; lia].
  assert (Hb : b = v).
  { unfold scores in Hnth. rewrite nth_error_map, Ef in Hnth.
    simpl in Hnth. congruence. }
  subst b.
  destruct (nth_error ks i) as [k|] eqn:Ek;
    [|apply nth_error_None in Ek; lia].
  assert (Hfv : is_finite v).
  { rewrite Forall_forall in Hfs. apply Hfs. eapply nth_error_In; eauto. }
  exists i, k, lab, v, (1 <? count_eq v scores).
  rewrite (nth_error_nth scores i NaN Hnth).
  rewrite (nth_error_nth ks i 0%Z Ek).
  assert (Hl : nth_error (map fst fits) i = Some lab)
    by (rewrite nth_error_map, Ef; reflexivity).
  rewrite (nth_error_nth _ i [] Hl).
  split; [reflexivity|]. split; [exact Ek|]. split; [exact Ef|].
  split; [exact Hbest|]. split.
  - intros j k' Hj Hs.
    destruct (Nat.lt_ge_cases j i) as [Hlt | Hge].
    + specialize (Hfirst j v Hlt Hs). rewrite flt_irrefl in Hfirst.
      discriminate.
    + eapply sorted_nth_le; eauto.
  - unfold count_eq. split.
    + intro Ht. apply Nat.ltb_lt in Ht.
      destruct (filter_two_inv _ (feqb v) scores Ht)
        as (a & b & x & y & Hab & Hx & Hy & Hfx & Hfy).
      apply feqb_eq in Hfx. apply feqb_eq in Hfy. subst x y.
      destruct (Nat.eq_dec a i) as [-> | Hai].
      * exists b. split; [lia | exact Hy].
      * exists a. split; [exact Hai | exact Hx].
    + intros (j & Hji & Hj). apply Nat.ltb_lt.
      assert (Hv : feqb v v = true) by (apply feqb_refl_finite; exact Hfv).
      destruct (Nat.lt_ge_cases i j).
      * apply (filter_two float (feqb v) scores i j v v); auto.
      * apply (filter_two float (feqb v) scores j i v v); auto. lia.
Qed.

(** The choice depends on the labellings through their scores only. *)
Lemma pick_k_same_scores (ks : list Z) (fits fits2 : list (list nat * float))
    (scores : list float) (k : Z) (lab : list nat) (tie : bool) :
  pick_k ks fits = Some (scores, k, lab, tie) ->
  map snd fits2 = map snd fits ->
  exists idx,
    argmax scores = Some idx /\ nth idx ks 0%Z = k /\
    pick_k ks fits2 = Some (scores, k, nth idx (map fst fits2) [], tie).
Proof.
  unfold pick_k. intros H Hs. rewrite Hs.
  destruct (argmax (map snd fits)) as [idx|] eqn:E; [|discriminate].
  inversion H; subst. clear H. exists idx. rewrite E. auto.
Qed.

(** The constructor depends on the requested range through its sorted
    form only. *)
Lemma init_of_perm (Zarr : ndarray) (cls : list (list nat)) (ncls : list nat)
    (ks ks' : list Z) (num : Z) (den : positive) (it : nat) :
  Permutation ks ks' ->
  __init__ Zarr cls ncls (Some ks') num den it
  = __init__ Zarr cls ncls (Some ks) num den it.
Proof.
  intro Hp. unfold __init__. rewrite (sort_of_perm ks ks' Hp). reflexivity.
Qed.


End KmeansChoice.


(* ================================================================== *)
(** * Further properties of the code *)
(* ================================================================== *)

(** ** Best of N, in the order of completion *)

Lemma first_minimal_single (A : Type) (err : A -> float) (x : A) :
  first_minimal err [x] 0 x.
Proof.
  split; [reflexivity|]. split.
  - intros y [<- | []]. apply flt_irrefl.
  - intros j y Hj. lia.
Qed.

(** One more run [x] after the runs [seen]: it takes the place of the
    best run [b] exactly when its error is below the error of [b]. *)
Lemma first_minimal_snoc (A : Type) (err : A -> float) (seen : list A)
    (x : A) (i : nat) (b : A) :
  Forall (fun y => is_finite (err y)) (seen ++ [x]) ->
  first_minimal err seen i b ->
  (flt (err x) (err b) = true ->
   first_minimal err (seen ++ [x]) (length seen) x) /\
  (flt (err x) (err b) = false ->
   first_minimal err (seen ++ [x]) i b).
Proof.
  intros Hfin (Hnth & Hmin & Hfirst).
  rewrite Forall_forall in Hfin.
  assert (Hi : i < length seen) by (apply nth_error_Some; congruence).
  assert (Hb : In b seen) by (eapply nth_error_In; eauto).
  assert (Hfx : is_finite (err x))
    by (apply Hfin, in_or_app; right; left; reflexivity).
  assert (Hfb : is_finite (err b)) by (apply Hfin, in_or_app; left; exact Hb).
  assert (Hfs : forall y, In y seen -> is_finite (err y))
    by (intros y Hy; apply Hfin, in_or_app; left; exact Hy).
  split; intro Hlt.
  - split; [rewrite nth_error_app2, Nat.sub_diag by lia; reflexivity|]. split.
    + intros y Hy. apply in_app_or in Hy. destruct Hy as [Hy | [<- | []]].
      * apply (flt_step (err x) (err b) (err y)); auto.
      * apply flt_irrefl.
    + intros j y Hj Hy. rewrite nth_error_app1 in Hy by exact Hj.
      assert (Hin : In y seen) by (eapply nth_error_In; eauto).
      apply (flt_step (err x) (err b) (err y)); auto.
  - split; [rewrite nth_error_app1 by exact Hi; exact Hnth|]. split.
    + intros y Hy. apply in_app_or in Hy. destruct Hy as [Hy | [<- | []]].
      * apply Hmin. exact Hy.
      * exact Hlt.
    + intros j y Hj Hy. rewrite nth_error_app1 in Hy by lia.
      apply (Hfirst j y Hj Hy).
Qed.

Lemma count_converged_cons (c : bool) (flags : list bool) :
  count_converged (c :: flags)
  = (if c then 1 else 0) + count_converged flags.
Proof.
  unfold count_converged. destruct c; reflexivity.
Qed.

(** ** The runners of cgc/coclustering.py *)

Section CgcRunners.
Import CgcCoclustering.

Lemma absorb_all_first (self : Coclustering) (completed : list RunResult) :
  forall (seen : list RunResult) (st : store) (r : CoclusteringResults),
    load_results st (results self) = Some r ->
    Forall (fun run => is_finite (r_e run)) (seen ++ completed) ->
    holds_first r seen ->
    exists st' r',
      absorb_all self st completed = Some st' /\
      load_results st' (results self) = Some r' /\
      holds_first r' (seen ++ completed).
Proof.
  induction completed as [|run rest IH]; intros seen st r Hload Hfin Hbest.
  - exists st, r. rewrite app_nil_r. simpl. auto.
  - destruct (absorb_spec self st run r Hload)
      as (st1 & r1 & Habs & Hload1 & _ & _ & _ & Hcase).
    replace (seen ++ run :: rest) with ((seen ++ [run]) ++ rest) in *
      by (rewrite <- app_assoc; reflexivity).
    assert (Hfin1 : Forall (fun x => is_finite (r_e x)) (seen ++ [run]))
      by (apply Forall_app in Hfin; tauto).
    assert (Hbest1 : holds_first r1 (seen ++ [run])).
    { destruct Hbest as (i & b & Hfm & He & Hrow & Hcol).
      destruct (first_minimal_snoc _ r_e seen run i b Hfin1 Hfm)
        as (Htrue & Hfalse).
      rewrite He in Hcase.
      destruct Hcase as [(Hlt & He1 & Hr1 & Hc1) | (Hlt & He1 & Hr1 & Hc1)].
      - exists (length seen), run. auto.
      - exists i, b. repeat split; try congruence; apply (Hfalse Hlt). }
    destruct (IH (seen ++ [run]) st1 r1 Hload1 Hfin Hbest1)
      as (st2 & r2 & Hall & Hload2 & Hbest2).
    exists st2, r2. simpl. rewrite Habs. auto.
Qed.

Lemma absorb_all_counts (self : Coclustering) (completed : list RunResult) :
  forall (st : store) (r : CoclusteringResults),
    load_results st (results self) = Some r ->
    exists st' r',
      absorb_all self st completed = Some st' /\
      load_results st' (results self) = Some r' /\
      nruns_completed r' = nruns_completed r + length completed /\
      nruns_converged r'
      = nruns_converged r + count_converged (map r_converged completed).
Proof.
  induction completed as [|run rest IH]; intros st r Hload.
  - exists st, r. simpl. unfold count_converged. simpl.
    rewrite !Nat.add_0_r. auto.
  - destruct (absorb_spec self st run r Hload)
      as (st1 & r1 & Habs & Hload1 & _ & Hcomp & Hconv & _).
    destruct (IH st1 r1 Hload1) as (st2 & r2 & Hall & Hload2 & Hc2 & Hv2).
    exists st2, r2. simpl. rewrite Habs.
    split; [exact Hall|]. split; [exact Hload2|].
    rewrite count_converged_cons, Hc2, Hv2, Hcomp, Hconv.
    destruct (r_converged run); split; lia.
Qed.

(** Neither runner writes to an object other than [self.results]. *)
Lemma absorb_all_frame (self : Coclustering) (completed : list RunResult) :
  forall (st st' : store),
    absorb_all self st completed = Some st' ->
    length st' = length st /\
    forall a, a <> results self -> load st' a = load st a.
Proof.
  induction completed as [|run rest IH]; intros st st' H; simpl in H.
  - inversion H; subst. auto.
  - destruct (absorb self st run) as [st1|] eqn:E; [|discriminate].
    destruct (IH st1 st' H) as (Hlen & Hfr).
    unfold absorb in E.
    destruct (load_results st (results self)) as [r|]; [|discriminate].
    inversion E; subst st1. clear E.
    rewrite length_put in Hlen. split; [exact Hlen|].
    intros a Ha. rewrite (Hfr a Ha). apply load_put_other. congruence.
Qed.

Lemma run_with_threads_after (self : Coclustering) (st st1 : store)
    (completed : list RunResult) (r : CoclusteringResults) :
  absorb_all self st completed = Some st1 ->
  load_results st1 (results self) = Some r ->
  exists st' ret,
    run_with_threads self st completed = Some (st', ret) /\
    load_results st' (results self) = Some r /\
    load_results st' ret = Some r /\
    ret <> results self.
Proof.
  intros Hall Hload. unfold run_with_threads. rewrite Hall.
  destruct (copy_copy st1 (results self)) as [[st' ret]|] eqn:E.
  - destruct (copy_copy_fresh st1 st' (results self) ret r Hload E)
      as (Hne & Hret & Hint).
    exists st', ret. auto.
  - unfold copy_copy in E. unfold load_results in Hload.
    destruct (load st1 (results self)); discriminate.
Qed.

(** X1: in [cgc/coclustering.py] the thread runner, started on fresh
    results with at least one run (finite errors), returns, and
    [self.results] then holds the error and the labels of the first run,
    in completion order, whose error is least: a later run of equal error
    does not replace it. *)
Theorem cgc_threads_keep_first_minimum
    (self : Coclustering) (st : store) (completed : list RunResult) :
  load_results st (results self) = Some new_results ->
  completed <> [] ->
  Forall (fun run => is_finite (r_e run)) completed ->
  exists st' ret r i run,
    run_with_threads self st completed = Some (st', ret) /\
    load_results st' (results self) = Some r /\
    first_minimal r_e completed i run /\
    error r = Some (r_e run) /\
    row_clusters r = Some (r_row run) /\
    col_clusters r = Some (r_col run).
Proof.
  intros Hload Hne Hfin.
  destruct completed as [|run0 rest]; [congruence|].
  destruct (absorb_spec self st run0 new_results Hload)
    as (st1 & r1 & Habs & Hload1 & _ & _ & _ & Hcase).
  cbn [error new_results] in Hcase.
  destruct Hcase as [(_ & He1 & Hr1 & Hc1) | (Hlt & _)]; [|discriminate].
  assert (Hbest1 : holds_first r1 [run0]).
  { exists 0, run0. split; [apply first_minimal_single | auto]. }
  destruct (absorb_all_first self rest [run0] st1 r1 Hload1 Hfin Hbest1)
    as (st2 & r2 & Hall & Hload2 & (i & run & Hfm & He & Hr & Hc)).
  assert (Hall' : absorb_all self st (run0 :: rest) = Some st2)
    by (simpl; rewrite Habs; exact Hall).
  destruct (run_with_threads_after self st st2 (run0 :: rest) r2 Hall' Hload2)
    as (st' & ret & Hrun & Hint & _).
  exists st', ret, r2, i, run. auto 10.
Qed.

Lemma cgc_threads_keep_first_minimum_witness :
  let st := [NdArray [0; 1]; NdArray [1; 0]; ResultsObj new_results] in
  let runs := [mk_run true 3 0 1 (Fin 2); mk_run false 5 1 0 (Fin 1);
               mk_run true 2 0 0 (Fin 1)] in
  exists st' ret r i run,
    run_with_threads (mk_self 3 2) st runs = Some (st', ret) /\
    load_results st' 2 = Some r /\
    first_minimal r_e runs i run /\
    error r = Some (r_e run) /\
    row_clusters r = Some (r_row run) /\
    col_clusters r = Some (r_col run).
Proof.
  cbv zeta.
  apply (cgc_threads_keep_first_minimum (mk_self 3 2)
           [NdArray [0; 1]; NdArray [1; 0]; ResultsObj new_results]
           [mk_run true 3 0 1 (Fin 2); mk_run false 5 1 0 (Fin 1);
            mk_run true 2 0 0 (Fin 1)]).
  - reflexivity.
  - discriminate.
  - repeat constructor.
Defined.

(** X2: the thread runner of [cgc/coclustering.py] returns for every
    list of completed runs, whatever their errors, and adds to the
    counters of [self.results]: [nruns_completed] grows by the number of
    runs and [nruns_converged] by the number of runs that report
    convergence.  The counters are not reset, so they accumulate over
    the calls on one object. *)
Theorem cgc_threads_count_runs
    (self : Coclustering) (st : store) (completed : list RunResult)
    (r0 : CoclusteringResults) :
  load_results st (results self) = Some r0 ->
  exists st' ret r,
    run_with_threads self st completed = Some (st', ret) /\
    load_results st' (results self) = Some r /\
    nruns_completed r = nruns_completed r0 + length completed /\
    nruns_converged r
    = nruns_converged r0 + count_converged (map r_converged completed).
Proof.
  intro Hload.
  destruct (absorb_all_counts self completed st r0 Hload)
    as (st1 & r1 & Hall & Hload1 & Hc & Hv).
  destruct (run_with_threads_after self st st1 completed r1 Hall Hload1)
    as (st' & ret & Hrun & Hint & _).
  exists st', ret, r1. auto.
Qed.

Lemma cgc_threads_count_runs_witness :
  exists st' ret r,
    run_with_threads (mk_self 2 0)
      [ResultsObj (mk_results None None (Some (Fin 1)) 4 3)]
      [mk_run true 3 7 8 NaN; mk_run false 5 7 8 (Fin 2)] = Some (st', ret) /\
    load_results st' 0 = Some r /\
    nruns_completed r = 4 + 2 /\
    nruns_converged r = 3 + 1.
Proof.
  apply (cgc_threads_count_runs (mk_self 2 0)
           [ResultsObj (mk_results None None (Some (Fin 1)) 4 3)]
           [mk_run true 3 7 8 NaN; mk_run false 5 7 8 (Fin 2)]
           (mk_results None None (Some (Fin 1)) 4 3)).
  reflexivity.
Defined.

(** *** The dask runners *)

Lemma observe_load_results (st : store) (a : addr)
    (o : option (list nat) * option (list nat) * option float * nat * nat) :
  observe st a = Some o -> exists r, load_results st a = Some r.
Proof.
  unfold observe. destruct (load_results st a) as [r|]; [eauto | discriminate].
Qed.

Lemma load_array_new (st : store) (d : list nat) (tl : store) :
  load_array (st ++ NdArray d :: tl) (length st) = Some d.
Proof.
  unfold load_array, load. rewrite nth_error_app2 by lia.
  rewrite Nat.sub_diag. reflexivity.
Qed.

(** One run absorbed by a dask runner, as a reader of [self.results]
    sees it. *)
Lemma absorb_dask_observe (self : Coclustering) (st : store)
    (run : DaskRunResult) (rows cols : option (list nat))
    (err : option float) (n1 n2 : nat) :
  observe st (results self) = Some (rows, cols, err, n1, n2) ->
  let better := match err with
                | None => true
                | Some err => flt (d_e run) err
                end in
  exists st',
    absorb_dask self st run = Some st' /\
    length st <= length st' /\
    (forall a, a < length st -> a <> results self -> load st' a = load st a) /\
    observe st' (results self)
    = Some (if better then Some (d_row run) else rows,
            if better then Some (d_col run) else cols,
            if better then Some (d_e run) else err,
            S n1,
            if d_converged run then S n2 else n2).
Proof.
  intros Hobs better. unfold observe in Hobs.
  destruct (load_results st (results self)) as [r|] eqn:Hload; [|discriminate].
  inversion Hobs as [[Hrows Hcols Herr Hn1 Hn2]]. clear Hobs.
  unfold absorb_dask. rewrite Hload.
  assert (Hb : forall r1 r2 : CoclusteringResults,
             error r1 = err -> error r2 = err ->
             match error (if d_converged run then r1 else r2) with
             | None => true
             | Some err0 => flt (d_e run) err0
             end = better).
  { intros r1 r2 H1 H2.
    destruct (d_converged run); [rewrite H1 | rewrite H2]; reflexivity. }
  assert (Hd : forall (st0 : store) (r' : CoclusteringResults)
                      (o : option addr),
             load_results st0 (results self) = Some r ->
             match o with
             | None => None
             | Some p => load_array (put st0 (results self) (ResultsObj r')) p
             end
             = match o with
               | None => None
               | Some p => load_array st0 p
               end).
  { intros st0 r' [p|] H0; [|reflexivity].
    apply (load_array_put_results st0 (results self) p r r' H0). }
  cbv zeta. rewrite Hb by exact Herr. clear Hb.
  destruct better eqn:Ebetter.
  - unfold alloc. eexists. split; [reflexivity|].
    assert (Hload2 : load_results
                       ((st ++ [NdArray (d_row run)]) ++ [NdArray (d_col run)])
                       (results self) = Some r).
    { apply (load_results_alloc_old (st ++ [NdArray (d_row run)])).
      apply (load_results_alloc_old st). exact Hload. }
    split; [rewrite length_put, !length_app; simpl; lia|].
    split.
    + intros a Ha Hne. rewrite load_put_other by congruence.
      unfold load. rewrite !nth_error_app1; [reflexivity | exact Ha |].
      rewrite length_app. simpl. lia.
    + unfold observe.
      rewrite (load_results_put_same _ _ r _ Hload2).
      cbn [row_clusters col_clusters error nruns_completed nruns_converged].
      rewrite !(load_array_put_results _ _ _ r _ Hload2).
      rewrite <- app_assoc. cbn [app]. rewrite load_array_new.
      replace (st ++ [NdArray (d_row run); NdArray (d_col run)])
        with ((st ++ [NdArray (d_row run)]) ++ [NdArray (d_col run)])
        by (rewrite <- app_assoc; reflexivity).
      rewrite load_array_new.
      destruct (d_converged run); cbn; rewrite Hn1, Hn2; reflexivity.
  - eexists. split; [reflexivity|].
    split; [rewrite length_put; lia|].
    split.
    + intros a Ha Hne. apply load_put_other. congruence.
    + unfold observe.
      rewrite (load_results_put_same _ _ r _ Hload).
      destruct (d_converged run);
        cbn [row_clusters col_clusters error nruns_completed nruns_converged];
        rewrite !(Hd st _ _ Hload), Hrows, Hcols, Herr, Hn1, Hn2; reflexivity.
Qed.

Lemma absorb_all_dask_first (self : Coclustering)
    (runs : list DaskRunResult) :
  forall (seen : list DaskRunResult) (st : store) (i : nat)
         (b : DaskRunResult) (n1 n2 : nat),
    Forall (fun run => is_finite (d_e run)) (seen ++ runs) ->
    first_minimal d_e seen i b ->
    observe st (results self)
    = Some (Some (d_row b), Some (d_col b), Some (d_e b), n1, n2) ->
    exists st' i' b',
      absorb_all_dask self st runs = Some st' /\
      first_minimal d_e (seen ++ runs) i' b' /\
      observe st' (results self)
      = Some (Some (d_row b'), Some (d_col b'), Some (d_e b'),
              n1 + length runs,
              n2 + count_converged (map d_converged runs)).
Proof.
  induction runs as [|run rest IH]; intros seen st i b n1 n2 Hfin Hfm Hobs.
  - exists st, i, b. rewrite app_nil_r. simpl. unfold count_converged. simpl.
    rewrite !Nat.add_0_r. auto.
  - destruct (absorb_dask_observe self st run _ _ _ _ _ Hobs)
      as (st1 & Habs & _ & _ & Hobs1).
    cbv zeta in Hobs1.
    replace (seen ++ run :: rest) with ((seen ++ [run]) ++ rest) in *
      by (rewrite <- app_assoc; reflexivity).
    assert (Hfin1 : Forall (fun x => is_finite (d_e x)) (seen ++ [run]))
      by (apply Forall_app in Hfin; tauto).
    destruct (first_minimal_snoc _ d_e seen run i b Hfin1 Hfm)
      as (Htrue & Hfalse).
    assert (Hstep : exists i1 b1,
               first_minimal d_e (seen ++ [run]) i1 b1 /\
               observe st1 (results self)
               = Some (Some (d_row b1), Some (d_col b1), Some (d_e b1),
                       S n1, if d_converged run then S n2 else n2)).
    { destruct (flt (d_e run) (d_e b)) eqn:E.
      - exists (length seen), run. split; [exact (Htrue eq_refl) | exact Hobs1].
      - exists i, b. split; [exact (Hfalse eq_refl) | exact Hobs1]. }
    destruct Hstep as (i1 & b1 & Hfm1 & Hobs1').
    destruct (IH (seen ++ [run]) st1 i1 b1 _ _ Hfin Hfm1 Hobs1')
      as (st2 & i2 & b2 & Hall & Hfm2 & Hobs2).
    exists st2, i2, b2. simpl absorb_all_dask. rewrite Habs.
    split; [exact Hall|]. split; [exact Hfm2|].
    rewrite Hobs2. cbn [map length]. rewrite count_converged_cons.
    f_equal. f_equal; [f_equal; lia | destruct (d_converged run); lia].
Qed.

Lemma absorb_all_dask_frame (self : Coclustering)
    (runs : list DaskRunResult) :
  forall (st st' : store) (r : CoclusteringResults),
    load_results st (results self) = Some r ->
    absorb_all_dask self st runs = Some st' ->
    length st <= length st' /\
    forall a, a < length st -> a <> results self -> load st' a = load st a.
Proof.
  induction runs as [|run rest IH]; intros st st' r Hload H; simpl in H.
  - inversion H; subst. auto.
  - assert (Hobs : exists o, observe st (results self) = Some o)
      by (unfold observe; rewrite Hload; eauto).
    destruct Hobs as ([[[[rows cols] err] n1] n2] & Hobs).
    destruct (absorb_dask_observe self st run _ _ _ _ _ Hobs)
      as (st1 & Habs & Hlen & Hfr & Hobs1).
    rewrite Habs in H.
    destruct (observe_load_results _ _ _ Hobs1) as (r1 & Hload1).
    destruct (IH st1 st' r1 Hload1 H) as (Hlen2 & Hfr2).
    split; [lia|]. intros a Ha Hne.
    rewrite Hfr2 by (try lia; exact Hne). apply Hfr; assumption.
Qed.

(** [copy.copy(self.results)] at the end of a runner. *)
Lemma load_array_alloc_results (st : store) (r : CoclusteringResults)
    (p : addr) :
  load_array (st ++ [ResultsObj r]) p = load_array st p.
Proof.
  unfold load_array, load.
  destruct (Nat.lt_ge_cases p (length st)) as [Hlt | Hge].
  - rewrite nth_error_app1 by exact Hlt. reflexivity.
  - rewrite nth_error_app2 by exact Hge.
    replace (nth_error st p) with (@None pyobj)
      by (symmetry; apply nth_error_None; exact Hge).
    destruct (p - length st) as [|k]; [reflexivity|].
    destruct k; reflexivity.
Qed.

Lemma copy_copy_observe (st st' : store) (a ret : addr)
    (r : CoclusteringResults) :
  load_results st a = Some r ->
  copy_copy st a = Some (st', ret) ->
  st' = st ++ [ResultsObj r] /\ ret = length st /\
  observe st' a = observe st a /\ observe st' ret = observe st a.
Proof.
  intros Hload H.
  destruct (copy_copy_fresh st st' a ret r Hload H) as (Hne & Hret & Ha).
  assert (Hst : st' = st ++ [ResultsObj r] /\ ret = length st).
  { unfold copy_copy in H. unfold load_results in Hload.
    destruct (load st a) as [[d|r1]|]; try discriminate.
    inversion Hload; subst r1. unfold alloc in H. inversion H. auto. }
  destruct Hst as (Hst & Hr). split; [exact Hst|]. split; [exact Hr|].
  unfold observe. rewrite Hret, Ha, Hload. subst st'.
  destruct (row_clusters r), (col_clusters r);
    rewrite ?load_array_alloc_results; auto.
Qed.

Lemma run_with_dask_unfold (self : Coclustering) (st : store)
    (low_memory : bool) (runs : list DaskRunResult) :
  run_with_dask self st low_memory runs
  = match absorb_all_dask self st runs with
    | Some st' => copy_copy st' (results self)
    | None => None
    end.
Proof.
  unfold run_with_dask, _dask_runs_memory, _dask_runs_performance.
  destruct low_memory; reflexivity.
Qed.

(** X3: the dask runners of [cgc/coclustering.py] (sequential or all at
    once), started on fresh results with at least one run (finite
    errors), return; a reader of [self.results] then sees the labels,
    by content, and the error of the first run of least error, the
    number of runs, and the number of runs that report convergence. *)
Theorem cgc_dask_keeps_first_minimum
    (self : Coclustering) (st : store) (low_memory : bool)
    (runs : list DaskRunResult) :
  load_results st (results self) = Some new_results ->
  runs <> [] ->
  Forall (fun run => is_finite (d_e run)) runs ->
  exists st' ret i run,
    run_with_dask self st low_memory runs = Some (st', ret) /\
    first_minimal d_e runs i run /\
    observe st' (results self)
    = Some (Some (d_row run), Some (d_col run), Some (d_e run),
            length runs, count_converged (map d_converged runs)).
Proof.
  intros Hload Hne Hfin.
  destruct runs as [|run0 rest]; [congruence|].
  assert (Hobs : observe st (results self) = Some (None, None, None, 0, 0))
    by (unfold observe; rewrite Hload; reflexivity).
  destruct (absorb_dask_observe self st run0 _ _ _ _ _ Hobs)
    as (st1 & Habs & _ & _ & Hobs1).
  cbv zeta in Hobs1.
  destruct (absorb_all_dask_first self rest [run0] st1 0 run0 _ _ Hfin
              (first_minimal_single _ d_e run0) Hobs1)
    as (st2 & i & run & Hall & Hfm & Hobs2).
  destruct (observe_load_results _ _ _ Hobs2) as (r2 & Hload2).
  rewrite run_with_dask_unfold. simpl absorb_all_dask. rewrite Habs, Hall.
  destruct (copy_copy st2 (results self)) as [[st' ret]|] eqn:E.
  - destruct (copy_copy_observe st2 st' _ ret r2 Hload2 E)
      as (_ & _ & Hsame & _).
    exists st', ret, i, run. split; [reflexivity|]. split; [exact Hfm|].
    rewrite Hsame, Hobs2. cbn [map length]. rewrite count_converged_cons.
    reflexivity.
  - unfold copy_copy in E. unfold load_results in Hload2.
    destruct (load st2 (results self)); discriminate.
Qed.

Lemma cgc_dask_keeps_first_minimum_witness :
  let runs := [mk_drun true 3 [0; 1] [1; 0] (Fin 2);
               mk_drun false 5 [1; 1] [0; 0] (Fin 1);
               mk_drun true 2 [1; 0] [0; 1] (Fin 1)] in
  exists st' ret i run,
    run_with_dask (mk_self 3 0) [ResultsObj new_results] true runs
    = Some (st', ret) /\
    first_minimal d_e runs i run /\
    observe st' 0
    = Some (Some (d_row run), Some (d_col run), Some (d_e run),
            3, count_converged [true; false; true]).
Proof.
  cbv zeta.
  apply (cgc_dask_keeps_first_minimum (mk_self 3 0) [ResultsObj new_results]
           true
           [mk_drun true 3 [0; 1] [1; 0] (Fin 2);
            mk_drun false 5 [1; 1] [0; 0] (Fin 1);
            mk_drun true 2 [1; 0] [0; 1] (Fin 1)]).
  - reflexivity.
  - discriminate.
  - repeat constructor.
Defined.

(** What a runner leaves when it returns. *)
Lemma runner_returns_copy (self : Coclustering) (st st1 : store)
    (ret : addr) (r0 : CoclusteringResults) :
  load_results st (results self) = Some r0 ->
  (exists completed, run_with_threads self st completed = Some (st1, ret)) \/
  (exists low_memory runs,
      run_with_dask self st low_memory runs = Some (st1, ret)) ->
  exists st' r,
    load_results st' (results self) = Some r /\
    copy_copy st' (results self) = Some (st1, ret) /\
    length st <= length st' /\
    forall a, a < length st -> a <> results self -> load st' a = load st a.
Proof.
  intros Hload [(completed & H) | (lm & runs & H)].
  - unfold run_with_threads in H.
    destruct (absorb_all self st completed) as [st'|] eqn:E; [|discriminate].
    destruct (absorb_all_keeps_results self completed st st' r0 Hload E)
      as (r & Hr).
    destruct (absorb_all_frame self completed st st' E) as (Hlen & Hfr).
    exists st', r. repeat split; auto; lia.
  - rewrite run_with_dask_unfold in H.
    destruct (absorb_all_dask self st runs) as [st'|] eqn:E; [|discriminate].
    destruct (absorb_all_dask_keeps_results self runs st st' r0 Hload E)
      as (r & Hr).
    destruct (absorb_all_dask_frame self runs st st' r0 Hload E)
      as (Hlen & Hfr).
    exists st', r. auto.
Qed.

(** X4: the object a runner of [cgc/coclustering.py] returns is a new
    object that shows, at the return, exactly what [self.results] shows:
    the same labels, error and counters. *)
Theorem cgc_returned_object_shows_results
    (self : Coclustering) (st st1 : store) (ret : addr)
    (r0 : CoclusteringResults) :
  load_results st (results self) = Some r0 ->
  (exists completed, run_with_threads self st completed = Some (st1, ret)) \/
  (exists low_memory runs,
      run_with_dask self st low_memory runs = Some (st1, ret)) ->
  length st <= ret /\
  load st ret = None /\
  exists o, observe st1 ret = Some o /\ observe st1 (results self) = Some o.
Proof.
  intros Hload Hrun.
  destruct (runner_returns_copy self st st1 ret r0 Hload Hrun)
    as (st' & r & Hr & Hcopy & Hlen & _).
  destruct (copy_copy_observe st' st1 _ ret r Hr Hcopy)
    as (_ & Hret & Hsame & Hnew).
  split; [lia|]. split; [apply nth_error_None; lia|].
  rewrite Hsame, Hnew. unfold observe. rewrite Hr. eauto.
Qed.

Lemma cgc_returned_object_shows_results_witness :
  let st := [NdArray [0; 1]; NdArray [1; 0]; ResultsObj new_results] in
  let st1 := [NdArray [0; 1]; NdArray [1; 0];
              ResultsObj (mk_results (Some 0) (Some 1) (Some (Fin 1)) 1 1);
              ResultsObj (mk_results (Some 0) (Some 1) (Some (Fin 1)) 1 1)] in
  length st <= 3 /\
  load st 3 = None /\
  exists o, observe st1 3 = Some o /\ observe st1 2 = Some o.
Proof.
  cbv zeta.
  apply (cgc_returned_object_shows_results (mk_self 1 2)
           [NdArray [0; 1]; NdArray [1; 0]; ResultsObj new_results]
           _ 3 new_results).
  - reflexivity.
  - left. exists [mk_run true 1 0 1 (Fin 1)]. reflexivity.
Defined.

(** X5: a runner of [cgc/coclustering.py] writes to [self.results] and to
    objects it creates, and to nothing else: a results object returned
    by an earlier call shows the same labels, error and counters after a
    later call on the same [Coclustering] object. *)
Theorem cgc_earlier_result_is_kept
    (self : Coclustering) (st st1 : store) (ret old : addr)
    (r0 : CoclusteringResults) (rows cols : list nat) (e : option float)
    (n1 n2 : nat) :
  load_results st (results self) = Some r0 ->
  (exists completed, run_with_threads self st completed = Some (st1, ret)) \/
  (exists low_memory runs,
      run_with_dask self st low_memory runs = Some (st1, ret)) ->
  old <> results self ->
  observe st old = Some (Some rows, Some cols, e, n1, n2) ->
  observe st1 old = Some (Some rows, Some cols, e, n1, n2) /\ ret <> old.
Proof.
  intros Hload Hrun Hold Hobs.
  destruct (runner_returns_copy self st st1 ret r0 Hload Hrun)
    as (st' & r & Hr & Hcopy & Hlen & Hfr).
  destruct (copy_copy_observe st' st1 _ ret r Hr Hcopy)
    as (Hst1 & Hret & _ & _).
  assert (Hkeep : forall a, a < length st -> a <> results self ->
                            load st1 a = load st a).
  { intros a Ha Hne. rewrite <- (Hfr a Ha Hne). subst st1. unfold load.
    apply nth_error_app1. lia. }
  unfold observe in Hobs.
  destruct (load_results st old) as [ro|] eqn:Hro; [|discriminate].
  pose proof (load_results_lt st old ro Hro) as Hlt.
  split; [|lia].
  assert (Harr : forall p d, load_array st p = Some d ->
                             load_array st1 p = Some d).
  { intros p d Hp. unfold load_array in *.
    destruct (load st p) as [[d'|r']|] eqn:Ep; try discriminate.
    rewrite Hkeep, Ep; [exact Hp | eapply load_lt; eauto |].
    intro Heq. subst p. unfold load_results in Hload. rewrite Ep in Hload.
    discriminate. }
  unfold observe, load_results. rewrite (Hkeep old Hlt Hold).
  unfold load_results in Hro.
  destruct (load st old) as [[d|r']|]; try discriminate.
  inversion Hro; subst r'.
  destruct (row_clusters ro) as [p|]; [|discriminate].
  destruct (col_clusters ro) as [q|]; [|discriminate].
  destruct (load_array st p) as [dp|] eqn:Ep; [|discriminate].
  destruct (load_array st q) as [dq|] eqn:Eq; [|discriminate].
  rewrite (Harr p dp Ep), (Harr q dq Eq). exact Hobs.
Qed.

Lemma cgc_earlier_result_is_kept_witness :
  let st := [NdArray [0; 1]; NdArray [1; 0];
             ResultsObj (mk_results (Some 0) (Some 1) (Some (Fin 1)) 1 1);
             ResultsObj (mk_results (Some 0) (Some 1) (Some (Fin 1)) 1 1)] in
  let st1 := [NdArray [0; 1]; NdArray [1; 0];
              ResultsObj (mk_results (Some 0) (Some 1) (Some (Fin 1)) 2 1);
              ResultsObj (mk_results (Some 0) (Some 1) (Some (Fin 1)) 1 1);
              ResultsObj (mk_results (Some 0) (Some 1) (Some (Fin 1)) 2 1)] in
  observe st1 3 = Some (Some [0; 1], Some [1; 0], Some (Fin 1), 1, 1) /\
  4 <> 3.
Proof.
  cbv zeta.
  apply (cgc_earlier_result_is_kept (mk_self 1 2)
           [NdArray [0; 1]; NdArray [1; 0];
            ResultsObj (mk_results (Some 0) (Some 1) (Some (Fin 1)) 1 1);
            ResultsObj (mk_results (Some 0) (Some 1) (Some (Fin 1)) 1 1)]
           _ 4 3 (mk_results (Some 0) (Some 1) (Some (Fin 1)) 1 1)).
  - reflexivity.
  - left. exists [mk_run false 4 1 0 PInf]. reflexivity.
  - discriminate.
  - reflexivity.
Defined.

(** X6: the checks of [Coclustering.__init__] in [cgc/coclustering.py].
    The constructor returns exactly when [Z] has two dimensions and, if
    both initial assignments are given, [nruns] is 1 and the shape of [Z]
    is made of their lengths; with one initial assignment alone neither
    [nruns] nor the shape is checked.  When it returns, [self.results] is
    a new object holding no labels, no error and counters at zero, and no
    object that existed before is changed. *)
Theorem cgc_init_checks
    (st : store) (Z_ndim : nat) (Z_shape : nat * nat) (n : nat)
    (row_clusters_init col_clusters_init : option (list nat)) :
  let accepted :=
    Z_ndim = 2 /\
    forall r c, row_clusters_init = Some r -> col_clusters_init = Some c ->
                n = 1 /\ Z_shape = (length r, length c) in
  let made := __init__ st Z_ndim Z_shape n row_clusters_init
                       col_clusters_init in
  (accepted ->
   exists st' self,
     made = Some (st', self) /\ nruns self = n /\
     load st (results self) = None /\
     load_results st' (results self) = Some new_results /\
     forall a, a < length st -> load st' a = load st a) /\
  (~ accepted -> made = None).
Proof.
  cbv zeta. unfold __init__, alloc.
  assert (Hok : exists st' self,
             Some (st ++ [ResultsObj new_results], mk_self n (length st))
             = Some (st', self) /\ nruns self = n /\
             load st (results self) = None /\
             load_results st' (results self) = Some new_results /\
             forall a, a < length st -> load st' a = load st a).
  { eexists; eexists. split; [reflexivity|]. cbn [nruns results].
    split; [reflexivity|]. split; [apply nth_error_None; lia|]. split.
    - unfold load_results.
      change (st ++ [ResultsObj new_results])
        with (fst (alloc st (ResultsObj new_results))).
      change (length st) with (snd (alloc st (ResultsObj new_results))).
      rewrite load_alloc_new. reflexivity.
    - intros a Ha. unfold load. apply nth_error_app1. exact Ha. }
  destruct (Nat.eqb_spec Z_ndim 2) as [Hd | Hd]; cbn [negb].
  - destruct row_clusters_init as [r|], col_clusters_init as [c|];
      try (split; [intros _; exact Hok | intro Hn; exfalso; apply Hn;
                     split; [exact Hd | intros; discriminate]]).
    destruct Z_shape as [m k]. cbn [fst snd].
    destruct (Nat.eqb_spec n 1) as [Hn | Hn]; cbn [negb].
    + destruct (Nat.eqb_spec m (length r)) as [Hm | Hm];
        destruct (Nat.eqb_spec k (length c)) as [Hk | Hk]; cbn [andb negb];
        try (split; [intros (_ & H); destruct (H r c eq_refl eq_refl) as (_ & Hs);
                     inversion Hs; contradiction | reflexivity]).
      split; [intros _; exact Hok|].
      intro Hno. exfalso. apply Hno. split; [exact Hd|].
      intros r' c' Hr Hc. inversion Hr; inversion Hc; subst. auto.
    + split; [|reflexivity].
      intros (_ & H). destruct (H r c eq_refl eq_refl) as (H1 & _).
      contradiction.
  - split; [intros (H & _); contradiction | reflexivity].
Qed.

End CgcRunners.

(** ** The runners of geoclustering/coclustering.py *)

Section GeoRunners.
Import GeoCoclustering.

(** The locals [row_min, col_min, e_min] after the loop: still the seed
    when no error was below zero, else labels are held. *)
Lemma geo_fold_cases (runs : list RunResult) :
  (Forall (fun run => flt (r_e run) (Fin 0) = false) runs /\
   fold_left keep_best runs best_init = best_init) \/
  (Exists (fun run => flt (r_e run) (Fin 0) = true) runs /\
   exists row col e,
     fold_left keep_best runs best_init = (Some row, Some col, e)).
Proof.
  induction runs as [|x runs IH] using rev_ind.
  - left. split; [constructor | reflexivity].
  - rewrite fold_left_app. cbn [fold_left].
    destruct IH as [(Hall & ->) | (Hex & row & col & e & ->)].
    + unfold best_init, keep_best.
      destruct (flt (r_e x) (Fin 0)) eqn:E.
      * right. split; [|eauto].
        apply Exists_app. right. constructor. exact E.
      * left. split; [|reflexivity].
        apply Forall_app. split; [exact Hall|]. constructor; [exact E|].
        constructor.
    + right. split; [apply Exists_app; left; exact Hex|].
      unfold keep_best. destruct (flt (r_e x) e); eauto.
Qed.

Lemma flt_below_zero (x b : float) :
  is_finite x -> is_finite b ->
  flt x b = true -> flt b (Fin 0) = true -> flt x (Fin 0) = true.
Proof.
  destruct x, b; simpl; try contradiction. intros _ _.
  decide_R; intros; try discriminate; auto.
Qed.

(** With finite errors: the seed, or the first run of least error, which
    is then below zero. *)
Lemma geo_fold_first (runs : list RunResult) :
  Forall (fun run => is_finite (r_e run)) runs ->
  (Forall (fun run => flt (r_e run) (Fin 0) = false) runs /\
   fold_left keep_best runs best_init = best_init) \/
  (exists i b,
     first_minimal r_e runs i b /\ flt (r_e b) (Fin 0) = true /\
     fold_left keep_best runs best_init
     = (Some (r_row b), Some (r_col b), r_e b)).
Proof.
  induction runs as [|x runs IH] using rev_ind; intro Hfin.
  - left. split; [constructor | reflexivity].
  - rewrite fold_left_app. cbn [fold_left].
    assert (Hfin0 : Forall (fun run => is_finite (r_e run)) runs)
      by (apply Forall_app in Hfin; tauto).
    assert (Hfx : is_finite (r_e x)).
    { apply Forall_app in Hfin. destruct Hfin as (_ & H).
      inversion H; assumption. }
    destruct (IH Hfin0) as [(Hall & ->) | (i & b & Hfm & Hneg & ->)].
    + unfold best_init, keep_best.
      destruct (flt (r_e x) (Fin 0)) eqn:E.
      * right. exists (length runs), x.
        split; [|split; [exact E | reflexivity]].
        rewrite Forall_forall in Hall, Hfin0.
        split; [rewrite nth_error_app2, Nat.sub_diag by lia; reflexivity|].
        split.
        -- intros y Hy. apply in_app_or in Hy.
           destruct Hy as [Hy | [<- | []]]; [|apply flt_irrefl].
           apply (flt_step (r_e x) (Fin 0) (r_e y)); auto. exact I.
        -- intros j y Hj Hy. rewrite nth_error_app1 in Hy by exact Hj.
           assert (Hin : In y runs) by (eapply nth_error_In; eauto).
           apply (flt_step (r_e x) (Fin 0) (r_e y)); auto. exact I.
      * left. split; [|reflexivity].
        apply Forall_app. split; [exact Hall|]. constructor; [exact E|].
        constructor.
    + right.
      destruct (first_minimal_snoc _ r_e runs x i b Hfin Hfm)
        as (Htrue & Hfalse).
      assert (Hfb : is_finite (r_e b)).
      { rewrite Forall_forall in Hfin0. apply Hfin0.
        destruct Hfm as (Hnth & _). eapply nth_error_In; eauto. }
      unfold keep_best. destruct (flt (r_e x) (r_e b)) eqn:E.
      * exists (length runs), x. split; [exact (Htrue eq_refl)|].
        split; [|reflexivity].
        apply (flt_below_zero (r_e x) (r_e b)); assumption.
      * exists i, b. auto.
Qed.

Lemma not_all_and_some (runs : list RunResult) :
  Forall (fun run => flt (r_e run) (Fin 0) = false) runs ->
  Exists (fun run => flt (r_e run) (Fin 0) = true) runs -> False.
Proof.
  intros Hall Hex. apply Exists_exists in Hex. destruct Hex as (x & Hx & Ht).
  rewrite Forall_forall in Hall. rewrite (Hall x Hx) in Ht. discriminate.
Qed.

(** X7: in [geoclustering/coclustering.py] a run replaces the seed
    [e_min = 0.] only with an error below zero.  When some run has such
    an error (all errors finite), the thread runner and the low-memory
    dask runner end with the labels and the error of the first run, in
    completion order, of least error. *)
Theorem geo_runners_keep_first_negative_minimum (runs : list RunResult) :
  Forall (fun run => is_finite (r_e run)) runs ->
  Exists (fun run => flt (r_e run) (Fin 0) = true) runs ->
  exists i run,
    first_minimal r_e runs i run /\
    run_with_threads runs
    = mk_self (Some (r_row run)) (Some (r_col run)) (Some (r_e run)) /\
    run_with_dask true runs
    = Some (mk_self (Some (r_row run)) (Some (r_col run)) (Some (r_e run))).
Proof.
  intros Hfin Hex.
  destruct (geo_fold_first runs Hfin) as [(Hall & _) | (i & b & Hfm & _ & Hf)].
  - destruct (not_all_and_some runs Hall Hex).
  - exists i, b. split; [exact Hfm|].
    unfold run_with_dask, _dask_runs_memory, run_with_threads.
    rewrite Hf. split; reflexivity.
Qed.

Lemma geo_runners_keep_first_negative_minimum_witness :
  let runs := [mk_run true 3 [0; 1] [1; 0] (Fin 1);
               mk_run true 2 [1; 0] [0; 1] (Fin (-1));
               mk_run false 5 [1; 1] [0; 0] (Fin (-1))] in
  exists i run,
    first_minimal r_e runs i run /\
    run_with_threads runs
    = mk_self (Some (r_row run)) (Some (r_col run)) (Some (r_e run)) /\
    run_with_dask true runs
    = Some (mk_self (Some (r_row run)) (Some (r_col run)) (Some (r_e run))).
Proof.
  cbv zeta.
  apply (geo_runners_keep_first_negative_minimum
           [mk_run true 3 [0; 1] [1; 0] (Fin 1);
            mk_run true 2 [1; 0] [0; 1] (Fin (-1));
            mk_run false 5 [1; 1] [0; 0] (Fin (-1))]).
  - repeat constructor.
  - apply Exists_cons_tl, Exists_cons_hd. apply flt_Fin. simpl. lra.
Defined.

(** X8: the runners of [geoclustering/coclustering.py] when no error is
    below zero.  The low-memory dask runner raises (on
    [row_min.compute()], [row_min] being None) exactly when no run has an
    error below zero, whatever the errors are; on the same runs the thread
    runner returns and leaves the labels at None and the error at the
    seed 0.  The dask runner that submits all runs at once never returns:
    with runs, unpacking the first result raises, and without any run
    [row_min] is None. *)
Theorem geo_dask_raises_iff_no_negative_error (runs : list RunResult) :
  (run_with_dask true runs = None <->
   Forall (fun run => flt (r_e run) (Fin 0) = false) runs) /\
  (run_with_threads runs = mk_self None None (Some (Fin 0)) <->
   Forall (fun run => flt (r_e run) (Fin 0) = false) runs) /\
  run_with_dask false runs = None.
Proof.
  split; [|split].
  - unfold run_with_dask, _dask_runs_memory.
    destruct (geo_fold_cases runs)
      as [(Hall & ->) | (Hex & row & col & e & ->)].
    + unfold best_init. split; auto.
    + split; intro H; try discriminate.
      destruct (not_all_and_some runs H Hex).
  - unfold run_with_threads.
    destruct (geo_fold_cases runs)
      as [(Hall & ->) | (Hex & row & col & e & ->)].
    + unfold best_init. split; auto.
    + split; intro H; try discriminate.
      destruct (not_all_and_some runs H Hex).
  - unfold run_with_dask, _dask_runs_performance.
    destruct runs as [|run runs]; reflexivity.
Qed.

End GeoRunners.

(** ** The initial assignment *)

Lemma count_occ_round_robin (n m c : nat) :
  0 < n -> c < n ->
  count_occ Nat.eq_dec (map (fun i => np_mod i n) (seq 0 m)) c
  = m / n + (if c <? m mod n then 1 else 0).
Proof.
  intros Hn Hc. induction m as [|m IH].
  - rewrite Nat.Div0.div_0_l, Nat.Div0.mod_0_l. reflexivity.
  - rewrite seq_S, map_app, count_occ_app, IH. cbn [Nat.add map count_occ].
    unfold np_mod. destruct (Nat.eqb_spec n 0) as [Hn0 | _]; [lia|].
    pose proof (Nat.div_mod_eq m n) as Hdm.
    pose proof (Nat.mod_upper_bound m n ltac:(lia)) as Hr.
    set (q := m / n) in *. set (r := m mod n) in *.
    destruct (Nat.eq_dec (S r) n) as [Hwrap | Hnext].
    + assert (Hq : S m / n = S q)
        by (symmetry; apply (Nat.div_unique (S m) n (S q) 0); nia).
      assert (Hm : S m mod n = 0)
        by (symmetry; apply (Nat.mod_unique (S m) n (S q) 0); nia).
      rewrite Hq, Hm.
      destruct (Nat.eq_dec r c), (Nat.ltb_spec c r), (Nat.ltb_spec c 0); lia.
    + assert (Hq : S m / n = q)
        by (symmetry; apply (Nat.div_unique (S m) n q (S r)); nia).
      assert (Hm : S m mod n = S r)
        by (symmetry; apply (Nat.mod_unique (S m) n q (S r)); nia).
      rewrite Hq, Hm.
      destruct (Nat.eq_dec r c), (Nat.ltb_spec c r), (Nat.ltb_spec c (S r));
        lia.
Qed.

Lemma round_robin_valid (perm : list nat -> list nat)
    (n_el n_clusters : nat) :
  is_shuffle perm -> 0 < n_clusters ->
  valid_labels n_el n_clusters
    (perm (map (fun i => np_mod i n_clusters) (seq 0 n_el))).
Proof.
  intros Hperm Hn. split.
  - rewrite (Permutation_length (Hperm _)), length_map, length_seq.
    reflexivity.
  - apply Forall_forall. intros x Hx.
    apply (Permutation_in _ (Hperm _)) in Hx. apply in_map_iff in Hx.
    destruct Hx as (i & <- & _). unfold np_mod.
    destruct (Nat.eqb_spec n_clusters 0); [lia|].
    apply Nat.mod_upper_bound. lia.
Qed.

(** X9: [_initialize_clusters] of both optimizers deals the positions
    out to the clusters in turn and shuffles: with [n_clusters > 0] the
    labels are valid, and cluster [c] gets [n_el // n_clusters]
    positions, one more when [c < n_el % n_clusters]; so no cluster is
    empty unless there are fewer positions than clusters.  The dask
    variant returns the occupancy matrix of these labels. *)
Theorem initial_labels_are_dealt_in_turn
    (perm : list nat -> list nat) (n_el n_clusters : nat) :
  is_shuffle perm -> 0 < n_clusters ->
  let labels := TriclusteringNumpy._initialize_clusters perm n_el n_clusters in
  valid_labels n_el n_clusters labels /\
  (forall c, c < n_clusters ->
     count_occ Nat.eq_dec labels c
     = n_el / n_clusters + (if c <? n_el mod n_clusters then 1 else 0)) /\
  (forall c, c < n_clusters -> c < n_el -> In c labels) /\
  CoclusteringDask._initialize_clusters perm n_el n_clusters
  = Some (onehot n_clusters labels).
Proof.
  intros Hperm Hn labels.
  pose proof (round_robin_valid perm n_el n_clusters Hperm Hn) as Hvalid.
  assert (Hcount : forall c, c < n_clusters ->
            count_occ Nat.eq_dec labels c
            = n_el / n_clusters + (if c <? n_el mod n_clusters then 1 else 0)).
  { intros c Hc. unfold labels, TriclusteringNumpy._initialize_clusters.
    rewrite <- (count_occ_round_robin n_clusters n_el c Hn Hc).
    apply Permutation_count_occ. apply Hperm. }
  split; [exact Hvalid|]. split; [exact Hcount|]. split.
  - intros c Hc Hel. apply (count_occ_In Nat.eq_dec). rewrite (Hcount c Hc).
    destruct (Nat.ltb_spec c (n_el mod n_clusters)); [lia|].
    assert (n_el mod n_clusters < n_el \/ n_clusters <= n_el) as [H1 | H1]
      by lia.
    + assert (n_clusters <= n_el).
      { destruct (Nat.le_gt_cases n_clusters n_el); [assumption|].
        rewrite Nat.mod_small in H1 by assumption. lia. }
      pose proof (Nat.div_str_pos n_el n_clusters). lia.
    + pose proof (Nat.div_str_pos n_el n_clusters). lia.
  - unfold CoclusteringDask._initialize_clusters.
    apply eye_rows_valid. apply Hvalid.
Qed.

Lemma initial_labels_are_dealt_in_turn_witness :
  let labels :=
    TriclusteringNumpy._initialize_clusters (@rev nat) 5 3 in
  valid_labels 5 3 labels /\
  (forall c, c < 3 ->
     count_occ Nat.eq_dec labels c = 5 / 3 + (if c <? 5 mod 3 then 1 else 0)) /\
  (forall c, c < 3 -> c < 5 -> In c labels) /\
  CoclusteringDask._initialize_clusters (@rev nat) 5 3
  = Some (onehot 3 labels).
Proof.
  cbv zeta.
  apply (initial_labels_are_dealt_in_turn (@rev nat) 5 3).
  - intro l. apply Permutation_sym, Permutation_rev.
  - lia.
Defined.

(** ** The runs of the optimizers *)

Lemma fold_Rmin_le (l : list R) :
  forall x, (fold_left Rmin l x <= x)%R /\
            (forall y, In y l -> (fold_left Rmin l x <= y)%R).
Proof.
  induction l as [|a l IH]; intro x; simpl.
  - split; [lra | intros y []].
  - destruct (IH (Rmin x a)) as (H1 & H2).
    pose proof (Rmin_l x a). pose proof (Rmin_r x a).
    split; [lra|]. intros y [<- | Hy]; [lra | auto].
Qed.

Lemma Rmin_n_le (n : nat) (f : nat -> R) (c : nat) :
  c < n -> (Rmin_n n f <= f c)%R.
Proof.
  intro Hc. unfold Rmin_n.
  destruct (fold_Rmin_le (map f (seq 1 (n - 1))) (f 0)) as (H1 & H2).
  destruct c as [|c]; [exact H1|].
  apply H2. apply in_map. apply in_seq. lia.
Qed.

Lemma Rsum_n_le (n : nat) (f h : nat -> R) :
  (forall i, i < n -> (f i <= h i)%R) -> (Rsum_n n f <= Rsum_n n h)%R.
Proof.
  induction n as [|n IH]; intro H; simpl; [lra|].
  specialize (IH (fun i Hi => H i (Nat.lt_lt_succ_r _ _ Hi))).
  specialize (H n (Nat.lt_succ_diag_r n)). lra.
Qed.

(** [np.argmin(a, axis=1)] on a matrix of finite values: row by row the
    first index of the least value. *)
Lemma argmin_axis1_first (a : array2) (r : nat -> nat -> R)
    (idx : list nat) :
  0 < cols a ->
  (forall i c, i < rows a -> c < cols a -> at2 a i c = Fin (r i c)) ->
  argmin_axis1 a = Some idx ->
  forall i, i < rows a -> first_argmin (cols a) (r i) (nth i idx 0).
Proof.
  intros Hc Hval Harg i Hi. unfold argmin_axis1 in Harg.
  destruct (Nat.eqb_spec (cols a) 0); [lia|].
  inversion Harg; subst idx. clear Harg.
  rewrite (nth_indep _ 0 (fst (scan_row a 0)))
    by (rewrite length_map, length_seq; exact Hi).
  rewrite (map_nth (fun i => fst (scan_row a i)) (seq 0 (rows a)) 0 i).
  rewrite seq_nth by exact Hi. cbn [Nat.add].
  unfold scan_row.
  set (full := map (fun c => Fin (r i c)) (seq 0 (cols a))).
  assert (Hfull : at2 a i 0 :: map (at2 a i) (seq 1 (cols a - 1)) = full).
  { unfold full. replace (cols a) with (S (cols a - 1)) at 2 by lia.
    cbn [seq map]. rewrite (Hval i 0 Hi Hc). f_equal.
    apply map_ext_in. intros c Hin. apply in_seq in Hin. apply Hval; lia. }
  assert (Hfin : Forall is_finite full).
  { apply Forall_forall. intros y Hy. apply in_map_iff in Hy.
    destruct Hy as (c & <- & _). exact I. }
  rewrite <- Hfull in Hfin.
  pose proof (min_scan_vector _ _ Hfin) as (Hnth & Hmin & Hfirst).
  rewrite Hfull in Hnth, Hmin, Hfirst.
  set (c0 := fst (min_scan (map (at2 a i) (seq 1 (cols a - 1))) 1
                           (0, at2 a i 0))) in *.
  set (v0 := snd (min_scan (map (at2 a i) (seq 1 (cols a - 1))) 1
                           (0, at2 a i 0))) in *.
  assert (Hc0 : c0 < cols a).
  { assert (H : c0 < length full) by (apply nth_error_Some; congruence).
    unfold full in H. rewrite length_map, length_seq in H. exact H. }
  assert (Hentry : forall c, c < cols a ->
                             nth_error full c = Some (Fin (r i c))).
  { intros c Hlt. unfold full. rewrite nth_error_map.
    rewrite (nth_error_nth' _ 0) by (rewrite length_seq; exact Hlt).
    rewrite seq_nth by exact Hlt. reflexivity. }
  assert (Hv0 : v0 = Fin (r i c0)).
  { rewrite (Hentry c0 Hc0) in Hnth. congruence. }
  rewrite Hv0 in Hmin, Hfirst.
  split; [exact Hc0|]. split.
  - intros c' Hc'. apply flt_Fin_false. apply Hmin.
    eapply nth_error_In. apply (Hentry c' Hc').
  - intros c' Hc'. apply flt_Fin.
    apply (Hfirst c' _ Hc'). apply Hentry. lia.
Qed.

Lemma argmin_axis1_inv (a : array2) (idx : list nat) :
  argmin_axis1 a = Some idx ->
  length idx = rows a /\ Forall (fun c => c < cols a) idx.
Proof.
  intro H. destruct (argmin_axis1_some a) as (idx' & H' & Hl & Hf).
  - unfold argmin_axis1 in H.
    destruct (Nat.eqb_spec (cols a) 0); [discriminate | lia].
  - rewrite H in H'. inversion H'; subst. auto.
Qed.

(** *** Any data: what a run that returns has done *)

Section TriAnyData.
Import TriclusteringNumpy.

Variable Z : array3.
Variables nr nc nb : nat.
Variables errobj epsilon Gavg : float.

Lemma tri_iteration_labels (st st1 : state) :
  iteration Z nr nc nb errobj epsilon Gavg st = Some st1 ->
  s st1 = S (s st) /\
  valid_labels (dim1 Z) nr (row_clusters st1) /\
  valid_labels (dim2 Z) nc (col_clusters st1) /\
  valid_labels (dim0 Z) nb (bnd_clusters st1).
Proof.
  unfold iteration.
  destruct (loop_body Z nr nc nb epsilon Gavg (row_clusters st)
              (col_clusters st) (bnd_clusters st)) as [p|] eqn:Ep;
    [|discriminate].
  intro H. inversion H; subst st1. clear H.
  cbn [s row_clusters col_clusters bnd_clusters].
  split; [reflexivity|].
  unfold loop_body, _setup_cluster_matrix, eye_rows in Ep.
  destruct (forallb (fun c => c <? nr) (row_clusters st)); [|discriminate].
  destruct (forallb (fun c => c <? nc) (col_clusters st)); [|discriminate].
  destruct (forallb (fun c => c <? nb) (bnd_clusters st)); [|discriminate].
  match type of Ep with
  | (if ?c then _ else _) = _ => destruct c; [|discriminate]
  end.
  cbv zeta in Ep.
  match type of Ep with
  | match ?x with Some _ => _ | None => _ end = _ =>
      destruct x as [row'|] eqn:Er; [|discriminate]
  end.
  match type of Ep with
  | match ?x with Some _ => _ | None => _ end = _ =>
      destruct x as [col'|] eqn:Ec; [|discriminate]
  end.
  match type of Ep with
  | match ?x with Some _ => _ | None => _ end = _ =>
      destruct x as [bnd'|] eqn:Eb; [|discriminate]
  end.
  match type of Ep with
  | match ?x with Some _ => _ | None => _ end = _ =>
      destruct x as [minvals|] eqn:Em; [|discriminate]
  end.
  inversion Ep; subst p. cbn [p_row p_col p_bnd].
  apply argmin_axis1_inv in Er, Ec, Eb.
  split; [exact Er|]. split; [exact Ec | exact Eb].
Qed.

Lemma tri_while_loop_bounds (fuel : nat) :
  forall st st',
    while_loop Z nr nc nb errobj epsilon Gavg fuel st = Some st' ->
    s st <= s st' <= s st + fuel /\
    (converged st' = false -> s st' = s st + fuel) /\
    (s st' = s st -> st' = st) /\
    (s st < s st' ->
     valid_labels (dim1 Z) nr (row_clusters st') /\
     valid_labels (dim2 Z) nc (col_clusters st') /\
     valid_labels (dim0 Z) nb (bnd_clusters st')).
Proof.
  induction fuel as [|fuel IH]; intros st st' H; cbn [while_loop] in H.
  - inversion H; subst st'. repeat split; try lia; auto.
  - destruct (converged st) eqn:Econv.
    + inversion H; subst st'. repeat split; try lia; auto. congruence.
    + destruct (iteration Z nr nc nb errobj epsilon Gavg st) as [st1|] eqn:E;
        [|discriminate].
      destruct (tri_iteration_labels st st1 E) as (Hs & Hvalid).
      destruct (IH st1 st' H) as (Hcount & Hnot & Hsame & Hlab).
      split; [lia|]. split; [intro Hc; rewrite (Hnot Hc); lia|].
      split; [intro Heq; lia|]. intros _.
      destruct (Nat.eq_dec (s st') (s st1)) as [Heq | Hne].
      * rewrite (Hsame Heq). exact Hvalid.
      * apply Hlab. lia.
Qed.

End TriAnyData.

Section DaskAnyData.

Variable Z : array2.
Variables k l : nat.
Variables errobj epsilon Gavg : float.

Lemma dask_iteration_labels (st st1 : CoclusteringDask.state) :
  CoclusteringDask.iteration Z k l errobj epsilon Gavg st = Some st1 ->
  CoclusteringDask.s st1 = S (CoclusteringDask.s st) /\
  exists row col,
    CoclusteringDask.row_clusters st1 = Some row /\
    CoclusteringDask.col_clusters st1 = Some col /\
    valid_labels (rows Z) k row /\ valid_labels (cols Z) l col.
Proof.
  unfold CoclusteringDask.iteration. cbv zeta. intro H.
  match type of H with
  | (if ?c then _ else _) = _ => destruct c; [|discriminate]
  end.
  match type of H with
  | match ?x with Some _ => _ | None => _ end = _ =>
      destruct x as [row|] eqn:Er; [|discriminate]
  end.
  destruct (eye_rows k row) as [R1|] eqn:ER; [|discriminate].
  match type of H with
  | match ?x with Some _ => _ | None => _ end = _ =>
      destruct x as [col|] eqn:Ec; [|discriminate]
  end.
  match type of H with
  | match ?x with Some _ => _ | None => _ end = _ =>
      destruct x as [minvals|] eqn:Em; [|discriminate]
  end.
  destruct (eye_rows l col) as [C1|] eqn:EC; [|discriminate].
  inversion H; subst st1. clear H.
  cbn [CoclusteringDask.s CoclusteringDask.row_clusters
       CoclusteringDask.col_clusters].
  split; [reflexivity|]. exists row, col.
  split; [reflexivity|]. split; [reflexivity|].
  assert (Hin : forall n idx R0, eye_rows n idx = Some R0 ->
                                 Forall (fun c => c < n) idx).
  { intros n idx R0 HR0. unfold eye_rows in HR0.
    destruct (forallb (fun c => c <? n) idx) eqn:Ef; [|discriminate].
    apply Forall_forall. intros c Hc.
    apply Nat.ltb_lt. rewrite forallb_forall in Ef. auto. }
  apply argmin_axis1_inv in Er, Ec.
  split; split; [exact (proj1 Er) | exact (Hin _ _ _ ER)
                 | exact (proj1 Ec) | exact (Hin _ _ _ EC)].
Qed.

Lemma dask_while_loop_bounds (fuel : nat) :
  forall st st',
    CoclusteringDask.while_loop Z k l errobj epsilon Gavg fuel st = Some st' ->
    CoclusteringDask.s st <= CoclusteringDask.s st'
      <= CoclusteringDask.s st + fuel /\
    (CoclusteringDask.converged st' = false ->
     CoclusteringDask.s st' = CoclusteringDask.s st + fuel) /\
    (CoclusteringDask.s st' = CoclusteringDask.s st -> st' = st) /\
    (CoclusteringDask.s st < CoclusteringDask.s st' ->
     exists row col,
       CoclusteringDask.row_clusters st' = Some row /\
       CoclusteringDask.col_clusters st' = Some col /\
       valid_labels (rows Z) k row /\ valid_labels (cols Z) l col).
Proof.
  induction fuel as [|fuel IH]; intros st st' H;
    cbn [CoclusteringDask.while_loop] in H.
  - inversion H; subst st'. repeat split; try lia; auto.
  - destruct (CoclusteringDask.converged st) eqn:Econv.
    + inversion H; subst st'. repeat split; try lia; auto. congruence.
    + destruct (CoclusteringDask.iteration Z k l errobj epsilon Gavg st)
        as [st1|] eqn:E; [|discriminate].
      destruct (dask_iteration_labels st st1 E) as (Hs & Hvalid).
      destruct (IH st1 st' H) as (Hcount & Hnot & Hsame & Hlab).
      split; [lia|]. split; [intro Hc; rewrite (Hnot Hc); lia|].
      split; [intro Heq; lia|]. intros _.
      destruct (Nat.eq_dec (CoclusteringDask.s st') (CoclusteringDask.s st1))
        as [Heq | Hne].
      * rewrite (Hsame Heq). exact Hvalid.
      * apply Hlab. lia.
Qed.

End DaskAnyData.

Section TriRun.
Import TriclusteringNumpy.

Variable z : nat -> nat -> nat -> R.
Variables nr nc nb : nat.
Variables gavg eps : R.
Variable errobj : float.

Hypothesis Heps : (0 < eps)%R.
Hypothesis Hgavg : (0 <= gavg)%R.
Hypothesis Hz : forall b r c, (0 <= z b r c)%R.
Hypothesis Hnr : 0 < nr.
Hypothesis Hnc : 0 < nc.
Hypothesis Hnb : 0 < nb.

(** What the loop body computes for the band axis. *)
Lemma tri_loop_body_bnd (Z : array3) (epsilon Gavg : float)
    (row col bnd : list nat) (p : pass) :
  loop_body Z nr nc nb epsilon Gavg row col bnd = Some p ->
  p_d_bnd p
  = _distance Z
      (einsum_ij_klj_kli (onehot nc col)
         (einsum_ij_kjl_kil (onehot nr row)
            (block_averages Z (onehot nb bnd) (onehot nr row) (onehot nc col)
               (nel_clusters (bincount bnd nb) (bincount row nr)
                             (bincount col nc))
               Gavg epsilon)))
      epsilon /\
  argmin_axis1 (p_d_bnd p) = Some (p_bnd p).
Proof.
  unfold loop_body, _setup_cluster_matrix, eye_rows. intro H.
  destruct (forallb (fun c => c <? nr) row); [|discriminate].
  destruct (forallb (fun c => c <? nc) col); [|discriminate].
  destruct (forallb (fun c => c <? nb) bnd); [|discriminate].
  match type of H with
  | (if ?c then _ else _) = _ => destruct c; [|discriminate]
  end.
  cbv zeta in H.
  repeat match type of H with
         | match ?x with Some _ => _ | None => _ end = _ =>
             let E := fresh "E" in destruct x eqn:E; [|discriminate]
         end.
  inversion H; subst p. cbn [p_d_bnd p_bnd]. split; [reflexivity|].
  assumption.
Qed.

(** X13: the band step of an iteration of [triclustering] (finite
    non-negative data, [epsilon > 0], valid labels) gives every band the
    band cluster of least divergence, the lowest index among equals; the
    new error is therefore at most the total divergence of the bands
    from the clusters they were in. *)
Theorem band_assignment_is_first_argmin (st : state) :
  let row := row_clusters st in
  let col := col_clusters st in
  let bnd := bnd_clusters st in
  Forall (fun x => x < nr) row ->
  Forall (fun x => x < nc) col ->
  Forall (fun x => x < nb) bnd ->
  exists st' v,
    iteration (lift3 (length bnd) (length row) (length col) z)
              nr nc nb errobj (Fin eps) (Fin gavg) st = Some st' /\
    (forall b, b < length bnd ->
       first_argmin nb (divergence_bnd z bnd row col gavg eps b)
                    (nth b (bnd_clusters st') 0)) /\
    e st' = Fin v /\
    (v <= Rsum_n (length bnd)
            (fun b => divergence_bnd z bnd row col gavg eps b (nth b bnd O)))%R.
Proof.
  intros row col bnd Hrow Hcol Hbnd.
  destruct (tri_iteration_value z nr nc nb gavg eps errobj st
              Heps Hgavg Hz Hnr Hnc Hnb Hrow Hcol Hbnd)
    as (st' & Hit & Hev & _).
  fold row col bnd in Hit, Hev.
  exists st', (band_objective z bnd row col nb gavg eps).
  split; [exact Hit|]. split; [|split; [exact Hev|]].
  - unfold iteration in Hit. fold row col bnd in Hit.
    destruct (loop_body (lift3 (length bnd) (length row) (length col) z)
                nr nc nb (Fin eps) (Fin gavg) row col bnd) as [p|] eqn:Ep;
      [|discriminate].
    inversion Hit; subst st'. cbn [bnd_clusters]. clear Hit Hev.
    destruct (tri_loop_body_bnd _ _ _ _ _ _ _ Ep) as (Hd & Harg).
    intros b Hb.
    assert (Hrows : rows (p_d_bnd p) = length bnd) by (rewrite Hd; reflexivity).
    assert (Hcols : cols (p_d_bnd p) = nb) by (rewrite Hd; reflexivity).
    rewrite <- Hcols.
    apply (argmin_axis1_first (p_d_bnd p)
             (divergence_bnd z bnd row col gavg eps) (p_bnd p)).
    + lia.
    + intros i c Hi Hc. rewrite Hrows in Hi. rewrite Hcols in Hc.
      rewrite Hd.
      apply (tri_d_bnd_value z bnd row col nb nr nc gavg eps
               Heps Hgavg Hz Hrow Hcol i c Hi Hc).
    + exact Harg.
    + rewrite Hrows. exact Hb.
  - unfold band_objective. apply Rsum_n_le. intros b Hb.
    apply Rmin_n_le. apply Forall_nth_lt; assumption.
Qed.

(** The loop from a state with valid labels. *)
Lemma tri_while_loop_total (d m n : nat) (fuel : nat) :
  forall st,
    valid_labels m nr (row_clusters st) ->
    valid_labels n nc (col_clusters st) ->
    valid_labels d nb (bnd_clusters st) ->
    exists st',
      while_loop (lift3 d m n z) nr nc nb errobj (Fin eps) (Fin gavg) fuel st
      = Some st' /\
      (valid_labels m nr (row_clusters st') /\
       valid_labels n nc (col_clusters st') /\
       valid_labels d nb (bnd_clusters st')) /\
      s st <= s st' <= s st + fuel /\
      (converged st' = false -> s st' = s st + fuel) /\
      (s st' = s st -> st' = st) /\
      (s st < s st' -> is_finite (e st')).
Proof.
  induction fuel as [|fuel IH];
    intros st (Hlr & Hfr) (Hlc & Hfc) (Hlb & Hfb).
  - exists st. simpl. repeat split; auto; lia.
  - cbn [while_loop]. destruct (converged st) eqn:Econv.
    + exists st. repeat split; auto; try lia. congruence.
    + destruct (tri_iteration_value z nr nc nb gavg eps errobj st
                  Heps Hgavg Hz Hnr Hnc Hnb Hfr Hfc Hfb)
        as (st1 & Hit & Hev & _ & Hs & _ & (Hlr1 & Hfr1) & (Hlc1 & Hfc1)
            & (Hlb1 & Hfb1)).
      rewrite Hlr, Hlc, Hlb in Hit. rewrite Hit.
      destruct (IH st1) as (st' & Hloop & Hvalid & Hcount & Hnot & Hsame & Hfin);
        try (split; congruence).
      exists st'. split; [exact Hloop|]. split; [exact Hvalid|].
      split; [lia|]. split; [intro H; rewrite (Hnot H); lia|].
      split; [intro H; lia|]. intros _.
      destruct (Nat.eq_dec (s st') (s st1)) as [Heq | Hne].
      * rewrite (Hsame Heq), Hev. exact I.
      * apply Hfin. lia.
Qed.

End TriRun.

(** A run of [triclustering] on finite non-negative data. *)
Lemma tri_run_total
    (z : nat -> nat -> nat -> R) (d m n nr nc nb : nat) (eps : R)
    (errobj : float) (niters : nat)
    (row_init col_init bnd_init : option (list nat))
    (g : TriclusteringNumpy.rng) :
  (0 < eps)%R -> (forall b r c, 0 <= z b r c)%R ->
  0 < d -> 0 < m -> 0 < n -> 0 < nr -> 0 < nc -> 0 < nb ->
  valid_init m nr row_init -> valid_init n nc col_init ->
  valid_init d nb bnd_init ->
  is_shuffle (TriclusteringNumpy.perm_row g) ->
  is_shuffle (TriclusteringNumpy.perm_col g) ->
  is_shuffle (TriclusteringNumpy.perm_bnd g) ->
  exists conv s row col bnd err,
    TriclusteringNumpy.triclustering (lift3 d m n z) nr nc nb errobj niters
      (Fin eps) row_init col_init bnd_init g
    = Some (conv, s, row, col, bnd, err) /\
    valid_labels m nr row /\ valid_labels n nc col /\ valid_labels d nb bnd /\
    s <= niters /\
    (conv = false -> s = niters) /\
    (conv = true -> 0 < s) /\
    (0 < niters -> 0 < s /\ is_finite err).
Proof.
  intros Heps Hz Hd Hm Hn Hnr Hnc Hnb Hri Hci Hbi Hpr Hpc Hpb.
  assert (Hpos : 0 < d * m * n) by (repeat apply Nat.mul_pos_pos; assumption).
  assert (Hg : (0 <= Gavg3 d m n z)%R) by (apply Gavg3_nonneg; assumption).
  assert (Hmean : mean3 (lift3 d m n z) = Fin (Gavg3 d m n z))
    by (apply mean3_lift; exact Hpos).
  set (st0 := TriclusteringNumpy.initial_state (lift3 d m n z) nr nc nb errobj
                row_init col_init bnd_init g).
  assert (Hr0 : valid_labels m nr (TriclusteringNumpy.row_clusters st0)).
  { unfold st0, TriclusteringNumpy.initial_state.
    cbn [TriclusteringNumpy.row_clusters].
    destruct row_init as [r|]; [exact Hri|].
    apply round_robin_valid; assumption. }
  assert (Hc0 : valid_labels n nc (TriclusteringNumpy.col_clusters st0)).
  { unfold st0, TriclusteringNumpy.initial_state.
    cbn [TriclusteringNumpy.col_clusters].
    destruct col_init as [c|]; [exact Hci|].
    apply round_robin_valid; assumption. }
  assert (Hb0 : valid_labels d nb (TriclusteringNumpy.bnd_clusters st0)).
  { unfold st0, TriclusteringNumpy.initial_state.
    cbn [TriclusteringNumpy.bnd_clusters].
    destruct bnd_init as [b|]; [exact Hbi|].
    apply round_robin_valid; assumption. }
  destruct (tri_while_loop_total z nr nc nb (Gavg3 d m n z) eps errobj
              Heps Hg Hz Hnr Hnc Hnb d m n niters st0 Hr0 Hc0 Hb0)
    as (st' & Hloop & (Hr & Hc & Hb) & Hcount & Hnot & Hsame & Hfin).
  assert (Hs0 : TriclusteringNumpy.s st0 = 0) by reflexivity.
  assert (Hconv0 : TriclusteringNumpy.converged st0 = false) by reflexivity.
  unfold TriclusteringNumpy.triclustering. cbv zeta.
  rewrite Hmean. fold st0. rewrite Hloop.
  do 6 eexists. split; [reflexivity|].
  rewrite Hs0 in *. cbn [Nat.add] in *.
  split; [exact Hr|]. split; [exact Hc|]. split; [exact Hb|].
  split; [lia|]. split; [exact Hnot|].
  assert (Hstep : TriclusteringNumpy.converged st' = true ->
                  0 < TriclusteringNumpy.s st').
  { intro Ht.
    destruct (Nat.eq_dec (TriclusteringNumpy.s st') 0) as [H0 | H0]; [|lia].
    rewrite (Hsame H0) in Ht. congruence. }
  split; [exact Hstep|].
  intro Hn0.
  assert (Hs : 0 < TriclusteringNumpy.s st').
  { destruct (TriclusteringNumpy.converged st') eqn:E.
    - apply Hstep. reflexivity.
    - rewrite (Hnot eq_refl). exact Hn0. }
  split; [exact Hs | apply Hfin; exact Hs].
Qed.

(** X10: on finite non-negative data, with [epsilon > 0], at least one
    cluster per axis and initial assignments that are valid where given
    (the others are drawn), [triclustering] returns for every threshold
    and every iteration limit: it raises nothing, the labels returned
    are valid, and after at least one iteration the error is a finite
    number. *)
Theorem triclustering_returns
    (z : nat -> nat -> nat -> R) (d m n nr nc nb : nat) (eps : R)
    (errobj : float) (niters : nat)
    (row_init col_init bnd_init : option (list nat))
    (g : TriclusteringNumpy.rng) :
  (0 < eps)%R -> (forall b r c, 0 <= z b r c)%R ->
  0 < d -> 0 < m -> 0 < n -> 0 < nr -> 0 < nc -> 0 < nb ->
  valid_init m nr row_init -> valid_init n nc col_init ->
  valid_init d nb bnd_init ->
  is_shuffle (TriclusteringNumpy.perm_row g) ->
  is_shuffle (TriclusteringNumpy.perm_col g) ->
  is_shuffle (TriclusteringNumpy.perm_bnd g) ->
  exists conv s row col bnd err,
    TriclusteringNumpy.triclustering (lift3 d m n z) nr nc nb errobj niters
      (Fin eps) row_init col_init bnd_init g
    = Some (conv, s, row, col, bnd, err) /\
    valid_labels m nr row /\ valid_labels n nc col /\ valid_labels d nb bnd /\
    (0 < niters -> is_finite err).
Proof.
  intros Heps Hz Hd Hm Hn Hnr Hnc Hnb Hri Hci Hbi Hpr Hpc Hpb.
  destruct (tri_run_total z d m n nr nc nb eps errobj niters
              row_init col_init bnd_init g
              Heps Hz Hd Hm Hn Hnr Hnc Hnb Hri Hci Hbi Hpr Hpc Hpb)
    as (conv & s & row & col & bnd & err & Hrun & Hr & Hc & Hb & _ & _ & _
        & Hfin).
  exists conv, s, row, col, bnd, err.
  split; [exact Hrun|]. split; [exact Hr|]. split; [exact Hc|].
  split; [exact Hb|]. intro Hn0. apply (Hfin Hn0).
Qed.

Lemma triclustering_returns_witness :
  exists conv s row col bnd err,
    TriclusteringNumpy.triclustering (lift3 2 3 2 (fun _ _ _ => 1%R))
      2 2 1 NaN 4 (Fin 1) (Some [0; 1; 1]) None None
      (TriclusteringNumpy.mk_rng (fun p => p) (@rev nat) (fun p => p))
    = Some (conv, s, row, col, bnd, err) /\
    valid_labels 3 2 row /\ valid_labels 2 2 col /\ valid_labels 2 1 bnd /\
    (0 < 4 -> is_finite err).
Proof.
  apply (triclustering_returns (fun _ _ _ => 1%R) 2 3 2 2 2 1 1%R NaN 4
           (Some [0; 1; 1]) None None
           (TriclusteringNumpy.mk_rng (fun p => p) (@rev nat) (fun p => p)));
    try lra; try lia; try exact I.
  - intros; lra.
  - split; [reflexivity | repeat constructor].
  - intro l. apply Permutation_refl.
  - intro l. apply Permutation_sym, Permutation_rev.
  - intro l. apply Permutation_refl.
Defined.

(** X15: whatever the data, when [triclustering] returns, the number of
    iterations [s] is at most [niters]; a run that did not converge has
    used all of them; a run that converged, and every run with
    [niters > 0], has done at least one; and after at least one
    iteration every label returned is below the number of clusters of
    its axis, one label per position. *)
Theorem triclustering_result_is_bounded
    (Z : array3) (nr nc nb : nat) (errobj : float) (niters : nat)
    (epsilon : float) (row_init col_init bnd_init : option (list nat))
    (g : TriclusteringNumpy.rng)
    (conv : bool) (s : nat) (row col bnd : list nat) (err : float) :
  TriclusteringNumpy.triclustering Z nr nc nb errobj niters epsilon
    row_init col_init bnd_init g
  = Some (conv, s, row, col, bnd, err) ->
  s <= niters /\
  (conv = false -> s = niters) /\
  (conv = true -> 0 < s) /\
  (0 < niters -> 0 < s) /\
  (0 < s ->
   valid_labels (dim1 Z) nr row /\ valid_labels (dim2 Z) nc col /\
   valid_labels (dim0 Z) nb bnd).
Proof.
  unfold TriclusteringNumpy.triclustering. cbv zeta.
  set (st0 := TriclusteringNumpy.initial_state Z nr nc nb errobj
                row_init col_init bnd_init g).
  destruct (TriclusteringNumpy.while_loop Z nr nc nb errobj epsilon (mean3 Z)
              niters st0) as [st'|] eqn:Hloop; [|discriminate].
  intro H. inversion H; subst. clear H.
  destruct (tri_while_loop_bounds Z nr nc nb errobj epsilon (mean3 Z) niters
              st0 st' Hloop) as (Hcount & Hnot & Hsame & Hlab).
  change (TriclusteringNumpy.s st0) with 0 in *. cbn [Nat.add] in *.
  assert (Hstep : TriclusteringNumpy.converged st' = true ->
                  0 < TriclusteringNumpy.s st').
  { intro Ht.
    destruct (Nat.eq_dec (TriclusteringNumpy.s st') 0) as [H0 | H0]; [|lia].
    rewrite (Hsame H0) in Ht. discriminate. }
  split; [lia|]. split; [exact Hnot|]. split; [exact Hstep|].
  split; [|exact Hlab].
  intro Hn0. destruct (TriclusteringNumpy.converged st') eqn:E.
  - apply Hstep. reflexivity.
  - rewrite (Hnot eq_refl). exact Hn0.
Qed.

Lemma triclustering_result_is_bounded_witness :
  exists conv s row col bnd err,
    TriclusteringNumpy.triclustering (lift3 2 3 2 (fun _ _ _ => 1%R))
      2 2 1 NaN 4 (Fin 1) (Some [0; 1; 1]) None None
      (TriclusteringNumpy.mk_rng (fun p => p) (@rev nat) (fun p => p))
    = Some (conv, s, row, col, bnd, err) /\
    s <= 4 /\
    (conv = false -> s = 4) /\
    (conv = true -> 0 < s) /\
    (0 < 4 -> 0 < s) /\
    (0 < s ->
     valid_labels 3 2 row /\ valid_labels 2 2 col /\ valid_labels 2 1 bnd).
Proof.
  destruct (tri_run_total (fun _ _ _ => 1%R) 2 3 2 2 2 1 1%R NaN 4
              (Some [0; 1; 1]) None None
              (TriclusteringNumpy.mk_rng (fun p => p) (@rev nat)
                                         (fun p => p)))
    as (conv & s & row & col & bnd & err & Hrun & _);
    try lra; try lia; try exact I;
    try (intro l; first [apply Permutation_refl
                        | apply Permutation_sym, Permutation_rev]).
  - intros; lra.
  - split; [reflexivity | repeat constructor].
  - exists conv, s, row, col, bnd, err. split; [exact Hrun|].
    apply (triclustering_result_is_bounded
             (lift3 2 3 2 (fun _ _ _ => 1%R)) 2 2 1 NaN 4 (Fin 1)
             (Some [0; 1; 1]) None None
             (TriclusteringNumpy.mk_rng (fun p => p) (@rev nat) (fun p => p))
             conv s row col bnd err Hrun).
Defined.

Section DaskRun.

Variable z : nat -> nat -> R.
Variables m n k l : nat.
Variables gavg eps : R.
Variable errobj : float.

Hypothesis Heps : (0 < eps)%R.
Hypothesis Hgavg : (0 <= gavg)%R.
Hypothesis Hz : forall r c, (0 <= z r c)%R.
Hypothesis Hk : 0 < k.
Hypothesis Hl : 0 < l.

(** The loop from occupancy matrices of label vectors of the right
    lengths. *)
Lemma dask_while_loop_total (fuel : nat) :
  forall st row col,
    CoclusteringDask.R st = onehot k row ->
    CoclusteringDask.C st = onehot l col ->
    length row = m -> length col = n ->
    exists st',
      CoclusteringDask.while_loop (lift2 m n z) k l errobj (Fin eps)
                                  (Fin gavg) fuel st = Some st' /\
      CoclusteringDask.s st <= CoclusteringDask.s st'
        <= CoclusteringDask.s st + fuel /\
      (CoclusteringDask.converged st' = false ->
       CoclusteringDask.s st' = CoclusteringDask.s st + fuel) /\
      (CoclusteringDask.s st' = CoclusteringDask.s st -> st' = st) /\
      (CoclusteringDask.s st < CoclusteringDask.s st' ->
       exists row' col',
         CoclusteringDask.row_clusters st' = Some row' /\
         CoclusteringDask.col_clusters st' = Some col' /\
         valid_labels m k row' /\ valid_labels n l col' /\
         is_finite (CoclusteringDask.e st')).
Proof.
  induction fuel as [|fuel IH]; intros st row col HR HC Hlr Hlc.
  - exists st. simpl. repeat split; auto; lia.
  - cbn [CoclusteringDask.while_loop].
    destruct (CoclusteringDask.converged st) eqn:Econv.
    + exists st. repeat split; auto; try lia. congruence.
    + destruct (dask_iteration_value z row col k l gavg eps errobj
                  Heps Hgavg Hz Hk Hl st HR HC)
        as (st1 & row1 & col1 & Hit & Hrw & Hcl & HR1 & HC1 & Hlr1 & Hfr1
            & Hlc1 & Hfc1 & Hev & _ & Hs & _).
      rewrite Hlr, Hlc in Hit. rewrite Hit.
      destruct (IH st1 row1 col1 HR1 HC1)
        as (st' & Hloop & Hcount & Hnot & Hsame & Hfin); try congruence.
      exists st'. split; [exact Hloop|].
      split; [lia|]. split; [intro H; rewrite (Hnot H); lia|].
      split; [intro H; lia|]. intros _.
      destruct (Nat.eq_dec (CoclusteringDask.s st') (CoclusteringDask.s st1))
        as [Heq | Hne].
      * rewrite (Hsame Heq). exists row1, col1.
        rewrite Hev. repeat split; auto; congruence.
      * apply Hfin. lia.
Qed.

(** X14: the column step of an iteration of the dask [coclustering]
    (finite non-negative data, [epsilon > 0]) gives every column the
    column cluster of least divergence, computed with the row labels
    just reassigned, the lowest index among equals; the new error is at
    most the total divergence of the columns from the clusters they were
    in. *)
Theorem column_assignment_is_first_argmin
    (row col : list nat) (st : CoclusteringDask.state) :
  CoclusteringDask.R st = onehot k row ->
  CoclusteringDask.C st = onehot l col ->
  Forall (fun x => x < l) col ->
  exists st' row' col' v,
    CoclusteringDask.iteration (lift2 (length row) (length col) z) k l errobj
                               (Fin eps) (Fin gavg) st = Some st' /\
    CoclusteringDask.row_clusters st' = Some row' /\
    CoclusteringDask.col_clusters st' = Some col' /\
    (forall c, c < length col ->
       first_argmin l (divergence_col z row col row' gavg eps c)
                    (nth c col' 0)) /\
    CoclusteringDask.e st' = Fin v /\
    (v <= Rsum_n (length col)
            (fun c => divergence_col z row col row' gavg eps c (nth c col O)))%R.
Proof.
  intros HR HC Hcol.
  destruct (dask_iteration_value z row col k l gavg eps errobj
              Heps Hgavg Hz Hk Hl st HR HC)
    as (st' & row' & col' & Hit & Hrw & Hcl & _ & _ & Hlr & Hfr & _ & _
        & Hev & _).
  exists st', row', col', (col_objective z row col row' l gavg eps).
  split; [exact Hit|]. split; [exact Hrw|]. split; [exact Hcl|].
  split; [|split; [exact Hev|]].
  - unfold CoclusteringDask.iteration in Hit. rewrite HR, HC in Hit.
    cbv zeta in Hit.
    match type of Hit with
    | (if ?c then _ else _) = _ => destruct c; [|discriminate]
    end.
    match type of Hit with
    | match ?x with Some _ => _ | None => _ end = _ =>
        destruct x as [row1|] eqn:Er; [|discriminate]
    end.
    unfold eye_rows in Hit at 1.
    destruct (forallb (fun c => c <? k) row1); [|discriminate].
    match type of Hit with
    | match ?x with Some _ => _ | None => _ end = _ =>
        destruct x as [col1|] eqn:Ec; [|discriminate]
    end.
    match type of Hit with
    | match ?x with Some _ => _ | None => _ end = _ =>
        destruct x as [minvals|] eqn:Em; [|discriminate]
    end.
    match type of Hit with
    | match ?x with Some _ => _ | None => _ end = _ =>
        destruct x as [C1|] eqn:EC; [|discriminate]
    end.
    inversion Hit; subst st'. clear Hit.
    cbn [CoclusteringDask.row_clusters CoclusteringDask.col_clusters]
      in Hrw, Hcl.
    inversion Hrw; subst row1. inversion Hcl; subst col1.
    intros c Hc.
    match type of Ec with
    | argmin_axis1 ?a = _ => set (d_col := a) in *
    end.
    assert (Hrows : rows d_col = length col) by reflexivity.
    assert (Hcols : cols d_col = l) by reflexivity.
    rewrite <- Hcols.
    apply (argmin_axis1_first d_col
             (divergence_col z row col row' gavg eps) col').
    + lia.
    + intros i j Hi Hj. rewrite Hrows in Hi. rewrite Hcols in Hj.
      apply (dask_d_col_value z row col k l gavg eps Heps Hgavg Hz Hk Hl
               row' i j Hlr Hfr Hi Hj).
    + exact Ec.
    + rewrite Hrows. exact Hc.
  - unfold col_objective. apply Rsum_n_le. intros c Hc.
    apply Rmin_n_le. apply Forall_nth_lt; assumption.
Qed.

End DaskRun.

(** A run of the dask [coclustering] on finite non-negative data. *)
Lemma dask_run_total
    (z : nat -> nat -> R) (m n k l : nat) (eps : R) (errobj : float)
    (niters : nat) (perm_row perm_col : list nat -> list nat) :
  (0 < eps)%R -> (forall r c, 0 <= z r c)%R ->
  0 < m -> 0 < n -> 0 < k -> 0 < l ->
  is_shuffle perm_row -> is_shuffle perm_col ->
  0 < niters ->
  exists conv s row col err,
    CoclusteringDask.coclustering (lift2 m n z) k l errobj niters (Fin eps)
                                  perm_row perm_col
    = Some (conv, s, row, col, err) /\
    valid_labels m k row /\ valid_labels n l col /\ is_finite err.
Proof.
  intros Heps Hz Hm Hn Hk Hl Hpr Hpc Hit.
  assert (Hpos : 0 < m * n) by (apply Nat.mul_pos_pos; assumption).
  assert (Hg : (0 <= Gavg2 m n z)%R) by (apply Gavg2_nonneg; assumption).
  assert (Hmean : mean2 (lift2 m n z) = Fin (Gavg2 m n z))
    by (apply mean2_lift; exact Hpos).
  destruct (round_robin_valid perm_row m k Hpr Hk) as (Hlr & Hfr).
  destruct (round_robin_valid perm_col n l Hpc Hl) as (Hlc & Hfc).
  unfold CoclusteringDask.coclustering, CoclusteringDask._initialize_clusters.
  cbv zeta.
  change (rows (lift2 m n z)) with m. change (cols (lift2 m n z)) with n.
  rewrite (eye_rows_valid k _ Hfr), (eye_rows_valid l _ Hfc), Hmean.
  set (row0 := perm_row (map (fun i => np_mod i k) (seq 0 m))) in *.
  set (col0 := perm_col (map (fun i => np_mod i l) (seq 0 n))) in *.
  set (st0 := CoclusteringDask.mk_state false 0 (onehot k row0)
                (onehot l col0) None None (fmul (Fin 2) errobj) (Fin 0)).
  destruct (dask_while_loop_total z m n k l (Gavg2 m n z) eps errobj
              Heps Hg Hz Hk Hl niters st0 row0 col0 eq_refl eq_refl Hlr Hlc)
    as (st' & Hloop & Hcount & Hnot & Hsame & Hfin).
  rewrite Hloop.
  change (CoclusteringDask.s st0) with 0 in *. cbn [Nat.add] in *.
  assert (Hs : 0 < CoclusteringDask.s st').
  { destruct (Nat.eq_dec (CoclusteringDask.s st') 0) as [H0 | H0]; [|lia].
    pose proof (Hsame H0) as Heq.
    assert (Hc : CoclusteringDask.converged st' = false)
      by (rewrite Heq; reflexivity).
    rewrite (Hnot Hc) in H0. lia. }
  destruct (Hfin Hs) as (row' & col' & Hrw & Hcl & Hvr & Hvc & Hfe).
  rewrite Hrw, Hcl. do 5 eexists. split; [reflexivity|]. auto.
Qed.

(** X11: on finite non-negative data, with [epsilon > 0], at least one
    cluster per axis and at least one iteration allowed, the dask
    [coclustering] returns for every threshold and every draw of the
    initial assignments: it raises nothing, the labels are valid and the
    error is a finite number. *)
Theorem coclustering_returns
    (z : nat -> nat -> R) (m n k l : nat) (eps : R) (errobj : float)
    (niters : nat) (perm_row perm_col : list nat -> list nat) :
  (0 < eps)%R -> (forall r c, 0 <= z r c)%R ->
  0 < m -> 0 < n -> 0 < k -> 0 < l ->
  is_shuffle perm_row -> is_shuffle perm_col ->
  0 < niters ->
  exists conv s row col err,
    CoclusteringDask.coclustering (lift2 m n z) k l errobj niters (Fin eps)
                                  perm_row perm_col
    = Some (conv, s, row, col, Fin err) /\
    valid_labels m k row /\ valid_labels n l col.
Proof.
  intros Heps Hz Hm Hn Hk Hl Hpr Hpc Hit.
  destruct (dask_run_total z m n k l eps errobj niters perm_row perm_col
              Heps Hz Hm Hn Hk Hl Hpr Hpc Hit)
    as (conv & s & row & col & err & Hrun & Hr & Hc & Hfe).
  destruct err as [v| | |]; try contradiction.
  exists conv, s, row, col, v. auto.
Qed.

Lemma coclustering_returns_witness :
  exists conv s row col err,
    CoclusteringDask.coclustering (lift2 3 2 (fun _ _ => 1%R)) 2 2 NaN 4
                                  (Fin 1) (@rev nat) (fun p => p)
    = Some (conv, s, row, col, Fin err) /\
    valid_labels 3 2 row /\ valid_labels 2 2 col.
Proof.
  apply (coclustering_returns (fun _ _ => 1%R) 3 2 2 2 1%R NaN 4
           (@rev nat) (fun p => p)); try lra; try lia.
  - intros; lra.
  - intro l. apply Permutation_sym, Permutation_rev.
  - intro l. apply Permutation_refl.
Defined.

(** X12: whatever the data, when the dask [coclustering] returns it has
    done at least one iteration and at most [niters] (with [niters = 0]
    it never returns: the labels are unbound at the return statement); a
    run that did not converge has used all iterations; every label
    returned is below the number of clusters of its axis, one label per
    position. *)
Theorem coclustering_result_is_bounded
    (Z : array2) (k l : nat) (errobj : float) (niters : nat)
    (epsilon : float) (perm_row perm_col : list nat -> list nat)
    (conv : bool) (s : nat) (row col : list nat) (err : float) :
  CoclusteringDask.coclustering Z k l errobj niters epsilon perm_row perm_col
  = Some (conv, s, row, col, err) ->
  0 < s <= niters /\
  (conv = false -> s = niters) /\
  valid_labels (rows Z) k row /\ valid_labels (cols Z) l col.
Proof.
  unfold CoclusteringDask.coclustering. cbv zeta.
  destruct (CoclusteringDask._initialize_clusters perm_row (rows Z) k)
    as [R0|]; [|discriminate].
  destruct (CoclusteringDask._initialize_clusters perm_col (cols Z) l)
    as [C0|]; [|discriminate].
  set (st0 := CoclusteringDask.mk_state false 0 R0 C0 None None
                (fmul (Fin 2) errobj) (Fin 0)).
  destruct (CoclusteringDask.while_loop Z k l errobj epsilon (mean2 Z)
              niters st0) as [st'|] eqn:Hloop; [|discriminate].
  destruct (CoclusteringDask.row_clusters st') as [row'|] eqn:Erow;
    [|discriminate].
  destruct (CoclusteringDask.col_clusters st') as [col'|] eqn:Ecol;
    [|discriminate].
  intro H. inversion H; subst. clear H.
  destruct (dask_while_loop_bounds Z k l errobj epsilon (mean2 Z) niters
              st0 st' Hloop) as (Hcount & Hnot & Hsame & Hlab).
  change (CoclusteringDask.s st0) with 0 in *. cbn [Nat.add] in *.
  assert (Hs : 0 < CoclusteringDask.s st').
  { destruct (Nat.eq_dec (CoclusteringDask.s st') 0) as [H0 | H0]; [|lia].
    rewrite (Hsame H0) in Erow. discriminate. }
  destruct (Hlab Hs) as (r1 & c1 & Hr1 & Hc1 & Hvr & Hvc).
  rewrite Erow in Hr1. rewrite Ecol in Hc1.
  inversion Hr1; inversion Hc1; subst.
  split; [lia|]. split; [exact Hnot|]. split; assumption.
Qed.

Lemma coclustering_result_is_bounded_witness :
  exists conv s row col err,
    CoclusteringDask.coclustering (lift2 3 2 (fun _ _ => 1%R)) 2 2 NaN 4
                                  (Fin 1) (@rev nat) (fun p => p)
    = Some (conv, s, row, col, err) /\
    0 < s <= 4 /\
    (conv = false -> s = 4) /\
    valid_labels 3 2 row /\ valid_labels 2 2 col.
Proof.
  destruct (dask_run_total (fun _ _ => 1%R) 3 2 2 2 1%R NaN 4
              (@rev nat) (fun p => p))
    as (conv & s & row & col & err & Hrun & _); try lra; try lia;
    try (intro l; first [apply Permutation_refl
                        | apply Permutation_sym, Permutation_rev]).
  - intros; lra.
  - exists conv, s, row, col, err. split; [exact Hrun|].
    apply (coclustering_result_is_bounded
             (lift2 3 2 (fun _ _ => 1%R)) 2 2 NaN 4 (Fin 1)
             (@rev nat) (fun p => p) conv s row col err Hrun).
Defined.

Lemma band_assignment_is_first_argmin_witness :
  let st := TriclusteringNumpy.mk_state false 0 [0; 1] [0; 1] [0; 1]
                                         (Fin 2) (Fin 0) in
  let z := fun (_ _ _ : nat) => 1%R in
  exists st' v,
    TriclusteringNumpy.iteration (lift3 2 2 2 z) 2 2 2 (Fin 1) (Fin 1) (Fin 1)
                                 st = Some st' /\
    (forall b, b < 2 ->
       first_argmin 2 (divergence_bnd z [0; 1] [0; 1] [0; 1] 1 1 b)
                    (nth b (TriclusteringNumpy.bnd_clusters st') 0)) /\
    TriclusteringNumpy.e st' = Fin v /\
    Rle v (Rsum_n 2
             (fun b => divergence_bnd z [0; 1] [0; 1] [0; 1] 1 1 b
                                      (nth b [0; 1] 0))).
Proof.
  cbv zeta.
  apply (band_assignment_is_first_argmin (fun _ _ _ => 1%R) 2 2 2 1%R 1%R
           (Fin 1));
    try lra; try lia; try (intros; lra); repeat constructor.
Defined.

Lemma column_assignment_is_first_argmin_witness :
  let st := CoclusteringDask.mk_state false 0 (onehot 2 [0; 1])
              (onehot 2 [0; 1]) None None (Fin 2) (Fin 0) in
  let z := fun (_ _ : nat) => 1%R in
  exists st' row' col' v,
    CoclusteringDask.iteration (lift2 2 2 z) 2 2 (Fin 1) (Fin 1) (Fin 1) st
    = Some st' /\
    CoclusteringDask.row_clusters st' = Some row' /\
    CoclusteringDask.col_clusters st' = Some col' /\
    (forall c, c < 2 ->
       first_argmin 2 (divergence_col z [0; 1] [0; 1] row' 1 1 c)
                    (nth c col' 0)) /\
    CoclusteringDask.e st' = Fin v /\
    Rle v (Rsum_n 2
             (fun c => divergence_col z [0; 1] [0; 1] row' 1 1 c
                                      (nth c [0; 1] 0))).
Proof.
  cbv zeta.
  apply (column_assignment_is_first_argmin (fun _ _ => 1%R) 2 2 1%R 1%R
           (Fin 1)) with (row := [0; 1]) (col := [0; 1]);
    try lra; try lia; try (intros; lra); try reflexivity;
    repeat constructor.
Defined.

(** ** Kmeans: the constructor *)

Section KmeansConstructor.
Import Kmeans.

Lemma fold_max_nat (l : list nat) :
  forall x, x <= fold_left Nat.max l x /\
            (forall y, In y l -> y <= fold_left Nat.max l x) /\
            (fold_left Nat.max l x = x \/ In (fold_left Nat.max l x) l).
Proof.
  induction l as [|a l IH]; intro x; simpl.
  - split; [lia|]. split; [intros y [] | left; reflexivity].
  - destruct (IH (Nat.max x a)) as (H1 & H2 & H3).
    split; [lia|]. split.
    + intros y [<- | Hy]; [lia | auto].
    + destruct H3 as [H3 | H3]; [|auto].
      rewrite H3. destruct (Nat.max_spec x a) as [[_ ->] | [_ ->]]; auto.
Qed.

Lemma nat_max_below (cl : list nat) (ncl : nat) :
  match nat_max cl with
  | None => false
  | Some mx => mx <? ncl
  end = true
  <-> cl <> [] /\ Forall (fun x => x < ncl) cl.
Proof.
  destruct cl as [|x l]; simpl.
  - split; [discriminate | intros (H & _); congruence].
  - destruct (fold_max_nat l x) as (H1 & H2 & H3).
    rewrite Nat.ltb_lt. split.
    + intro Hlt. split; [discriminate|]. constructor; [lia|].
      apply Forall_forall. intros y Hy. specialize (H2 y Hy). lia.
    + intros (_ & Hall). rewrite Forall_forall in Hall.
      destruct H3 as [-> | H3]; apply Hall; [left; reflexivity|].
      right. exact H3.
Qed.

Lemma labels_in_range_spec (cls : list (list nat)) :
  forall (ncls : list nat) (ndim : nat),
    labels_in_range cls ncls ndim = true
    <-> forall i cl ncl,
          i < ndim -> nth_error cls i = Some cl ->
          nth_error ncls i = Some ncl ->
          cl <> [] /\ Forall (fun x => x < ncl) cl.
Proof.
  induction cls as [|cl0 cls IH]; intros ncls ndim.
  - simpl. split; [|reflexivity]. intros _ [|i] cl ncl _ H; discriminate.
  - destruct ncls as [|ncl0 ncls].
    { simpl. split; [|reflexivity]. intros _ [|i] cl ncl _ _ H; discriminate. }
    destruct ndim as [|ndim].
    { simpl. split; [|reflexivity]. intros _ i cl ncl Hi. lia. }
    cbn [labels_in_range].
    assert (Hhead : match nat_max cl0 with
                    | Some mx => (mx <? ncl0) && labels_in_range cls ncls ndim
                    | None => false
                    end
                    = (match nat_max cl0 with
                       | Some mx => mx <? ncl0
                       | None => false
                       end) && labels_in_range cls ncls ndim)
      by (destruct (nat_max cl0); reflexivity).
    rewrite Hhead, andb_true_iff, nat_max_below, IH. split.
    + intros (H0 & Hrest) [|i] cl ncl Hi Hcl Hncl; simpl in Hcl, Hncl.
      * inversion Hcl; inversion Hncl; subst. exact H0.
      * apply (Hrest i cl ncl); [lia | assumption | assumption].
    + intro H. split.
      * apply (H 0 cl0 ncl0); [lia | reflexivity | reflexivity].
      * intros i cl ncl Hi Hcl Hncl.
        apply (H (S i) cl ncl); [lia | exact Hcl | exact Hncl].
Qed.

Lemma init_unfold (Zarr : ndarray) (cls : list (list nat)) (ncls : list nat)
    (ks : list Z) (num : Z) (den : positive) (it : nat) (km : Kmeans) :
  __init__ Zarr cls ncls (Some ks) num den it = Ok km ->
  list_eqb (shape Zarr) (map (@length nat) cls) = true /\
  labels_in_range cls ncls (length (shape Zarr)) = true /\
  exists mn mx,
    zmin (sort ks) = Some mn /\ zmax (sort ks) = Some mx /\
    (2 <= mn)%Z /\ (mx <= Z.of_nat (prod_nat ncls))%Z /\
    km = mk_kmeans cls ncls it (sort ks) Zarr
                   (5 * mx >? 4 * Z.of_nat (prod_nat ncls))%Z.
Proof.
  unfold __init__. intro H.
  destruct (negb (length (shape Zarr) =? length cls)); [discriminate|].
  destruct (list_eqb (shape Zarr) (map (@length nat) cls));
    [|discriminate].
  destruct (labels_in_range cls ncls (length (shape Zarr)));
    [|discriminate].
  cbn [negb] in H.
  destruct (zmin (sort ks)) as [mn|] eqn:Emin; [|discriminate].
  destruct (zmax (sort ks)) as [mx|] eqn:Emax; [|discriminate].
  destruct (2 <=? mn)%Z eqn:E2; [|discriminate].
  destruct (mx >? Z.of_nat (prod_nat ncls))%Z eqn:E3; [discriminate|].
  cbn [negb] in H. inversion H; subst km.
  split; [reflexivity|]. split; [reflexivity|].
  exists mn, mx. apply Z.leb_le in E2.
  rewrite Z.gtb_ltb in E3. apply Z.ltb_ge in E3. auto 10.
Qed.

Lemma in_sort (ks : list Z) (k : Z) : In k (sort ks) <-> In k ks.
Proof.
  split; apply Permutation_in;
    [apply sort_perm | apply Permutation_sym, sort_perm].
Qed.

(** X16: [Kmeans.__init__] with a given [k_range] returns exactly when
    the shape of [Z] is made of the lengths of the label vectors, every
    label vector checked is non-empty with labels below the number of
    clusters of its axis, and the range is non-empty with all values
    between 2 and the product of [nclusters]; otherwise it raises
    ValueError.  The check runs over the axes that have both a label
    vector and a number of clusters. *)
Theorem kmeans_init_accepts_iff
    (Zarr : ndarray) (cls : list (list nat)) (ncls : list nat)
    (ks : list Z) (num : Z) (den : positive) (it : nat) :
  ((exists km, __init__ Zarr cls ncls (Some ks) num den it = Ok km)
   <-> kmeans_accepts Zarr cls ncls ks) /\
  (__init__ Zarr cls ncls (Some ks) num den it = ValueError
   <-> ~ kmeans_accepts Zarr cls ncls ks).
Proof.
  assert (Hout : forall km,
             __init__ Zarr cls ncls (Some ks) num den it = Ok km ->
             kmeans_accepts Zarr cls ncls ks).
  { intros km H.
    destruct (init_ok_inv _ _ _ _ _ _ _ _ H) as (_ & _ & _ & _ & _ & Hne & Hk).
    destruct (init_unfold _ _ _ _ _ _ _ _ H) as (Hshape & Hlab & _).
    apply list_eqb_eq in Hshape.
    split; [exact Hshape|]. split; [|split; assumption].
    intros i cl ncl Hcl Hncl.
    apply (proj1 (labels_in_range_spec cls ncls _) Hlab i cl ncl);
      [|exact Hcl | exact Hncl].
    rewrite Hshape, length_map. apply nth_error_Some. congruence. }
  assert (Hin : kmeans_accepts Zarr cls ncls ks ->
                exists km, __init__ Zarr cls ncls (Some ks) num den it = Ok km).
  { intros (Hshape & Hlab & Hne & Hk). unfold __init__.
    rewrite Hshape, length_map, Nat.eqb_refl.
    replace (list_eqb (map (@length nat) cls) (map (@length nat) cls))
      with true by (symmetry; apply list_eqb_eq; reflexivity).
    replace (labels_in_range cls ncls (length cls)) with true
      by (symmetry; apply labels_in_range_spec; intros i cl ncl _;
          apply Hlab).
    cbn [negb].
    assert (Hne' : sort ks <> []).
    { intro Es. apply Hne. apply Permutation_nil. rewrite <- Es.
      apply sort_perm. }
    destruct (zmin (sort ks)) as [mn|] eqn:Emin;
      [|destruct (sort ks); [congruence | discriminate]].
    destruct (zmax (sort ks)) as [mx|] eqn:Emax;
      [|destruct (sort ks); [congruence | discriminate]].
    apply zmin_spec in Emin. apply zmax_spec in Emax.
    destruct Emin as (Hmn & _). destruct Emax as (Hmx & _).
    apply (proj1 (in_sort _ _)) in Hmn. apply (proj1 (in_sort _ _)) in Hmx.
    pose proof (Hk mn Hmn). pose proof (Hk mx Hmx).
    replace (2 <=? mn)%Z with true by (symmetry; apply Z.leb_le; lia).
    replace (mx >? Z.of_nat (prod_nat ncls))%Z with false
      by (symmetry; rewrite Z.gtb_ltb; apply Z.ltb_ge; lia).
    cbn [negb]. eauto. }
  split; [split; [intros (km & H); exact (Hout km H) | exact Hin]|].
  split.
  - intros H Hacc. destruct (Hin Hacc) as (km & Hkm). congruence.
  - intro Hno.
    destruct (init_cases Zarr cls ncls (Some ks) num den it) as [E | (km & E)];
      [exact E|].
    exfalso. apply Hno. apply (Hout km). exact E.
Qed.

(** X17: what [Kmeans.__init__] stores when it returns: the arguments,
    with [k_range] sorted in increasing order (same values, same
    multiplicities); and it logs its warning exactly when some requested
    k is above 80% of the product of [nclusters]. *)
Theorem kmeans_init_stores_sorted_range
    (Zarr : ndarray) (cls : list (list nat)) (ncls : list nat)
    (ks : list Z) (num : Z) (den : positive) (it : nat) (km : Kmeans) :
  __init__ Zarr cls ncls (Some ks) num den it = Ok km ->
  StronglySorted Z.le (k_range km) /\
  Permutation (k_range km) ks /\
  clusters km = cls /\ nclusters km = ncls /\
  kmean_max_iter km = it /\ Zdata km = Zarr /\
  (warned km = true
   <-> exists k, In k ks /\ (5 * k > 4 * Z.of_nat (prod_nat ncls))%Z).
Proof.
  intro H.
  destruct (init_unfold _ _ _ _ _ _ _ _ H)
    as (_ & _ & mn & mx & _ & Emax & _ & _ & ->).
  cbn [k_range clusters nclusters kmean_max_iter Zdata warned].
  split; [apply sort_sorted|]. split; [apply sort_perm|].
  repeat (split; [reflexivity|]).
  apply zmax_spec in Emax. destruct Emax as (Hmx & Hall).
  rewrite Z.gtb_ltb, Z.ltb_lt. split.
  - intro Hw. exists mx. split; [apply in_sort; exact Hmx | lia].
  - intros (k & Hk & Hgt). apply (proj2 (in_sort _ _)) in Hk.
    specialize (Hall k Hk). lia.
Qed.

Lemma kmeans_init_stores_sorted_range_witness :
  let cls := [[0; 0; 1; 1]; [0; 0; 0; 1; 1]] in
  let Zarr := mk_nd [4; 5] (fun _ => Fin 1) in
  let km := mk_kmeans cls [2; 2] 100 [2; 3; 4]%Z Zarr true in
  let max_k := Z.of_nat (prod_nat [2; 2]) in
  StronglySorted Z.le (k_range km) /\
  Permutation (k_range km) [4; 2; 3]%Z /\
  clusters km = cls /\ nclusters km = [2; 2] /\
  kmean_max_iter km = 100 /\ Zdata km = Zarr /\
  (warned km = true
   <-> exists k, In k [4; 2; 3]%Z /\ (5 * k > 4 * max_k)%Z).
Proof.
  cbv zeta.
  apply (kmeans_init_stores_sorted_range
           (mk_nd [4; 5] (fun _ => Fin 1))
           [[0; 0; 1; 1]; [0; 0; 0; 1; 1]] [2; 2] [4; 2; 3]%Z 4%Z 5%positive
           100).
  reflexivity.
Defined.

Lemma in_range (a b k : Z) : In k (range a b) <-> (a <= k < b)%Z.
Proof.
  unfold range. rewrite in_map_iff. split.
  - intros (i & <- & Hi). apply in_seq in Hi. lia.
  - intro H. exists (Z.to_nat (k - a)). split; [lia|]. apply in_seq. lia.
Qed.

(** X18: [Kmeans.__init__] without [k_range] and with the default
    [max_k_ratio = 0.8].  When it returns, the product of [nclusters] is
    at least 4 (below that the default range is empty and the
    constructor raises ValueError), the values tested are exactly the k
    with [2 <= k < int(0.8 * max_k)], and no warning is logged. *)
Theorem kmeans_default_range
    (Zarr : ndarray) (cls : list (list nat)) (ncls : list nat) (it : nat)
    (km : Kmeans) :
  __init__ Zarr cls ncls None 4 5 it = Ok km ->
  (4 <= Z.of_nat (prod_nat ncls))%Z /\
  (forall k, In k (k_range km)
             <-> (2 <= k < Z.quot (Z.of_nat (prod_nat ncls) * 4) 5)%Z) /\
  StronglySorted Z.le (k_range km) /\
  warned km = false.
Proof.
  unfold __init__. intro H.
  destruct (negb (length (shape Zarr) =? length cls)); [discriminate|].
  destruct (negb (list_eqb (shape Zarr) (map (@length nat) cls)));
    [discriminate|].
  destruct (negb (labels_in_range cls ncls (length (shape Zarr))));
    [discriminate|].
  set (max_k := Z.of_nat (prod_nat ncls)) in *.
  set (q := Z.quot (max_k * 4) 5) in *.
  destruct (zmin (sort (range 2 q))) as [mn|] eqn:Emin; [|discriminate].
  destruct (zmax (sort (range 2 q))) as [mx|] eqn:Emax; [|discriminate].
  destruct (negb (2 <=? mn)%Z); [discriminate|].
  destruct (mx >? max_k)%Z; [discriminate|].
  assert (Hkm : km = mk_kmeans cls ncls it (sort (range 2 q)) Zarr
                           (5 * mx >? 4 * max_k)%Z) by congruence.
  subst km. clear H. cbn [k_range warned].
  apply zmax_spec in Emax. destruct Emax as (Hmx & _).
  apply (proj1 (in_sort _ _)) in Hmx. apply (proj1 (in_range _ _ _)) in Hmx.
  assert (Hq : (5 * q <= max_k * 4)%Z).
  { unfold q. pose proof (Z.quot_rem' (max_k * 4) 5) as Hqr.
    pose proof (Z.rem_nonneg (max_k * 4) 5 ltac:(lia) ltac:(lia)). lia. }
  split; [lia|]. split; [|split].
  - intro k. rewrite in_sort. apply in_range.
  - apply sort_sorted.
  - rewrite Z.gtb_ltb. apply Z.ltb_ge. lia.
Qed.

Lemma kmeans_default_range_witness :
  let cls := [[0; 0; 1; 1; 2; 2]; [0; 0; 1; 1]] in
  let Zarr := mk_nd [6; 4] (fun _ => Fin 1) in
  let km := mk_kmeans cls [3; 2] 100 [2; 3]%Z Zarr false in
  let max_k := Z.of_nat (prod_nat [3; 2]) in
  (4 <= max_k)%Z /\
  (forall k, In k (k_range km) <-> (2 <= k < Z.quot (max_k * 4) 5)%Z) /\
  StronglySorted Z.le (k_range km) /\
  warned km = false.
Proof.
  cbv zeta.
  apply (kmeans_default_range (mk_nd [6; 4] (fun _ => Fin 1))
           [[0; 0; 1; 1; 2; 2]; [0; 0; 1; 1]] [3; 2] 100).
  reflexivity.
Defined.

End KmeansConstructor.

(** ** Kmeans: the rows of statistics *)

Section KmeansStatRows.
Import Kmeans.

Lemma reshape6_concat (rws : list (list float)) :
  Forall (fun r => length r = 6) rws ->
  forall fuel, length rws <= fuel -> reshape6 fuel (concat rws) = Some rws.
Proof.
  induction 1 as [|r rws Hr Hall IH]; intros fuel Hf.
  - destruct fuel; reflexivity.
  - destruct fuel as [|fuel]; [simpl in Hf; lia|].
    destruct r as [|a [|b [|c [|d [|e [|f [|g r]]]]]]]; try discriminate.
    cbn [concat app reshape6 length Nat.ltb Nat.leb firstn skipn].
    rewrite IH by (simpl in Hf; lia). reflexivity.
Qed.

Lemma finite_row_filter (r : list float) :
  Forall is_finite r ->
  filter (fun x => negb (isnan x)) r = r /\ finite_row r = true.
Proof.
  induction 1 as [|x r Hx Hr (IH1 & IH2)]; [split; reflexivity|].
  destruct x; try contradiction. unfold finite_row in *. simpl.
  rewrite IH1, IH2. split; reflexivity.
Qed.

Lemma nan_row_filter (r : list float) :
  r <> [] -> Forall (fun x => x = NaN) r ->
  filter (fun x => negb (isnan x)) r = [] /\ finite_row r = false.
Proof.
  intros Hne H. split.
  - clear Hne. induction H as [|x r Hx Hr IH]; [reflexivity|].
    subst x. simpl. exact IH.
  - destruct H as [|x r Hx Hr]; [congruence|]. subst x. reflexivity.
Qed.

Lemma flat_finite_rows (features : list (list float)) :
  (forall r, In r features ->
     length r = 6 /\ (Forall is_finite r \/ Forall (fun x => x = NaN) r)) ->
  filter (fun x => negb (isnan x)) (concat features)
  = concat (filter finite_row features).
Proof.
  induction features as [|r fs IH]; intro H; [reflexivity|].
  cbn [concat filter]. rewrite filter_app.
  rewrite IH by (intros r' Hr'; apply H; right; exact Hr').
  destruct (H r (or_introl eq_refl)) as (Hlen & [Hfin | Hnan]).
  - destruct (finite_row_filter r Hfin) as (-> & ->). reflexivity.
  - assert (Hne : r <> []) by (destruct r; [discriminate | discriminate]).
    destruct (nan_row_filter r Hne Hnan) as (-> & ->). reflexivity.
Qed.

(** X19: when every block has either six finite statistics or six NaN
    (an empty block), the rows that [_compute_statistic_measures] keeps
    are exactly the rows of the blocks with finite statistics, in the
    order of the blocks; it returns one normalised row for each of them,
    and it raises (ValueError, [None]) when there is none. *)
Theorem statistics_rows_are_populated_blocks
    (features : list (list float)) :
  (forall r, In r features ->
     length r = 6 /\ (Forall is_finite r \/ Forall (fun x => x = NaN) r)) ->
  let stat := filter finite_row features in
  stat_measures features = Some stat /\
  (stat = [] -> _compute_statistic_measures features = None) /\
  (stat <> [] ->
   _compute_statistic_measures features = Some (normalize stat) /\
   length (normalize stat) = length stat).
Proof.
  intros H stat.
  assert (Hstat : stat_measures features = Some stat).
  { unfold stat_measures. rewrite (flat_finite_rows features H). fold stat.
    assert (Hrows : Forall (fun r => length r = 6) stat).
    { apply Forall_forall. intros r Hr. unfold stat in Hr.
      apply filter_In in Hr. apply H. tauto. }
    apply reshape6_concat; [exact Hrows|].
    clear - Hrows. induction Hrows as [|r rws Hr Hrws IH]; simpl; [lia|].
    rewrite length_app. lia. }
  split; [exact Hstat|]. unfold _compute_statistic_measures. rewrite Hstat.
  split.
  - intros ->. reflexivity.
  - intro Hne. destruct stat as [|r rws]; [congruence|].
    split; [reflexivity|]. unfold normalize. apply length_map.
Qed.

Lemma statistics_rows_are_populated_blocks_witness :
  let stat := filter finite_row test_features in
  stat_measures test_features = Some stat /\
  (stat = [] -> _compute_statistic_measures test_features = None) /\
  (stat <> [] ->
   _compute_statistic_measures test_features = Some (normalize stat) /\
   length (normalize stat) = length stat).
Proof.
  cbv zeta.
  apply (statistics_rows_are_populated_blocks test_features).
  intros r Hr. unfold test_features in Hr. simpl in Hr.
  repeat (destruct Hr as [<- | Hr];
          [split; [reflexivity|];
           first [left; solve [repeat constructor]
                 | right; solve [repeat constructor]]|]).
  contradiction.
Defined.

Lemma normalize_entry (stat : list (list float)) (r : list float) (j : nat) :
  j < 6 ->
  nth j (map (fun j => divide_where (fsub (nth j r NaN) (col_min stat j))
                                    (fsub (col_max stat j) (col_min stat j)))
             (seq 0 6)) NaN
  = divide_where (fsub (nth j r NaN) (col_min stat j))
                 (fsub (col_max stat j) (col_min stat j)).
Proof.
  intro Hj.
  rewrite (nth_indep _ NaN (divide_where
                              (fsub (nth 0 r NaN) (col_min stat 0))
                              (fsub (col_max stat 0) (col_min stat 0))))
    by (rewrite length_map, length_seq; exact Hj).
  rewrite (map_nth (fun j => divide_where
                               (fsub (nth j r NaN) (col_min stat j))
                               (fsub (col_max stat j) (col_min stat j)))
                   (seq 0 6) 0 j).
  rewrite seq_nth by exact Hj. reflexivity.
Qed.



End KmeansStatRows.

(** ** Kmeans: the refinement *)

Section KmeansRefineMore.
Import Kmeans.

Lemma averages_loop_empty_group (Zarr : ndarray) (cls : list (list nat))
    (ncls : list nat) (km : list nat -> option nat) (todo : list nat) :
  forall (g0 : list nat -> float) (L : nat),
    In L todo -> (forall c, km c <> Some L) ->
    averages_loop Zarr cls ncls km todo g0 = None.
Proof.
  induction todo as [|label todo IH]; intros g0 L Hin Hno; [destruct Hin|].
  cbn [averages_loop]. fold (cells_of ncls km label).
  destruct (accumulate Zarr cls (cells_of ncls km label)) as [ls n].
  destruct (cells_of ncls km label) as [|c0 cells] eqn:E; [reflexivity|].
  destruct Hin as [<- | Hin].
  - exfalso. assert (Hc : In c0 (cells_of ncls km label))
      by (rewrite E; left; reflexivity).
    unfold cells_of in Hc. apply filter_In in Hc. destruct Hc as (_ & Hc).
    destruct (km c0) as [v|] eqn:Ek; [|discriminate].
    apply Nat.eqb_eq in Hc. subst v. exact (Hno c0 Ek).
  - apply (IH _ L Hin Hno).
Qed.

Lemma refine_empty_group (self : Kmeans) (k_value : Z) (labels : list nat)
    (L : nat) :
  length (clusters self) <= length (nclusters self) ->
  length labels = length (populated (clusters self) (nclusters self)) \/
  length labels = 1 ->
  L < Z.to_nat k_value -> ~ In L labels ->
  refine self k_value labels = ZeroDivisionError.
Proof.
  intros Haxes Hlen HL Hno. unfold refine.
  replace (length (nclusters self) <? length (clusters self)) with false
    by (symmetry; apply Nat.ltb_ge; exact Haxes).
  fold (populated (clusters self) (nclusters self)).
  destruct (assign_masked (length (populated (clusters self) (nclusters self)))
                          labels) as [assigned|] eqn:Ea.
  - apply assign_masked_spec in Ea. destruct Ea as (_ & Hsub).
    rewrite (averages_loop_empty_group _ _ _ _ _ _ L); [reflexivity | |].
    + apply in_seq. lia.
    + intros c Hc. apply lookup_some_in in Hc. apply Hno, Hsub. tauto.
  - exfalso. unfold assign_masked in Ea.
    destruct Hlen as [Hlen | Hlen]; rewrite Hlen in Ea.
    + rewrite Nat.eqb_refl in Ea. discriminate.
    + destruct (1 =? _); discriminate.
Qed.

(** X21: [compute] raises ZeroDivisionError when the labels the k-means
    returned for the chosen k leave a refined cluster without any block:
    some label below k is not in use, so the sum [0.] and the count [0]
    of that cluster are divided.  The labels are as many as the populated
    blocks, or a single one, so that they can be laid on the mask. *)
Theorem compute_raises_on_empty_group
    (G : Type)
    (KMeans_fit : G -> Z -> nat -> list (list float) -> option (list nat) * G)
    (silhouette_score : list (list float) -> list nat -> option float)
    (features : list (list float)) (self : Kmeans) (g g' : G)
    (X : list (list float)) (scores : list float) (k : Z)
    (labels : list nat) (tie : bool) (L : nat) :
  length (clusters self) <= length (nclusters self) ->
  _compute_statistic_measures features = Some X ->
  select_k KMeans_fit silhouette_score g (k_range self) (kmean_max_iter self) X
    = (Some (scores, k, labels, tie), g') ->
  length labels = length (populated (clusters self) (nclusters self)) \/
  length labels = 1 ->
  L < Z.to_nat k -> ~ In L labels ->
  compute KMeans_fit silhouette_score features self g
  = (ZeroDivisionError, g').
Proof.
  intros Haxes Hstat Hsel Hlen HL Hno. unfold compute.
  rewrite Hstat, Hsel.
  rewrite (refine_empty_group self k labels L Haxes Hlen HL Hno).
  reflexivity.
Qed.

Lemma compute_raises_on_empty_group_witness :
  compute (fun (g : unit) (_ : Z) (_ : nat) (_ : list (list float)) =>
             (Some [0; 0; 0; 0], g))
          test_score test_features test_km tt
  = (ZeroDivisionError, tt).
Proof.
  eapply (compute_raises_on_empty_group unit
            (fun (g : unit) (_ : Z) (_ : nat) (_ : list (list float)) =>
               (Some [0; 0; 0; 0], g))
            test_score test_features test_km tt tt _ _ 2%Z [0; 0; 0; 0] _ 1).
  - simpl. lia.
  - reflexivity.
  - reflexivity.
  - left. reflexivity.
  - simpl. lia.
  - simpl. intros [H | [H | [H | [H | []]]]]; discriminate.
Defined.

(** The cells of the mask are counted by [n_populated]. *)
Lemma filter_mask_cons (cl : list nat) (cls : list (list nat)) (i : nat)
    (tl : list (list nat)) :
  filter (in_mask (cl :: cls)) (map (cons i) tl)
  = if existsb (Nat.eqb i) (unique cl)
    then map (cons i) (filter (in_mask cls) tl)
    else [].
Proof.
  induction tl as [|c tl IH].
  - simpl. destruct (existsb (Nat.eqb i) (unique cl)); reflexivity.
  - cbn [map filter]. rewrite IH. cbn [in_mask].
    destruct (existsb (Nat.eqb i) (unique cl)), (in_mask cls c); reflexivity.
Qed.

Lemma mask_count_axis (cl : list nat) (cls : list (list nat))
    (tl : list (list nat)) (ax : list nat) :
  length (filter (in_mask (cl :: cls))
                 (flat_map (fun i => map (cons i) tl) ax))
  = length (filter (fun i => existsb (Nat.eqb i) (unique cl)) ax)
    * length (filter (in_mask cls) tl).
Proof.
  induction ax as [|i ax IH]; [reflexivity|].
  cbn [flat_map]. rewrite filter_app, length_app, IH, filter_mask_cons.
  cbn [filter].
  destruct (existsb (Nat.eqb i) (unique cl)); cbn [length];
    [rewrite length_map|]; lia.
Qed.

Lemma count_mask_axis (u : list nat) (n : nat) :
  NoDup u -> Forall (fun x => x < n) u ->
  length (filter (fun i => existsb (Nat.eqb i) u) (seq 0 n)) = length u.
Proof.
  intros Hnd Hall. apply Permutation_length. apply NoDup_Permutation.
  - apply NoDup_filter. apply seq_NoDup.
  - exact Hnd.
  - intro x. rewrite filter_In, in_seq, existsb_exists. split.
    + intros (_ & y & Hy & Heq). apply Nat.eqb_eq in Heq. subst y. exact Hy.
    + intro Hx. rewrite Forall_forall in Hall. specialize (Hall x Hx).
      split; [lia|]. exists x. split; [exact Hx | apply Nat.eqb_refl].
Qed.

Lemma mask_count (cls : list (list nat)) (ncls : list nat) :
  Forall2 (fun cl ncl => Forall (fun x => x < ncl) cl) cls ncls ->
  length (filter (in_mask cls) (indices ncls)) = n_populated cls.
Proof.
  induction 1 as [|cl ncl cls ncls Hcl Hrest IH]; [reflexivity|].
  unfold indices. cbn [map cartesian].
  rewrite mask_count_axis. fold (indices ncls). rewrite IH.
  rewrite count_mask_axis.
  - reflexivity.
  - unfold unique. apply NoDup_nodup.
  - apply Forall_forall. intros x Hx. unfold unique in Hx.
    apply nodup_In in Hx. rewrite Forall_forall in Hcl. auto.
Qed.

(** X22: laying the labels of the k-means on the grid
    ([km_labels[mask] = labels]), with labels below the numbers of
    clusters and k at least 2.  The mask built from [np.unique] has as
    many cells as there are combinations of labels in use.  The refined
    grid is built only from one label for each of these cells: any other
    number of labels raises ValueError, except a single label, which
    numpy broadcasts to every cell, leaving a refined cluster empty
    (ZeroDivisionError). *)
Theorem refine_needs_one_label_per_populated_block
    (self : Kmeans) (k_value : Z) (labels : list nat) :
  Forall2 (fun cl ncl => Forall (fun x => x < ncl) cl)
          (clusters self) (nclusters self) ->
  (2 <= k_value)%Z ->
  length (populated (clusters self) (nclusters self))
  = n_populated (clusters self) /\
  ((exists res, refine self k_value labels = Ok res) ->
   length labels = n_populated (clusters self)) /\
  (length labels <> n_populated (clusters self) -> length labels <> 1 ->
   refine self k_value labels = ValueError) /\
  (length labels <> n_populated (clusters self) -> length labels = 1 ->
   refine self k_value labels = ZeroDivisionError).
Proof.
  intros Hlab Hk.
  assert (Hcount : length (populated (clusters self) (nclusters self))
                   = n_populated (clusters self))
    by (apply mask_count; exact Hlab).
  assert (Haxes : length (clusters self) <= length (nclusters self)).
  { rewrite (Forall2_length Hlab). apply Nat.le_refl. }
  assert (Hvalue : length labels <> n_populated (clusters self) ->
                   length labels <> 1 ->
                   refine self k_value labels = ValueError).
  { intros Hn H1. unfold refine.
    replace (length (nclusters self) <? length (clusters self)) with false
      by (symmetry; apply Nat.ltb_ge; exact Haxes).
    fold (populated (clusters self) (nclusters self)). rewrite Hcount.
    unfold assign_masked.
    replace (length labels =? n_populated (clusters self)) with false
      by (symmetry; apply Nat.eqb_neq; exact Hn).
    replace (length labels =? 1) with false
      by (symmetry; apply Nat.eqb_neq; exact H1).
    reflexivity. }
  assert (Hzero : length labels <> n_populated (clusters self) ->
                  length labels = 1 ->
                  refine self k_value labels = ZeroDivisionError).
  { intros Hn H1.
    destruct labels as [|v [|w l]]; try discriminate.
    apply (refine_empty_group self k_value [v] (if v =? 0 then 1 else 0)).
    - exact Haxes.
    - right. reflexivity.
    - destruct (v =? 0); lia.
    - destruct (v =? 0) eqn:E; intros [H | []].
      + apply Nat.eqb_eq in E. lia.
      + apply Nat.eqb_neq in E. lia. }
  split; [exact Hcount|]. split; [|split; assumption].
  intros (res & Hres).
  destruct (Nat.eq_dec (length labels) (n_populated (clusters self)))
    as [He | Hn]; [exact He|].
  destruct (Nat.eq_dec (length labels) 1) as [H1 | H1].
  - rewrite (Hzero Hn H1) in Hres. discriminate.
  - rewrite (Hvalue Hn H1) in Hres. discriminate.
Qed.

Lemma refine_needs_one_label_per_populated_block_witness :
  length (populated [[0; 0; 1; 1; 1]; [0; 0; 1; 1]] [3; 2])
  = n_populated [[0; 0; 1; 1; 1]; [0; 0; 1; 1]] /\
  ((exists res, refine test_km 2 [0; 1; 1; 0] = Ok res) ->
   length [0; 1; 1; 0] = n_populated [[0; 0; 1; 1; 1]; [0; 0; 1; 1]]) /\
  (length [0; 1; 1; 0] <> n_populated [[0; 0; 1; 1; 1]; [0; 0; 1; 1]] ->
   length [0; 1; 1; 0] <> 1 ->
   refine test_km 2 [0; 1; 1; 0] = ValueError) /\
  (length [0; 1; 1; 0] <> n_populated [[0; 0; 1; 1; 1]; [0; 0; 1; 1]] ->
   length [0; 1; 1; 0] = 1 ->
   refine test_km 2 [0; 1; 1; 0] = ZeroDivisionError).
Proof.
  apply (refine_needs_one_label_per_populated_block test_km 2 [0; 1; 1; 0]).
  - repeat constructor.
  - lia.
Defined.

End KmeansRefineMore.
